(** * LivePortrait node glue ([nodes.py]): a shallow embedding

    The ComfyUI nodes of [nodes.py] are embedded as Rocq functions:

    - [InferenceConfig], the configuration class;
    - [DownloadAndLoadLivePortraitModels.loadmodel];
    - [LivePortraitProcess.process];
    - [LivePortraitCropper.process];
    - [KeypointsToImage.drawkeypoints];
    - [KeypointScaler.process].

    [LivePortraitPipeline.execute], which [nodes.py] calls and does not
    define, is an external operation; where a statement is about its
    per-frame loop, the loop is modelled from the specification
    ([PipelineExecute]).

    Python objects that are mutated in place (the configuration object
    of the pipeline, the node instance, the CROPINFO dictionaries) are
    modelled by explicit state; exceptions by a result type; calls into
    torch, numpy, cv2, ComfyUI and the [liveportrait] package, none of
    which is part of [nodes.py], by classes of external operations.
    Floating-point values are carried as rationals. *)

From Stdlib Require Import ZArith QArith List String Bool Lia.
From stdpp Require Import base gmap strings list fin_maps.
Import ListNotations.
Open Scope string_scope.
Open Scope list_scope.

(** ** Exceptions and the run monad *)

Inductive exn : Type :=
| ValueError (msg : string)
| AttributeError (msg : string)
| IndexError
| KeyError (key : string)
| TypeError
| ExternalError.

Inductive result (A : Type) : Type :=
| Ok (a : A)
| Raise (e : exn).
Arguments Ok {A} a.
Arguments Raise {A} e.

(** A computation over a world [W]: it returns a value or raises, and
    leaves a world behind in both cases, as a Python call does. *)
Definition M (W A : Type) : Type := W -> result A * W.

Definition ret {W A} (a : A) : M W A := fun w => (Ok a, w).

Definition bind {W A B} (c : M W A) (k : A -> M W B) : M W B :=
  fun w => match c w with
           | (Ok a, w') => k a w'
           | (Raise e, w') => (Raise e, w')
           end.

Definition raise {W A} (e : exn) : M W A := fun w => (Raise e, w).

Definition lift {W A} (r : result A) : M W A := fun w => (r, w).

Definition modify {W} (f : W -> W) : M W unit := fun w => (Ok tt, f w).

Definition when {W} (b : bool) (c : M W unit) : M W unit :=
  if b then c else ret tt.

Declare Scope run_scope.
Delimit Scope run_scope with run.
Notation "x <- c ;; k" := (bind c (fun x => k))
  (at level 100, c at next level, right associativity) : run_scope.
Notation "c ;; k" := (bind c (fun _ => k))
  (at level 100, right associativity) : run_scope.
Open Scope run_scope.

(** ** Python values held in attributes *)

Definition device : Type := string.

(** A byte image, indexed [row][column][channel]. *)
Definition image3 : Type := list (list (list Byte.byte)).

Inductive pyval : Type :=
| PyNone
| PyBool (b : bool)
| PyInt (z : Z)
| PyFloat (q : Q)
| PyShape (h w : Z)
| PyDevice (d : device)
| PyImage (img : image3).

(** An instance is its attribute dictionary. *)
Abbreviation pyobj := (gmap string pyval).

Definition setattr (name : string) (v : pyval) (o : pyobj) : pyobj :=
  <[name := v]> o.

Definition getattr (name : string) (o : pyobj) : result pyval :=
  match o !! name with
  | Some v => Ok v
  | None => Raise (AttributeError name)
  end.

(** The value of [v] in a condition.  A numpy array with more than one
    element has no truth value. *)
Definition truth (v : pyval) : result bool :=
  match v with
  | PyNone => Ok false
  | PyBool b => Ok b
  | PyInt z => Ok (negb (z =? 0)%Z)
  | PyFloat q => Ok (negb (Qeq_bool q 0))
  | PyShape _ _ => Ok true
  | PyDevice _ => Ok true
  | PyImage img =>
      match concat (concat img) with
      | [] => Ok false
      | [b] => Ok (negb (Byte.eqb b Byte.x00))
      | _ => Raise (ValueError "The truth value of an array is ambiguous.")
      end
  end.

(** ** [InferenceConfig] *)

(** [InferenceConfig.__init__]: thirteen assignments, in source order. *)
Definition InferenceConfig
    (mask_crop : pyval)
    (flag_use_half_precision : bool)
    (flag_lip_zero : bool)
    (lip_zero_threshold : Q)
    (flag_eye_retargeting : bool)
    (flag_lip_retargeting : bool)
    (flag_stitching : bool)
    (flag_relative : bool)
    (input_shape : Z * Z)
    (flag_pasteback : bool)
    (device_id : pyval)
    (flag_do_crop : bool)
    (flag_do_rot : bool) : pyobj :=
  setattr "mask_crop" mask_crop
  (setattr "flag_do_rot" (PyBool flag_do_rot)
  (setattr "flag_do_crop" (PyBool flag_do_crop)
  (setattr "device_id" device_id
  (setattr "flag_pasteback" (PyBool flag_pasteback)
  (setattr "input_shape" (PyShape (fst input_shape) (snd input_shape))
  (setattr "flag_relative" (PyBool flag_relative)
  (setattr "flag_stitching" (PyBool flag_stitching)
  (setattr "flag_lip_retargeting" (PyBool flag_lip_retargeting)
  (setattr "flag_eye_retargeting" (PyBool flag_eye_retargeting)
  (setattr "lip_zero_threshold" (PyFloat lip_zero_threshold)
  (setattr "flag_lip_zero" (PyBool flag_lip_zero)
  (setattr "flag_use_half_precision" (PyBool flag_use_half_precision)
  ∅)))))))))))).

(** ** [DownloadAndLoadLivePortraitModels] *)

Module DownloadAndLoadLivePortraitModels.

(** What [loadmodel] asks of ComfyUI, torch and the file system.  The
    loaded networks (F, M, W, G and the stitching/retargeting dictionary)
    are opaque, and [load_networks] stands for lines 105-216, which
    download, read and load them; [None] stands for a call that
    raises. *)
Class Host : Type := {
  Networks : Type;
  get_torch_device : device;
  is_device_mps : device -> option bool;
  should_use_fp16 : option bool;
  load_networks : device -> option Networks
}.

(** [LivePortraitPipeline(F, M, W, G, stitch, cfg)]: the constructor's
    arguments.  [LivePortraitProcess] reads the last one back as
    [pipeline.live_portrait_wrapper.cfg]. *)
Record LivePortraitPipeline `{Host} : Type := {
  networks : Networks;
  cfg : pyobj
}.

Section Loadmodel.

Context `{host : Host}.

(** The world of [loadmodel] is what it has printed. *)
Definition print (line : string) : M (list string) unit :=
  modify (fun out => out ++ [line]).

Definition too_old : string :=
  "ComfyUI version too old, can't autodetect properly. Set your dtypes manually.".

(** The [try] block under [precision == 'auto']; the bare [except]
    turns any exception into [AttributeError]. *)
Definition autodetect (dev : device) : M (list string) string :=
  match is_device_mps dev with
  | None => raise (AttributeError too_old)
  | Some true => print "LivePortrait using fp32 for MPS" ;; ret "fp32"
  | Some false =>
      match should_use_fp16 with
      | None => raise (AttributeError too_old)
      | Some true => print "LivePortrait using fp16" ;; ret "fp16"
      | Some false => print "LivePortrait using fp32" ;; ret "fp32"
      end
  end.

Definition resolve_dtype (precision : string) (dev : device)
  : M (list string) string :=
  if (precision =? "auto")%string then autodetect dev
  else (print ("LivePortrait using " ++ precision)%string ;; ret precision).

Definition loadmodel (precision : string)
  : M (list string) LivePortraitPipeline :=
  let dev := get_torch_device in
  dtype <- resolve_dtype precision dev ;;
  nets <- match load_networks dev with
          | Some n => ret n
          | None => raise ExternalError
          end ;;
  ret {| networks := nets;
         cfg := InferenceConfig
                  PyNone
                  (if (precision =? "fp16")%string then true else false)
                  true (3 # 100) false false true true (256, 256)%Z true
                  (PyDevice dev) true true |}.

End Loadmodel.

End DownloadAndLoadLivePortraitModels.

(** ** numpy helpers used on the mask *)

(** [np.atleast_3d] on a two-dimensional array: a trailing axis of
    length one. *)
Definition np_atleast_3d {A} (a : list (list A)) : list (list (list A)) :=
  map (map (fun x => [x])) a.

(** [np.repeat(a, n, axis=2)]: every element of the last axis is
    repeated [n] times in place. *)
Definition np_repeat_axis2 {A} (n : nat) (a : list (list (list A)))
  : list (list (list A)) :=
  map (map (flat_map (fun x => repeat x n))) a.

(** ** [LivePortraitProcess] *)

Module LivePortraitProcess.

(** torch, numpy, cv2, ComfyUI and the pipeline object, as [process]
    uses them.  Tensors are lists of frames along their first axis, so
    [shape[0]] is [length]; the frames themselves are opaque. *)
Class Externals : Type := {
  (** one frame of an IMAGE tensor, height x width x channel floats *)
  FImage : Type;
  (** one frame as a uint8 array *)
  BImage : Type;
  (** one frame, channel first *)
  CImage : Type;
  (** an element of a MASK tensor *)
  MaskVal : Type;
  (** the CROPINFO value, passed through *)
  CropInfo : Type;
  (** the three kinds of per-step output of [pipeline.execute] *)
  CroppedOut : Type;
  FullOut : Type;
  MaskOut : Type;
  (** a tensor returned to the host *)
  Tensor : Type;
  (** [(x * 255).byte().numpy()] on one frame *)
  times255_byte : FImage -> BImage;
  (** [(x * 255).astype(np.uint8)] on one mask element *)
  times255_uint8 : MaskVal -> Byte.byte;
  (** [permute(0, 3, 1, 2)] on one frame *)
  permute_chw : FImage -> CImage;
  (** what [comfy.utils.common_upscale] does to one sample, given
      width, height, method and crop mode *)
  resample : Z -> Z -> string -> string -> CImage -> CImage;
  (** [.to(torch.float16)] on one frame *)
  to_float16 : CImage -> CImage;
  (** [cv2.imread(".../mask_template.png", cv2.IMREAD_COLOR)] *)
  imread_mask_template : pyval;
  (** [pipeline.execute]: it sees the configuration object and may
      leave it changed; [None] stands for a raised exception *)
  pipeline_execute :
    pyobj -> list BImage -> list CImage -> CropInfo -> string ->
    pyobj * option (list CroppedOut * list FullOut * list MaskOut);
  (** [torch.cat(xs, dim=0).cpu().float()] *)
  cat_float : list CroppedOut -> Tensor;
  (** [(torch.stack([torch.from_numpy(a) for a in xs]) / 255).cpu().float()] *)
  stack_div255_float : list FullOut -> Tensor;
  (** [torch.stack([torch.from_numpy(a) for a in xs])[:, :, :, 0]],
      then [.cpu().float()] *)
  stack_channel0_float : list MaskOut -> Tensor
}.

Section WithExternals.

Context `{ext : Externals}.

(** The arguments of [process]; [pipeline] is the world below. *)
Record Args : Type := {
  source_image : list FImage;
  driving_images : list FImage;
  crop_info : CropInfo;
  lip_zero : bool;
  lip_zero_threshold : Q;
  eye_retargeting : bool;
  lip_retargeting : bool;
  stitching : bool;
  relative : bool;
  eyes_retargeting_multiplier : Q;
  lip_retargeting_multiplier : Q;
  mismatch_method : string;
  mask : option (list (list (list MaskVal)))
}.

(** What an invocation does that can be observed from outside. *)
Inductive event : Type :=
| SetAttr (name : string) (v : pyval)
| LogWarning (msg : string)
| LogInfo (msg : string)
| Execute (seen : pyobj) (source_np : list BImage)
          (driving_images_256 : list CImage) (ci : CropInfo)
          (method : string).

(** [pipeline.live_portrait_wrapper.cfg], shared with the pipeline, and
    the events so far. *)
Record World : Type := {
  cfg : pyobj;
  trace : list event
}.

Definition emit (e : event) : M World unit :=
  modify (fun w => {| cfg := cfg w; trace := trace w ++ [e] |}).

(** [pipeline.live_portrait_wrapper.cfg.<name> = v] *)
Definition set_cfg (name : string) (v : pyval) : M World unit :=
  fun w => (Ok tt, {| cfg := setattr name v (cfg w);
                      trace := trace w ++ [SetAttr name v] |}).

(** [pipeline.live_portrait_wrapper.cfg.<name>] *)
Definition read_cfg (name : string) : M World pyval :=
  fun w => (getattr name (cfg w), w).

Definition log_warning (msg : string) : M World unit := emit (LogWarning msg).
Definition log_info (msg : string) : M World unit := emit (LogInfo msg).

(** [t[0]] on a tensor. *)
Definition index0 {A} (t : list A) : M World A :=
  match t with
  | x :: _ => ret x
  | [] => raise IndexError
  end.

(** [comfy.utils.common_upscale(samples, width, height, method, crop)]:
    each sample of the batch is resampled on its own. *)
Definition common_upscale (samples : list CImage) (width height : Z)
    (upscale_method crop : string) : list CImage :=
  map (resample width height upscale_method crop) samples.

Definition execute (source_np : list BImage) (driving : list CImage)
    (ci : CropInfo) (method : string)
  : M World (list CroppedOut * list FullOut * list MaskOut) :=
  fun w =>
    let '(cfg', r) := pipeline_execute (cfg w) source_np driving ci method in
    (match r with Some out => Ok out | None => Raise ExternalError end,
     {| cfg := cfg';
        trace := trace w
                 ++ [Execute (cfg w) source_np driving ci method] |}).

Definition length_message : string :=
  "The number of driving images should be larger than the number of source images.".

Definition lip_zero_message : string :=
  "Warning: lip_zero only has an effect with lip or eye retargeting".

(** Lines 299-310: eight assignments to the configuration object. *)
Definition write_flags (a : Args) : M World unit :=
  set_cfg "flag_eye_retargeting" (PyBool (eye_retargeting a)) ;;
  set_cfg "eyes_retargeting_multiplier"
          (PyFloat (eyes_retargeting_multiplier a)) ;;
  set_cfg "flag_lip_retargeting" (PyBool (lip_retargeting a)) ;;
  set_cfg "lip_retargeting_multiplier"
          (PyFloat (lip_retargeting_multiplier a)) ;;
  set_cfg "flag_stitching" (PyBool (stitching a)) ;;
  set_cfg "flag_relative" (PyBool (relative a)) ;;
  set_cfg "flag_lip_zero" (PyBool (lip_zero a)) ;;
  set_cfg "lip_zero_threshold" (PyFloat (lip_zero_threshold a)).

(** Lines 312-313. *)
Definition warn_lip_zero (a : Args) : M World unit :=
  when (lip_zero a && (lip_retargeting a || eye_retargeting a))
       (log_warning lip_zero_message).

(** The three numpy steps of lines 316-318 on the first mask frame. *)
Definition mask_to_crop_mask (frame : list (list MaskVal)) : image3 :=
  let crop_mask := map (map times255_uint8) frame in
  np_repeat_axis2 3 (np_atleast_3d crop_mask).

(** Lines 315-322. *)
Definition write_mask_crop (a : Args) : M World unit :=
  match mask a with
  | Some m =>
      frame <- index0 m ;;
      set_cfg "mask_crop" (PyImage (mask_to_crop_mask frame))
  | None =>
      log_info "Using default mask template" ;;
      set_cfg "mask_crop" imread_mask_template
  end.

(** Lines 324-326. *)
Definition prepare_driving (a : Args) : M World (list CImage) :=
  let driving_images_256 :=
    common_upscale (map permute_chw (driving_images a)) 256 256
                   "lanczos" "disabled" in
  half <- read_cfg "flag_use_half_precision" ;;
  half <- lift (truth half) ;;
  ret (if half : bool then map to_float16 driving_images_256
       else driving_images_256).

Definition process (a : Args) : M World (Tensor * Tensor * Tensor) :=
  if (length (driving_images a) <? length (source_image a))%nat
  then raise (ValueError length_message)
  else
    let source_np := map times255_byte (source_image a) in
    write_flags a ;;
    warn_lip_zero a ;;
    write_mask_crop a ;;
    driving_images_256 <- prepare_driving a ;;
    out <- execute source_np driving_images_256 (crop_info a)
                   (mismatch_method a) ;;
    let '(cropped_out_list, full_out_list, out_mask_list) := out in
    ret (cat_float cropped_out_list,
         stack_div255_float full_out_list,
         stack_channel0_float out_mask_list).

(** The configuration fields of one invocation. *)
Definition retargeting_fields : list string :=
  [ "flag_eye_retargeting"; "eyes_retargeting_multiplier";
    "flag_lip_retargeting"; "lip_retargeting_multiplier";
    "flag_stitching"; "flag_relative"; "flag_lip_zero";
    "lip_zero_threshold"; "mask_crop" ].

Definition writes_to (name : string) (e : event) : bool :=
  match e with
  | SetAttr n _ => (n =? name)%string
  | _ => false
  end.

Definition is_write (e : event) : bool :=
  match e with SetAttr _ _ => true | _ => false end.

Definition is_execute (e : event) : bool :=
  match e with Execute _ _ _ _ _ => true | _ => false end.

Definition is_warning (e : event) : bool :=
  match e with LogWarning _ => true | _ => false end.

(** The events an invocation adds to the trace it starts from. *)
Definition events_of (a : Args) (w : World) : list event :=
  drop (length (trace w)) (trace (snd (process a w))).

(** A trace up to its first call of the pipeline, and from that call on. *)
Fixpoint before_execute (tr : list event) : list event :=
  match tr with
  | [] => []
  | e :: tr' => if is_execute e then [] else e :: before_execute tr'
  end.

Fixpoint from_execute (tr : list event) : list event :=
  match tr with
  | [] => []
  | e :: tr' => if is_execute e then e :: tr' else from_execute tr'
  end.

End WithExternals.

End LivePortraitProcess.

(** ** [LivePortraitCropper] *)

Module LivePortraitCropper.

(** The dictionary [cropper_init_config]; two of them are equal when
    both entries are. *)
Record CropperInitConfig : Type := {
  cfg_keep_model_loaded : bool;
  cfg_onnx_device : string
}.

Definition config_eqb (a b : CropperInitConfig) : bool :=
  Bool.eqb (cfg_keep_model_loaded a) (cfg_keep_model_loaded b)
  && (cfg_onnx_device a =? cfg_onnx_device b)%string.

(** A [Cropper] instance: its identity and the keyword arguments it was
    built from.  It is the object that holds the face detector. *)
Record Cropper : Type := {
  cropper_id : nat;
  init_config : CropperInitConfig
}.

Class Externals : Type := {
  (** one frame of an IMAGE tensor *)
  FImage : Type;
  (** one frame as a uint8 array *)
  BImage : Type;
  (** the dictionary returned by [crop_single_image] *)
  CropDict : Type;
  (** a landmark array *)
  Landmarks : Type;
  Tensor : Type;
  (** [(x * 255).byte().numpy()] on one frame *)
  times255_byte : FImage -> BImage;
  (** [cropper.crop_single_image], with its seven arguments in call
      order; [None] stands for a raised exception *)
  crop_single_image :
    Cropper -> BImage -> Z -> Q -> Q -> Q -> Z -> bool -> option CropDict;
  (** [d['img_crop_256x256']] and [d['lmk_crop']] *)
  img_crop_256x256 : CropDict -> BImage;
  lmk_crop : CropDict -> Landmarks;
  (** [torch.stack([torch.from_numpy(a) for a in xs]) / 255] *)
  stack_div255 : list BImage -> Tensor
}.

Section WithExternals.

Context `{ext : Externals}.

Record Args : Type := {
  source_image : list FImage;
  dsize : Z;
  scale : Q;
  vx_ratio : Q;
  vy_ratio : Q;
  face_index : Z;
  rotate : bool;
  keep_model_loaded : bool;
  onnx_device : string;
  opt_driving_images : option (list FImage)
}.

Inductive event : Type :=
| CropperInit (c : Cropper)
| Crop (c : Cropper) (img : BImage) (arg2 : Z) (arg3 arg4 arg5 : Q)
       (arg6 : Z) (arg7 : bool)
| PbarUpdate
| SoftEmptyCache.

(** The attributes of the node instance.  [self_cropper] is [None]
    while the instance has no attribute [cropper], [Some None] when the
    attribute holds Python's [None]. *)
Record Self : Type := {
  self_cropper : option (option Cropper);
  self_current_config : option CropperInitConfig
}.

(** A node as ComfyUI creates it: the class defines no [__init__]. *)
Definition new_node : Self :=
  {| self_cropper := None; self_current_config := None |}.

Record World : Type := {
  self : Self;
  next_id : nat;
  trace : list event
}.

Definition emit (e : event) : M World unit :=
  modify (fun w => {| self := self w; next_id := next_id w;
                      trace := trace w ++ [e] |}).

Definition set_self (f : Self -> Self) : M World unit :=
  modify (fun w => {| self := f (self w); next_id := next_id w;
                      trace := trace w |}).

(** [not hasattr(self, 'cropper') or self.cropper is None or
    self.current_config != cropper_init_config], left to right. *)
Definition needs_init (c : CropperInitConfig) : M World bool :=
  fun w =>
    match self_cropper (self w) with
    | None => (Ok true, w)
    | Some None => (Ok true, w)
    | Some (Some _) =>
        match self_current_config (self w) with
        | None => (Raise (AttributeError "current_config"), w)
        | Some cur => (Ok (negb (config_eqb cur c)), w)
        end
    end.

(** The constructor call of line 397, which unpacks
    [cropper_init_config] into keyword arguments: a new object.  The
    call is taken to return.  What a constructor that raises leaves
    behind, the assignment of line 396 without a new cropper, is not
    part of this model; a call that has reached [crop_single_image] has
    passed this point. *)
Definition construct_cropper (c : CropperInitConfig) : M World Cropper :=
  fun w =>
    let obj := {| cropper_id := next_id w; init_config := c |} in
    (Ok obj, {| self := self w; next_id := S (next_id w);
                trace := trace w ++ [CropperInit obj] |}).

(** Lines 395-397. *)
Definition ensure_cropper (c : CropperInitConfig) : M World unit :=
  b <- needs_init c ;;
  if b : bool then
    set_self (fun s => {| self_cropper := self_cropper s;
                          self_current_config := Some c |}) ;;
    obj <- construct_cropper c ;;
    set_self (fun s => {| self_cropper := Some (Some obj);
                          self_current_config := self_current_config s |})
  else ret tt.

(** [self.cropper.crop_single_image(...)] with seven positional
    arguments. *)
Definition call_crop (img : BImage) (arg2 : Z) (arg3 arg4 arg5 : Q)
    (arg6 : Z) (arg7 : bool) : M World CropDict :=
  fun w =>
    match self_cropper (self w) with
    | Some (Some c) =>
        (match crop_single_image c img arg2 arg3 arg4 arg5 arg6 arg7 with
         | Some d => Ok d
         | None => Raise ExternalError
         end,
         {| self := self w; next_id := next_id w;
            trace := trace w
                     ++ [Crop c img arg2 arg3 arg4 arg5 arg6 arg7] |})
    | _ => (Raise (AttributeError "crop_single_image"), w)
    end.

(** [xs[i]] *)
Definition index {A} (xs : list A) (i : nat) : M World A :=
  match xs !! i with
  | Some x => ret x
  | None => raise IndexError
  end.

(** The three lists the loop appends to. *)
Record Acc : Type := {
  acc_crop_info_list : list CropDict;
  acc_cropped_images_list : list BImage;
  acc_driving_landmark_list : list Landmarks
}.

(** One turn of the loop of lines 407-417. *)
Definition crop_step (a : Args) (source_image_np : list BImage)
    (driving_images_np : option (list BImage)) (acc : Acc) (i : nat)
  : M World Acc :=
  img <- index source_image_np i ;;
  crop_info <- call_crop img (dsize a) (scale a) (vy_ratio a) (vx_ratio a)
                         (face_index a) (rotate a) ;;
  let crop_info_list := acc_crop_info_list acc ++ [crop_info] in
  let cropped_image := img_crop_256x256 crop_info in
  let cropped_images_list :=
    acc_cropped_images_list acc ++ [cropped_image] in
  landmarks <-
    match driving_images_np with
    | Some driving =>
        dimg <- index driving i ;;
        driving_crop_dict <-
          call_crop dimg (dsize a) (scale a) (vy_ratio a) (vx_ratio a)
                    (face_index a) (rotate a) ;;
        ret (acc_driving_landmark_list acc ++ [lmk_crop driving_crop_dict])
    | None => ret (acc_driving_landmark_list acc)
    end ;;
  emit PbarUpdate ;;
  ret {| acc_crop_info_list := crop_info_list;
         acc_cropped_images_list := cropped_images_list;
         acc_driving_landmark_list := landmarks |}.

(** [for i in range(...)], threading the three lists. *)
Fixpoint crop_loop (a : Args) (source_image_np : list BImage)
    (driving_images_np : option (list BImage)) (indices : list nat)
    (acc : Acc) : M World Acc :=
  match indices with
  | [] => ret acc
  | i :: rest =>
      acc' <- crop_step a source_image_np driving_images_np acc i ;;
      crop_loop a source_image_np driving_images_np rest acc'
  end.

(** Lines 419-421. *)
Definition release (a : Args) : M World unit :=
  if negb (keep_model_loaded a) then
    set_self (fun s => {| self_cropper := Some None;
                          self_current_config := self_current_config s |}) ;;
    emit SoftEmptyCache
  else ret tt.

(** The CROPINFO dictionary the node returns. *)
Record CropInfoDict : Type := {
  crop_info_list : list CropDict;
  driving_landmark_list : option (list Landmarks)
}.

(** Lines 399-436: everything after the cropper has been looked up. *)
Definition crop_all (a : Args) : M World (Tensor * CropInfoDict) :=
  let source_image_np := map times255_byte (source_image a) in
  let driving_images_np :=
    option_map (map times255_byte) (opt_driving_images a) in
  acc <- crop_loop a source_image_np driving_images_np
                   (seq 0 (length source_image_np))
                   {| acc_crop_info_list := [];
                      acc_cropped_images_list := [];
                      acc_driving_landmark_list := [] |} ;;
  release a ;;
  let cropped_tensors_out := stack_div255 (acc_cropped_images_list acc) in
  ret (cropped_tensors_out,
       {| crop_info_list := acc_crop_info_list acc;
          driving_landmark_list :=
            match opt_driving_images a with
            | Some _ => Some (acc_driving_landmark_list acc)
            | None => None
            end |}).

Definition process (a : Args) : M World (Tensor * CropInfoDict) :=
  let cropper_init_config :=
    {| cfg_keep_model_loaded := keep_model_loaded a;
       cfg_onnx_device := onnx_device a |} in
  ensure_cropper cropper_init_config ;;
  crop_all a.

(** The events an invocation adds to the trace it starts from. *)
Definition events_of (a : Args) (w : World) : list event :=
  drop (length (trace w)) (trace (snd (process a w))).

Definition inits (tr : list event) : list Cropper :=
  flat_map (fun e => match e with CropperInit c => [c] | _ => [] end) tr.

Definition crops_by (tr : list event) : list Cropper :=
  flat_map (fun e => match e with Crop c _ _ _ _ _ _ _ => [c] | _ => [] end) tr.

(** What the loop may add to the trace when [self.cropper] is [c]:
    progress ticks, and calls of [c] with the arguments of line 408. *)
Definition loop_event (a : Args) (c : Cropper) (e : event) : Prop :=
  match e with
  | Crop c' _ arg2 arg3 arg4 arg5 arg6 arg7 =>
      c' = c /\ arg2 = dsize a /\ arg3 = scale a /\ arg4 = vy_ratio a
      /\ arg5 = vx_ratio a /\ arg6 = face_index a /\ arg7 = rotate a
  | PbarUpdate => True
  | _ => False
  end.

(** The dictionary built on line 390. *)
Definition init_config_of (a : Args) : CropperInitConfig :=
  {| cfg_keep_model_loaded := keep_model_loaded a;
     cfg_onnx_device := onnx_device a |}.

(** Crop calls per source frame. *)
Definition crops_per_frame (a : Args) : nat :=
  match opt_driving_images a with Some _ => 2 | None => 1 end.

Definition is_ok {A} (r : result A) : bool :=
  match r with Ok _ => true | Raise _ => false end.

(** What a piece of the invocation does when [self.cropper] is [c]: the
    node instance and the allocator are left alone, the trace grows by
    loop events, and a normal return has made [n] crop calls. *)
Definition loop_like {A} (a : Args) (c : Cropper) (n : nat)
    (run : M World A) : Prop :=
  forall w,
    self_cropper (self w) = Some (Some c) ->
    self (snd (run w)) = self w
    /\ next_id (snd (run w)) = next_id w
    /\ exists tr,
        trace (snd (run w)) = trace w ++ tr
        /\ Forall (loop_event a c) tr
        /\ (is_ok (fst (run w)) = true -> length (crops_by tr) = n).

(** Modelled from the spec: the parameter list of the crop operation,
    [Cropper.crop_single_image], which is defined outside [nodes.py].
    The spec gives the contract
    [crop(image, dsize, scale, vx_ratio, vy_ratio, face_index, rotate)]:
    the fourth argument of a call is the contract's [vx_ratio], the fifth
    its [vy_ratio]. *)
Definition contract_vx_ratio (e : event) : option Q :=
  match e with Crop _ _ _ _ arg4 _ _ _ => Some arg4 | _ => None end.

Definition contract_vy_ratio (e : event) : option Q :=
  match e with Crop _ _ _ _ _ arg5 _ _ => Some arg5 | _ => None end.

End WithExternals.

End LivePortraitCropper.

(** ** [KeypointScaler] *)

Module KeypointScaler.

Local Open Scope Q_scope.

(** A landmark array: [N] rows of two coordinates. *)
Abbreviation points := (list (Q * Q)).

(** Objects live in a store and are named by their address, so that two
    names of one dictionary see each other's updates. *)
Abbreviation loc := positive.

(** The kinds of object that [process] can meet, told apart by the
    three operations it uses: a subscript with a string, [copy] and
    [mean].
    - [ODict]: a dictionary, whose entries are addresses;
    - [OArray]: a numpy array of [N] rows and two columns;
    - [OList]: a list or a set, which has [copy] but no [mean] and
      takes no string as subscript;
    - [OOther]: [None], a number, a string or a tuple, which has
      neither method and takes no string as subscript. *)
Inductive obj : Type :=
| ODict (d : gmap string loc)
| OArray (a : points)
| OList
| OOther.

Abbreviation heap := (gmap loc obj).

(** *** numpy arithmetic with broadcasting of a row *)

Definition np_sum_axis0 (a : points) : Q * Q :=
  fold_left (fun s p => (fst s + fst p, snd s + snd p)) a (0, 0).

Definition np_mean_axis0 (a : points) : Q * Q :=
  let s := np_sum_axis0 a in
  let n := inject_Z (Z.of_nat (length a)) in
  (fst s / n, snd s / n).

Definition np_sub_row (a : points) (r : Q * Q) : points :=
  map (fun p => (fst p - fst r, snd p - snd r)) a.

Definition np_mul_scalar (a : points) (s : Q) : points :=
  map (fun p => (fst p * s, snd p * s)) a.

Definition np_add_row (a : points) (r : Q * Q) : points :=
  map (fun p => (fst p + fst r, snd p + snd r)) a.

(** Lines 498-507. *)
Definition scale_keypoints (keypoints : points) (offset_x offset_y : Z)
    (scale : Q) : points :=
  let centroid := np_mean_axis0 keypoints in
  let translated_keypoints := np_sub_row keypoints centroid in
  let scaled_keypoints := np_mul_scalar translated_keypoints scale in
  np_add_row (np_add_row scaled_keypoints centroid)
             (inject_Z offset_x, inject_Z offset_y).

(** *** Drawing *)

(** [int(x)]: truncation towards zero. *)
Definition py_int (x : Q) : Z := Z.quot (Qnum x) (Zpos (Qden x)).

Definition Qlt_bool (x y : Q) : bool := negb (Qle_bool y x).

(** [0 <= x < width and 0 <= y < height] with [width, height = 512, 512]. *)
Definition inside (p : Q * Q) : bool :=
  Qle_bool 0 (fst p) && Qlt_bool (fst p) 512
  && (Qle_bool 0 (snd p) && Qlt_bool (snd p) 512).

Definition circle_centres (final_keypoints : points) : list (Z * Z) :=
  map (fun p => (py_int (fst p), py_int (snd p)))
      (List.filter inside final_keypoints).

Class Externals : Type := {
  Tensor : Type;
  (** a black 512 x 512 image with a [cv2.circle] of radius 2 at every
      centre, converted BGR to RGB, divided by 255, with a leading batch
      axis *)
  render : list (Z * Z) -> Tensor
}.

(** *** The store *)

(** What a subscript with a string raises on an object that is not a
    dictionary: numpy refuses the index with [IndexError], the other
    kinds refuse it with [TypeError]. *)
Definition not_subscriptable (o : option obj) : exn :=
  match o with
  | Some (OArray _) => IndexError
  | _ => TypeError
  end.

(** [o[k]] *)
Definition subscript (l : loc) (k : string) : M heap loc :=
  fun h =>
    match h !! l with
    | Some (ODict d) =>
        match d !! k with
        | Some v => (Ok v, h)
        | None => (Raise (KeyError k), h)
        end
    | o => (Raise (not_subscriptable o), h)
    end.

(** [o.copy()]: dictionaries, arrays, lists and sets have the method.
    The copy is an object of its own that no dictionary refers to; it
    is carried as a value. *)
Definition copy (l : loc) : M heap obj :=
  fun h =>
    match h !! l with
    | Some (ODict d) => (Ok (ODict d), h)
    | Some (OArray a) => (Ok (OArray a), h)
    | Some OList => (Ok OList, h)
    | _ => (Raise (AttributeError "copy"), h)
    end.

(** [keypoints.mean(axis=0)] on line 498 is the first use of the copy:
    only an array has the method, and what follows is arithmetic on
    its rows. *)
Definition rows (keypoints : obj) : M heap points :=
  match keypoints with
  | OArray a => ret a
  | _ => raise (AttributeError "mean")
  end.

(** a new object at an address not in use *)
Definition alloc (o : obj) : M heap loc :=
  fun h => let l := fresh (dom h) in (Ok l, <[l := o]> h).

(** [o[k] = v] *)
Definition store_item (l : loc) (k : string) (v : loc) : M heap unit :=
  fun h =>
    match h !! l with
    | Some (ODict d) => (Ok tt, <[l := ODict (<[k := v]> d)]> h)
    | o => (Raise (not_subscriptable o), h)
    end.

Section WithExternals.

Context `{ext : Externals}.

(** [crop_info] is the address of the CROPINFO dictionary.  The arrays
    between [keypoints] and [final_keypoints] are temporaries; only
    [final_keypoints] is stored. *)
Definition process (crop_info : loc) (offset_x offset_y : Z) (scale : Q)
  : M heap (loc * Tensor) :=
  inner <- subscript crop_info "crop_info" ;;
  lmk <- subscript inner "lmk_crop" ;;
  keypoints <- copy lmk ;;
  keypoints <- rows keypoints ;;
  let final_keypoints := scale_keypoints keypoints offset_x offset_y scale in
  final_ref <- alloc (OArray final_keypoints) ;;
  inner' <- subscript crop_info "crop_info" ;;
  store_item inner' "lmk_crop" final_ref ;;
  ret (crop_info, render (circle_centres final_keypoints)).

End WithExternals.

(** [h[l]['crop_info']['lmk_crop']] read from outside: the address of the
    array and its contents. *)
Definition lmk_ref (h : heap) (l : loc) : option loc :=
  match h !! l with
  | Some (ODict d) =>
      match d !! "crop_info" with
      | Some inner =>
          match h !! inner with
          | Some (ODict d') => d' !! "lmk_crop"
          | _ => None
          end
      | None => None
      end
  | _ => None
  end.

Definition landmarks (h : heap) (l : loc) : option points :=
  match lmk_ref h l with
  | Some a => match h !! a with Some (OArray p) => Some p | _ => None end
  | None => None
  end.

(** [reach h l l']: [l'] can be reached from [l] by following entries
    of dictionaries. *)
Inductive reach (h : heap) : loc -> loc -> Prop :=
| reach_here (l : loc) : reach h l l
| reach_entry (l : loc) (d : gmap string loc) (k : string) (l1 l2 : loc) :
    h !! l = Some (ODict d) -> d !! k = Some l1 -> reach h l1 l2 ->
    reach h l l2.

(** Two rows agree as rationals. *)
Definition row_eq (p q : Q * Q) : Prop :=
  fst p == fst q /\ snd p == snd q.

(** The arithmetic mean of a list of rationals, in the words of the
    specification of the centroid: the sum divided by the count. *)
Definition arithmetic_mean (xs : list Q) : Q :=
  fold_right Qplus 0 xs / inject_Z (Z.of_nat (length xs)).

(** A CROPINFO dictionary as [process] expects it: it has an entry
    ["crop_info"] that is a dictionary with an entry ["lmk_crop"] that is
    an array. *)
Record well_formed (h : heap) (crop_info : loc) (inner lmk : loc)
    (dinner : gmap string loc) (keypoints : points) : Prop := {
  wf_outer : exists d, h !! crop_info = Some (ODict d)
                       /\ d !! "crop_info" = Some inner;
  wf_inner : h !! inner = Some (ODict dinner);
  wf_entry : dinner !! "lmk_crop" = Some lmk;
  wf_array : h !! lmk = Some (OArray keypoints)
}.

End KeypointScaler.

(** ** The per-frame loop of [pipeline.execute]

    [LivePortraitPipeline.execute] is defined in the [liveportrait]
    package, which is not under [src/]: [nodes.py] only calls it, on
    lines 331-336.  What it does with the configuration object is taken
    from the specification. *)

Module PipelineExecute.

Import LivePortraitProcess.

Section Loop.

Context `{ext : Externals}.

(** Modelled from the spec: the collaborators of the Pipeline
    Orchestrator, [LivePortraitPipeline.execute], whose code is missing.
    Section 4.3 gives the Sequence Aligner,
    [align(source_count, driving_count, method) -> index_map], the
    driving index of every output step, which fails with [LengthError];
    sections 4.2 and 4.4 give the Motion Composer and the Compositor,
    each invoked once per step, the composer with the RetargetingConfig
    as an argument.  What they compute is left open: a step is a
    function of the configuration it is given, the number of the step,
    the source frames, the driving frame of the step and the crop
    information, and [None] stands for a step that fails. *)
Record Steps : Type := {
  align : nat -> nat -> string -> option (list nat);
  compose_and_composite :
    pyobj -> nat -> list BImage -> CImage -> CropInfo ->
    option (CroppedOut * FullOut * MaskOut)
}.

(** Modelled from the spec: the errors of section 7 in which the missing
    [execute] can end.  [StepError] stands for the errors of a single
    step ([ShapeError], [NoFaceDetected], a driving index without a
    frame). *)
Inductive failure : Type :=
| LengthError
| ConfigError
| StepError.

(** Modelled from the spec: the flags of the RetargetingConfig of
    section 3, the ones that section 4.2 says must not be toggled
    mid-batch. *)
Definition retargeting_flags : list string :=
  [ "flag_relative"; "flag_stitching"; "flag_lip_zero";
    "flag_eye_retargeting"; "flag_lip_retargeting" ].

(** Modelled from the spec: the value of one flag, and the flags of a
    configuration in the order above. *)
Definition flag_value (cfg : pyobj) (name : string) : option bool :=
  match cfg !! name with
  | Some (PyBool b) => Some b
  | _ => None
  end.

Definition flags (cfg : pyobj) : list (option bool) :=
  map (flag_value cfg) retargeting_flags.

(** Modelled from the spec: the configuration object that the missing
    loop shares with [process], and the configurations that the steps
    so far have read from it. *)
Record Shared : Type := {
  object : pyobj;
  reads : list pyobj
}.

(** Modelled from the spec: a step reads the shared configuration
    (sections 3 and 5: read-only during the loop). *)
Definition read_config (s : Shared) : pyobj * Shared :=
  (object s, {| object := object s; reads := reads s ++ [object s] |}).

(** The three lists of section 4.5. *)
Definition outputs : Type :=
  (list CroppedOut * list FullOut * list MaskOut)%type.

(** Modelled from the spec: the per-frame loop of the missing [execute].
    Section 4.5: one triple per output step, in step order.  Sections 3
    and 5: the RetargetingConfig is set once before the loop and is
    shared read-only across all per-frame work, so a step reads the
    configuration object and nothing in the loop assigns to it.
    Section 4.2: the composer fails with [ConfigError] if the flags are
    toggled mid-batch, that is, if the flags a step reads are not the
    ones the batch started with ([batch_flags]). *)
Fixpoint per_frame_loop (st : Steps) (batch_flags : list (option bool))
    (source : list BImage) (driving : list CImage) (ci : CropInfo)
    (t : nat) (index_map : list nat) (s : Shared)
  : (failure + outputs) * Shared :=
  match index_map with
  | [] => (inr ([], [], []), s)
  | i :: rest =>
      let '(retarget_cfg, s1) := read_config s in
      if bool_decide (flags retarget_cfg = batch_flags) then
        match driving !! i with
        | None => (inl StepError, s1)
        | Some d =>
            match compose_and_composite st retarget_cfg t source d ci with
            | None => (inl StepError, s1)
            | Some (cropped, full, mask) =>
                match per_frame_loop st batch_flags source driving ci
                                     (S t) rest s1 with
                | (inr (cs, fs, ms), s2) =>
                    (inr (cropped :: cs, full :: fs, mask :: ms), s2)
                | (inl e, s2) => (inl e, s2)
                end
            end
        end
      else (inl ConfigError, s1)
  end.

(** Modelled from the spec: the missing [execute], section 4.5, on the
    configuration object [cfg] that [process] has prepared. *)
Definition run_execute (st : Steps) (cfg : pyobj) (source : list BImage)
    (driving : list CImage) (ci : CropInfo) (method : string)
  : (failure + outputs) * Shared :=
  let s := {| object := cfg; reads := [] |} in
  match align st (length source) (length driving) method with
  | None => (inl LengthError, s)
  | Some index_map =>
      per_frame_loop st (flags cfg) source driving ci 0 index_map s
  end.

(** Modelled from the spec: the missing [execute] as [nodes.py] sees
    it, the configuration object afterwards and the three lists unless
    an error was raised. *)
Definition spec_pipeline_execute (st : Steps) (cfg : pyobj)
    (source : list BImage) (driving : list CImage) (ci : CropInfo)
    (method : string) : pyobj * option outputs :=
  let '(r, s) := run_execute st cfg source driving ci method in
  (object s, match r with inr out => Some out | inl _ => None end).

(** The external operations of [ext] with the pipeline of the
    specification in the place of [pipeline_execute]. *)
Definition with_spec_pipeline (st : Steps) : Externals :=
  {| FImage := FImage;
     BImage := BImage;
     CImage := CImage;
     MaskVal := MaskVal;
     CropInfo := CropInfo;
     CroppedOut := CroppedOut;
     FullOut := FullOut;
     MaskOut := MaskOut;
     Tensor := Tensor;
     times255_byte := times255_byte;
     times255_uint8 := times255_uint8;
     permute_chw := permute_chw;
     resample := resample;
     to_float16 := to_float16;
     imread_mask_template := imread_mask_template;
     pipeline_execute := spec_pipeline_execute st;
     cat_float := cat_float;
     stack_div255_float := stack_div255_float;
     stack_channel0_float := stack_channel0_float |}.

End Loop.

End PipelineExecute.

(** ** Concrete hosts and inputs

    Small instances of the external interfaces, on which the functions
    above can be run. *)

Module Demo.

(** A CUDA host on which ComfyUI recommends fp16. *)
Definition host : DownloadAndLoadLivePortraitModels.Host :=
  {| DownloadAndLoadLivePortraitModels.Networks := unit;
     DownloadAndLoadLivePortraitModels.get_torch_device := "cuda:0";
     DownloadAndLoadLivePortraitModels.is_device_mps := fun _ => Some false;
     DownloadAndLoadLivePortraitModels.should_use_fp16 := Some true;
     DownloadAndLoadLivePortraitModels.load_networks := fun _ => Some tt |}.

(** Frames are numbered; a channel-first frame also records its
    resolution and whether it is in half precision. *)
Definition process_ext : LivePortraitProcess.Externals :=
  {| LivePortraitProcess.FImage := nat;
     LivePortraitProcess.BImage := nat;
     LivePortraitProcess.CImage := nat * (Z * Z) * bool;
     LivePortraitProcess.MaskVal := bool;
     LivePortraitProcess.CropInfo := unit;
     LivePortraitProcess.CroppedOut := nat;
     LivePortraitProcess.FullOut := nat;
     LivePortraitProcess.MaskOut := nat;
     LivePortraitProcess.Tensor := list nat;
     LivePortraitProcess.times255_byte := fun x => x;
     LivePortraitProcess.times255_uint8 :=
       fun b : bool => if b then Byte.xff else Byte.x00;
     LivePortraitProcess.permute_chw := fun x => (x, (0, 0)%Z, false);
     LivePortraitProcess.resample :=
       fun w h _ _ x => (fst (fst x), (w, h), snd x);
     LivePortraitProcess.to_float16 := fun x => (fst x, true);
     LivePortraitProcess.imread_mask_template :=
       PyImage [[[Byte.xff; Byte.xff; Byte.xff]]];
     LivePortraitProcess.pipeline_execute :=
       fun cfg _ driving _ _ =>
         (cfg, Some (map (fun x => fst (fst x)) driving,
                     map (fun x => fst (fst x)) driving,
                     map (fun x => fst (fst x)) driving));
     LivePortraitProcess.cat_float := fun xs => xs;
     LivePortraitProcess.stack_div255_float := fun xs => xs;
     LivePortraitProcess.stack_channel0_float := fun xs => xs |}.

#[local] Existing Instance process_ext.

(** A pipeline as [loadmodel "fp16"] leaves it, before any event. *)
Definition fresh_world : LivePortraitProcess.World :=
  {| LivePortraitProcess.cfg :=
       InferenceConfig PyNone true true (3 # 100) false false true true
                              (256, 256)%Z true (PyDevice "cuda:0") true true;
     LivePortraitProcess.trace := [] |}.

(** One source frame, three driving frames, the node's defaults. *)
Definition default_args : LivePortraitProcess.Args :=
  {| LivePortraitProcess.source_image := [0%nat];
     LivePortraitProcess.driving_images := [10%nat; 11%nat; 12%nat];
     LivePortraitProcess.crop_info := tt;
     LivePortraitProcess.lip_zero := true;
     LivePortraitProcess.lip_zero_threshold := 3 # 100;
     LivePortraitProcess.eye_retargeting := false;
     LivePortraitProcess.lip_retargeting := false;
     LivePortraitProcess.stitching := true;
     LivePortraitProcess.relative := true;
     LivePortraitProcess.eyes_retargeting_multiplier := 1;
     LivePortraitProcess.lip_retargeting_multiplier := 1;
     LivePortraitProcess.mismatch_method := "constant";
     LivePortraitProcess.mask := None |}.

(** The spec's error scenario: five source frames, two driving frames. *)
Definition short_driving_args : LivePortraitProcess.Args :=
  {| LivePortraitProcess.source_image := [0%nat; 1%nat; 2%nat; 3%nat; 4%nat];
     LivePortraitProcess.driving_images := [10%nat; 11%nat];
     LivePortraitProcess.crop_info := tt;
     LivePortraitProcess.lip_zero := true;
     LivePortraitProcess.lip_zero_threshold := 3 # 100;
     LivePortraitProcess.eye_retargeting := false;
     LivePortraitProcess.lip_retargeting := false;
     LivePortraitProcess.stitching := true;
     LivePortraitProcess.relative := true;
     LivePortraitProcess.eyes_retargeting_multiplier := 1;
     LivePortraitProcess.lip_retargeting_multiplier := 1;
     LivePortraitProcess.mismatch_method := "constant";
     LivePortraitProcess.mask := None |}.

(** The defaults with lip retargeting switched on. *)
Definition lip_retargeting_args : LivePortraitProcess.Args :=
  {| LivePortraitProcess.source_image := [0%nat];
     LivePortraitProcess.driving_images := [10%nat; 11%nat; 12%nat];
     LivePortraitProcess.crop_info := tt;
     LivePortraitProcess.lip_zero := true;
     LivePortraitProcess.lip_zero_threshold := 3 # 100;
     LivePortraitProcess.eye_retargeting := false;
     LivePortraitProcess.lip_retargeting := true;
     LivePortraitProcess.stitching := true;
     LivePortraitProcess.relative := true;
     LivePortraitProcess.eyes_retargeting_multiplier := 1;
     LivePortraitProcess.lip_retargeting_multiplier := 1;
     LivePortraitProcess.mismatch_method := "constant";
     LivePortraitProcess.mask := None |}.

(** The defaults with a mask of one frame, one row and two columns. *)
Definition masked_args : LivePortraitProcess.Args :=
  {| LivePortraitProcess.source_image := [0%nat];
     LivePortraitProcess.driving_images := [10%nat; 11%nat; 12%nat];
     LivePortraitProcess.crop_info := tt;
     LivePortraitProcess.lip_zero := true;
     LivePortraitProcess.lip_zero_threshold := 3 # 100;
     LivePortraitProcess.eye_retargeting := false;
     LivePortraitProcess.lip_retargeting := false;
     LivePortraitProcess.stitching := true;
     LivePortraitProcess.relative := true;
     LivePortraitProcess.eyes_retargeting_multiplier := 1;
     LivePortraitProcess.lip_retargeting_multiplier := 1;
     LivePortraitProcess.mismatch_method := "constant";
     LivePortraitProcess.mask := Some [[[true; false]]] |}.

(** A cropper whose result records the frame and the fourth and fifth
    argument it was called with. *)
Definition crop_ext : LivePortraitCropper.Externals :=
  {| LivePortraitCropper.FImage := nat;
     LivePortraitCropper.BImage := nat;
     LivePortraitCropper.CropDict := nat * (Q * Q);
     LivePortraitCropper.Landmarks := nat;
     LivePortraitCropper.Tensor := list nat;
     LivePortraitCropper.times255_byte := fun x => x;
     LivePortraitCropper.crop_single_image :=
       fun _ img _ _ arg4 arg5 _ _ => Some (img, (arg4, arg5));
     LivePortraitCropper.img_crop_256x256 := fst;
     LivePortraitCropper.lmk_crop := fst;
     LivePortraitCropper.stack_div255 := fun xs => xs |}.

#[local] Existing Instance crop_ext.

(** A node on which [process] has not been called yet. *)
Definition new_world : LivePortraitCropper.World :=
  {| LivePortraitCropper.self := LivePortraitCropper.new_node;
     LivePortraitCropper.next_id := 0;
     LivePortraitCropper.trace := [] |}.

(** Two source frames and the node's defaults. *)
Definition crop_args : LivePortraitCropper.Args :=
  {| LivePortraitCropper.source_image := [0%nat; 1%nat];
     LivePortraitCropper.dsize := 512;
     LivePortraitCropper.scale := 23 # 10;
     LivePortraitCropper.vx_ratio := 0;
     LivePortraitCropper.vy_ratio := - (1 # 8);
     LivePortraitCropper.face_index := 0;
     LivePortraitCropper.rotate := true;
     LivePortraitCropper.keep_model_loaded := true;
     LivePortraitCropper.onnx_device := "CPU";
     LivePortraitCropper.opt_driving_images := None |}.

(** The same on another device. *)
Definition crop_args_cuda : LivePortraitCropper.Args :=
  {| LivePortraitCropper.source_image := [0%nat; 1%nat];
     LivePortraitCropper.dsize := 512;
     LivePortraitCropper.scale := 23 # 10;
     LivePortraitCropper.vx_ratio := 0;
     LivePortraitCropper.vy_ratio := - (1 # 8);
     LivePortraitCropper.face_index := 0;
     LivePortraitCropper.rotate := true;
     LivePortraitCropper.keep_model_loaded := true;
     LivePortraitCropper.onnx_device := "CUDA";
     LivePortraitCropper.opt_driving_images := None |}.

(** With driving frames, and without keeping the model loaded. *)
Definition crop_args_release : LivePortraitCropper.Args :=
  {| LivePortraitCropper.source_image := [0%nat; 1%nat];
     LivePortraitCropper.dsize := 512;
     LivePortraitCropper.scale := 23 # 10;
     LivePortraitCropper.vx_ratio := 0;
     LivePortraitCropper.vy_ratio := - (1 # 8);
     LivePortraitCropper.face_index := 0;
     LivePortraitCropper.rotate := true;
     LivePortraitCropper.keep_model_loaded := false;
     LivePortraitCropper.onnx_device := "CPU";
     LivePortraitCropper.opt_driving_images := Some [10%nat; 11%nat] |}.

(** A renderer that returns the centres it is given. *)
Definition scaler_ext : KeypointScaler.Externals :=
  {| KeypointScaler.Tensor := list (Z * Z);
     KeypointScaler.render := fun centres => centres |}.

(** A store with one CROPINFO dictionary at address 1, its inner
    dictionary at 2, and the four corners of a square as landmarks at 3. *)
Definition square : KeypointScaler.points :=
  [(0, 0); (2, 0); (2, 2); (0, 2)]%Q.

Definition store : gmap positive KeypointScaler.obj :=
  <[1%positive := KeypointScaler.ODict {[ "crop_info" := 2%positive ]}]>
  (<[2%positive := KeypointScaler.ODict {[ "lmk_crop" := 3%positive ]}]>
  (<[3%positive := KeypointScaler.OArray square]> ∅)).

End Demo.

(** ** [filter_checkpoint_for_model]

    The helper that [loadmodel] defines on lines 177-185 and calls with
    the prefixes ["retarget_shoulder"], ["retarget_mouth"] and
    ["retarget_eye"]. *)

Module Checkpoint.

(** [s.replace("", new)]: [new] before every character and at the
    end. *)
Fixpoint intersperse (new s : string) : string :=
  match s with
  | EmptyString => new
  | String c s' => (new ++ String c (intersperse new s'))%string
  end.

(** [s.replace(old, new)] for a non-empty [old], scanning from the left:
    [skip] characters of a match are still to be dropped. *)
Fixpoint replace_from (old new : string) (skip : nat) (s : string) : string :=
  match s with
  | EmptyString => EmptyString
  | String c s' =>
      match skip with
      | S k => replace_from old new k s'
      | O =>
          if String.prefix old s
          then (new ++ replace_from old new (String.length old - 1) s')%string
          else String c (replace_from old new 0 s')
      end
  end.

(** [s.replace(old, new)] *)
Definition str_replace (old new s : string) : string :=
  match old with
  | EmptyString => intersperse new s
  | _ => replace_from old new 0 s
  end.

(** The three prefixes of lines 190, 197 and 204. *)
Definition stitcher_prefix : string := "retarget_shoulder".
Definition lip_prefix : string := "retarget_mouth".
Definition eye_prefix : string := "retarget_eye".

Section Filter.

(** The values of a checkpoint are tensors; they are only moved. *)
Context {V : Type}.

(** [key.replace(prefix + "_module.", "")] *)
Definition adjust_key (prefix key : string) : string :=
  str_replace (prefix ++ "_module.")%string "" key.

(** The dictionary comprehension: [checkpoint.items()] in order, the
    items whose key starts with [prefix], each stored under its adjusted
    key; a later item replaces an earlier one with the same adjusted
    key. *)
Definition filter_checkpoint_for_model (checkpoint : list (string * V))
    (prefix : string) : gmap string V :=
  fold_left
    (fun filtered_checkpoint item =>
       if String.prefix prefix (fst item)
       then <[adjust_key prefix (fst item) := snd item]> filtered_checkpoint
       else filtered_checkpoint)
    checkpoint ∅.

End Filter.

(** [pat] occurs nowhere in [s]. *)
Fixpoint free_of (pat s : string) : bool :=
  negb (String.prefix pat s)
  && match s with
     | EmptyString => true
     | String _ s' => free_of pat s'
     end.

End Checkpoint.

(** ** [KeypointsToImage] *)

Module KeypointsToImage.

Local Open Scope Q_scope.

(** One entry of ['crop_info_list'], as far as [drawkeypoints] reads
    it: the two keys it subscripts, [None] when the key is missing.
    The values are taken to be of the kinds the cropper stores, a pair
    of integers and a landmark array. *)
Record crop : Type := {
  input_image_size : option (Z * Z);
  lmk_crop : option KeypointScaler.points
}.

(** The CROPINFO dictionary: its number of entries, and the list under
    ['crop_info_list'] when there is one. *)
Record cropinfo : Type := {
  len : nat;
  crop_info_list : option (list crop)
}.

Class Externals : Type := {
  Image : Type;
  Tensor : Type;
  (** a black image of the given height and width with a [cv2.circle]
      of radius 2 at every centre, converted BGR to RGB *)
  render : Z -> Z -> list (Z * Z) -> Image;
  (** [(torch.stack([torch.from_numpy(a) for a in xs]) / 255).float()] *)
  stack_div255_float : list Image -> Tensor
}.

(** The progress bar of ComfyUI. *)
Inductive event : Type :=
| PbarInit (total : nat)
| PbarUpdate.

Definition emit (e : event) : M (list event) unit :=
  modify (fun tr => tr ++ [e]).

(** [d[key]] on a dictionary entry that may be missing *)
Definition subscript {A} (key : string) (entry : option A)
  : M (list event) A :=
  match entry with
  | Some x => ret x
  | None => raise (KeyError key)
  end.

(** [0 <= x < width and 0 <= y < height] *)
Definition inside (width height : Z) (p : Q * Q) : bool :=
  Qle_bool 0 (fst p) && KeypointScaler.Qlt_bool (fst p) (inject_Z width)
  && (Qle_bool 0 (snd p) && KeypointScaler.Qlt_bool (snd p) (inject_Z height)).

Definition circle_centres (width height : Z)
    (keypoints : KeypointScaler.points) : list (Z * Z) :=
  map (fun p => (KeypointScaler.py_int (fst p), KeypointScaler.py_int (snd p)))
      (List.filter (inside width height) keypoints).

Section WithExternals.

Context `{ext : Externals}.

(** One turn of the loop of lines 456-467.  [np.zeros] refuses a
    negative dimension and [cv2.cvtColor] an empty image. *)
Definition draw_one (height width : Z) (c : crop) : M (list event) Image :=
  keypoints <- subscript "lmk_crop" (lmk_crop c) ;;
  if ((height <? 0) || (width <? 0))%Z
  then raise (ValueError "negative dimensions are not allowed")
  else if ((height =? 0) || (width =? 0))%Z
  then raise ExternalError
  else
    let keypoints_image :=
      render height width (circle_centres width height keypoints) in
    emit PbarUpdate ;;
    ret keypoints_image.

Fixpoint draw_all (height width : Z) (crops : list crop)
    (keypoints_img_list : list Image) : M (list event) (list Image) :=
  match crops with
  | [] => ret keypoints_img_list
  | c :: rest =>
      keypoints_image <- draw_one height width c ;;
      draw_all height width rest (keypoints_img_list ++ [keypoints_image])
  end.

Definition drawkeypoints (crop_info : cropinfo) : M (list event) Tensor :=
  lst <- subscript "crop_info_list" (crop_info_list crop_info) ;;
  first <- match lst with
           | c :: _ => ret c
           | [] => raise IndexError
           end ;;
  size <- subscript "input_image_size" (input_image_size first) ;;
  let '(height, width) := size in
  emit (PbarInit (len crop_info)) ;;
  keypoints_img_list <- draw_all height width lst [] ;;
  ret (stack_div255_float keypoints_img_list).

End WithExternals.

End KeypointsToImage.

(** ** What [LivePortraitProcess.process] leaves in the configuration *)

Module ProcessConfig.

Section WithExternals.

Import LivePortraitProcess.
Context `{ext : Externals}.

(** The configuration after the eight assignments of lines 299-310. *)
Definition with_flags (a : Args) (o : pyobj) : pyobj :=
  setattr "lip_zero_threshold" (PyFloat (lip_zero_threshold a))
  (setattr "flag_lip_zero" (PyBool (lip_zero a))
  (setattr "flag_relative" (PyBool (relative a))
  (setattr "flag_stitching" (PyBool (stitching a))
  (setattr "lip_retargeting_multiplier"
           (PyFloat (lip_retargeting_multiplier a))
  (setattr "flag_lip_retargeting" (PyBool (lip_retargeting a))
  (setattr "eyes_retargeting_multiplier"
           (PyFloat (eyes_retargeting_multiplier a))
  (setattr "flag_eye_retargeting" (PyBool (eye_retargeting a)) o))))))).

(** The value that lines 315-322 assign to [mask_crop]; there is none
    when the mask tensor has no first frame. *)
Definition mask_crop_value (a : Args) : option pyval :=
  match mask a with
  | Some (frame :: _) => Some (PyImage (mask_to_crop_mask frame))
  | Some [] => None
  | None => Some imread_mask_template
  end.

(** The driving frames of lines 324-326. *)
Definition driving_256 (a : Args) (half : bool) : list CImage :=
  map (fun x =>
         let x256 := resample 256 256 "lanczos" "disabled" (permute_chw x) in
         if half then to_float16 x256 else x256)
      (driving_images a).

(** The three tensors of lines 338-355. *)
Definition assemble
    (out : list CroppedOut * list FullOut * list MaskOut)
  : Tensor * Tensor * Tensor :=
  let '(cropped_out_list, full_out_list, out_mask_list) := out in
  (cat_float cropped_out_list,
   stack_div255_float full_out_list,
   stack_channel0_float out_mask_list).

End WithExternals.

End ProcessConfig.

(** ** What [LivePortraitCropper.process] keeps and returns *)

Module CropperState.

Import LivePortraitCropper.

(** The configuration that the node remembers is the one its cropper
    was built from. *)
Definition consistent (s : Self) : Prop :=
  match self_cropper s with
  | Some (Some c) => self_current_config s = Some (init_config c)
  | _ => True
  end.

Section WithExternals.

Context `{ext : Externals}.

(** [d] is what the cropper [c] returns for [img] with the arguments of
    lines 408 and 414. *)
Definition crop_of (a : Args) (c : Cropper) (img : BImage) (d : CropDict)
  : Prop :=
  crop_single_image c img (dsize a) (scale a) (vy_ratio a) (vx_ratio a)
                    (face_index a) (rotate a) = Some d.

(** Index [i] of the source batch has been cropped to [d]. *)
Definition source_crop (a : Args) (c : Cropper) (src : list BImage)
    (i : nat) (d : CropDict) : Prop :=
  exists img, src !! i = Some img /\ crop_of a c img d.

(** Index [i] of the driving batch has given the landmarks [l]. *)
Definition driving_landmarks (a : Args) (c : Cropper) (drv : list BImage)
    (i : nat) (l : Landmarks) : Prop :=
  exists img d, drv !! i = Some img /\ crop_of a c img d /\ l = lmk_crop d.

End WithExternals.

End CropperState.

(** ** A concrete pipeline of the specification *)

Module DemoPipeline.

(** A step that returns the number of its driving frame three times. *)
Definition step (retarget_cfg : pyobj) (t : nat) (source : list nat)
    (d : nat * (Z * Z) * bool) (ci : unit) : option (nat * nat * nat) :=
  Some (fst (fst d), fst (fst d), fst (fst d)).

(** An aligner with one output step per driving frame. *)
Definition align (source_count driving_count : nat) (method : string)
  : option (list nat) :=
  if (driving_count <? source_count)%nat then None
  else Some (seq 0 driving_count).

Definition steps : PipelineExecute.Steps (ext := Demo.process_ext) :=
  @PipelineExecute.Build_Steps Demo.process_ext align step.

Definition ext : LivePortraitProcess.Externals :=
  PipelineExecute.with_spec_pipeline steps.

#[local] Existing Instance ext.

(** The world and the default arguments of [Demo], for this pipeline. *)
Definition fresh_world : LivePortraitProcess.World (ext := ext) :=
  {| LivePortraitProcess.cfg :=
       InferenceConfig PyNone true true (3 # 100) false false true true
                              (256, 256)%Z true (PyDevice "cuda:0") true true;
     LivePortraitProcess.trace := [] |}.

Definition default_args : LivePortraitProcess.Args (ext := ext) :=
  {| LivePortraitProcess.source_image := [0%nat];
     LivePortraitProcess.driving_images := [10%nat; 11%nat; 12%nat];
     LivePortraitProcess.crop_info := tt;
     LivePortraitProcess.lip_zero := true;
     LivePortraitProcess.lip_zero_threshold := 3 # 100;
     LivePortraitProcess.eye_retargeting := false;
     LivePortraitProcess.lip_retargeting := false;
     LivePortraitProcess.stitching := true;
     LivePortraitProcess.relative := true;
     LivePortraitProcess.eyes_retargeting_multiplier := 1;
     LivePortraitProcess.lip_retargeting_multiplier := 1;
     LivePortraitProcess.mismatch_method := "constant";
     LivePortraitProcess.mask := None |}.

End DemoPipeline.

(** ** More concrete inputs *)

Module DemoExtra.

(** A combined checkpoint in which two keys of the eye network are
    renamed to the same key: the pattern is removed wherever it
    occurs. *)
Definition checkpoint : list (string * nat) :=
  [("retarget_shoulder_module.mlp.0.weight", 1%nat);
   ("retarget_mouth_module.mlp.0.weight", 2%nat);
   ("retarget_eye_module.retarget_eye_module.w", 3%nat);
   ("retarget_eye_module.w", 4%nat);
   ("retarget_shoulder_module.mlp.0.bias", 5%nat)].

(** A host on which [is_device_mps] raises. *)
Definition host_without_mps : DownloadAndLoadLivePortraitModels.Host :=
  {| DownloadAndLoadLivePortraitModels.Networks := unit;
     DownloadAndLoadLivePortraitModels.get_torch_device := "cpu";
     DownloadAndLoadLivePortraitModels.is_device_mps := fun _ => None;
     DownloadAndLoadLivePortraitModels.should_use_fp16 := Some false;
     DownloadAndLoadLivePortraitModels.load_networks := fun _ => Some tt |}.

#[local] Existing Instance Demo.process_ext.

(** The defaults of [Demo] with a mask tensor that has no frame. *)
Definition empty_mask_args : LivePortraitProcess.Args :=
  {| LivePortraitProcess.source_image := [0%nat];
     LivePortraitProcess.driving_images := [10%nat; 11%nat; 12%nat];
     LivePortraitProcess.crop_info := tt;
     LivePortraitProcess.lip_zero := true;
     LivePortraitProcess.lip_zero_threshold := 3 # 100;
     LivePortraitProcess.eye_retargeting := false;
     LivePortraitProcess.lip_retargeting := false;
     LivePortraitProcess.stitching := true;
     LivePortraitProcess.relative := true;
     LivePortraitProcess.eyes_retargeting_multiplier := 1;
     LivePortraitProcess.lip_retargeting_multiplier := 1;
     LivePortraitProcess.mismatch_method := "constant";
     LivePortraitProcess.mask := Some [] |}.

#[local] Existing Instance Demo.crop_ext.

(** Three source frames and one driving frame. *)
Definition crop_args_short : LivePortraitCropper.Args :=
  {| LivePortraitCropper.source_image := [0%nat; 1%nat; 2%nat];
     LivePortraitCropper.dsize := 512;
     LivePortraitCropper.scale := 23 # 10;
     LivePortraitCropper.vx_ratio := 0;
     LivePortraitCropper.vy_ratio := - (1 # 8);
     LivePortraitCropper.face_index := 0;
     LivePortraitCropper.rotate := true;
     LivePortraitCropper.keep_model_loaded := false;
     LivePortraitCropper.onnx_device := "CPU";
     LivePortraitCropper.opt_driving_images := Some [10%nat] |}.

(** A renderer that returns the centres it is given, and a stack that
    returns the list of frames. *)
Definition draw_ext : KeypointsToImage.Externals :=
  {| KeypointsToImage.Image := list (Z * Z);
     KeypointsToImage.Tensor := list (list (Z * Z));
     KeypointsToImage.render := fun _ _ centres => centres;
     KeypointsToImage.stack_div255_float := fun frames => frames |}.

(** Two crops of a dictionary with two entries; the first one records a
    frame of height 2 and width 3, on which two corners of the square of
    [Demo] lie. *)
Definition two_crops : KeypointsToImage.cropinfo :=
  {| KeypointsToImage.len := 2;
     KeypointsToImage.crop_info_list :=
       Some [ {| KeypointsToImage.input_image_size := Some (2, 3)%Z;
                 KeypointsToImage.lmk_crop := Some Demo.square |};
              {| KeypointsToImage.input_image_size := Some (512, 512)%Z;
                 KeypointsToImage.lmk_crop := Some [(1 # 2, 3 # 2)%Q] |} ] |}.

(** The same with a second crop that has no landmarks. *)
Definition crop_without_landmarks : KeypointsToImage.cropinfo :=
  {| KeypointsToImage.len := 2;
     KeypointsToImage.crop_info_list :=
       Some [ {| KeypointsToImage.input_image_size := Some (2, 3)%Z;
                 KeypointsToImage.lmk_crop := Some Demo.square |};
              {| KeypointsToImage.input_image_size := Some (512, 512)%Z;
                 KeypointsToImage.lmk_crop := None |} ] |}.

End DemoExtra.

(** * Properties *)

(** ** The loader *)

Section LoaderFacts.

Import DownloadAndLoadLivePortraitModels.
Context `{host : Host}.

Lemma InferenceConfig_half_precision m h lz t e l s r sh pb d dc dr :
  InferenceConfig m h lz t e l s r sh pb d dc dr !! "flag_use_half_precision"
  = Some (PyBool h).
Proof. unfold InferenceConfig, setattr. by simplify_map_eq. Qed.

Lemma string_eqb_decide (a b : string) :
  (if (a =? b)%string then true else false) = true <-> a = b.
Proof. destruct (String.eqb_spec a b); split; congruence. Qed.

(** Whatever [loadmodel] returns carries the flag computed from the
    option string alone. *)
Lemma loadmodel_cfg precision out p out' :
  loadmodel precision out = (Ok p, out') ->
  cfg p !! "flag_use_half_precision"
  = Some (PyBool (if (precision =? "fp16")%string then true else false)).
Proof.
  unfold loadmodel, bind. intros H.
  destruct (resolve_dtype precision get_torch_device out) as [[dtype|e] o1];
    [|discriminate].
  destruct (load_networks get_torch_device) as [n|]; cbn in H; [|discriminate].
  injection H as <- _. cbn [cfg]. apply InferenceConfig_half_precision.
Qed.

(** [loadmodel] returns as soon as the host's calls do. *)
Lemma loadmodel_returns precision out dtype out' nets :
  resolve_dtype precision get_torch_device out = (Ok dtype, out') ->
  load_networks get_torch_device = Some nets ->
  exists p, loadmodel precision out = (Ok p, out').
Proof.
  intros Hd Hn. unfold loadmodel, bind. rewrite Hd, Hn. cbn. eauto.
Qed.

(** C8: the pipeline that [loadmodel] returns has
    [flag_use_half_precision] true exactly when the precision option is
    the string "fp16"; with "auto" on a host where autodetection picks
    fp16, [loadmodel] returns a pipeline whose flag is false. *)
Theorem loadmodel_half_precision_iff :
  (forall precision out p out',
      loadmodel precision out = (Ok p, out') ->
      exists b, cfg p !! "flag_use_half_precision" = Some (PyBool b)
                /\ (b = true <-> precision = "fp16"))
  /\ (forall out nets,
         is_device_mps get_torch_device = Some false ->
         should_use_fp16 = Some true ->
         load_networks get_torch_device = Some nets ->
         resolve_dtype "auto" get_torch_device out
         = (Ok "fp16", out ++ ["LivePortrait using fp16"])
         /\ exists p,
             loadmodel "auto" out
             = (Ok p, out ++ ["LivePortrait using fp16"])
             /\ cfg p !! "flag_use_half_precision" = Some (PyBool false)).
Proof.
  split.
  - intros precision out p out' H. eexists. split.
    + exact (loadmodel_cfg _ _ _ _ H).
    + apply string_eqb_decide.
  - intros out nets Hmps Hfp Hn.
    assert (Hd : resolve_dtype "auto" get_torch_device out
                 = (Ok "fp16", out ++ ["LivePortrait using fp16"])).
    { unfold resolve_dtype, autodetect. cbn. rewrite Hmps, Hfp. reflexivity. }
    split; [exact Hd|].
    destruct (loadmodel_returns _ _ _ _ _ Hd Hn) as [p Hp].
    exists p. split; [exact Hp|].
    rewrite (loadmodel_cfg _ _ _ _ Hp). reflexivity.
Qed.

End LoaderFacts.

Section LoaderDemo.

Import DownloadAndLoadLivePortraitModels.
#[local] Existing Instance Demo.host.

(** On the CUDA host of [Demo]: with "fp16" the flag is set; with "auto",
    autodetection prints that it uses fp16 and the flag is not set. *)
Lemma loadmodel_half_precision_iff_witness :
  (exists p out' b,
      loadmodel "fp16" [] = (Ok p, out')
      /\ cfg p !! "flag_use_half_precision" = Some (PyBool b)
      /\ (b = true <-> "fp16" = "fp16"))
  /\ (exists p,
         loadmodel "auto" [] = (Ok p, ["LivePortrait using fp16"])
         /\ cfg p !! "flag_use_half_precision" = Some (PyBool false)).
Proof.
  split.
  - destruct (loadmodel_returns (host := Demo.host) "fp16" [] "fp16"
                ["LivePortrait using fp16"] tt eq_refl eq_refl) as [p Hp].
    destruct (proj1 (loadmodel_half_precision_iff (host := Demo.host))
                    _ _ _ _ Hp) as (b & Hb & Hiff).
    exists p, ["LivePortrait using fp16"], b. auto.
  - exact (proj2 (proj2 (loadmodel_half_precision_iff (host := Demo.host))
                        [] tt eq_refl eq_refl eq_refl)).
Defined.

End LoaderDemo.

(** ** [LivePortraitProcess.process] *)

Section ProcessFacts.

Import LivePortraitProcess.
Context `{ext : Externals}.

(** *** The length check *)

Lemma length_check_raises (a : Args) (w : World) :
  (length (driving_images a) < length (source_image a))%nat ->
  process a w = (Raise (ValueError length_message), w).
Proof.
  intros H. apply Nat.ltb_lt in H. unfold process. rewrite H. reflexivity.
Qed.

Lemma length_check_no_events (a : Args) (w : World) :
  (length (driving_images a) < length (source_image a))%nat ->
  events_of a w = [].
Proof.
  intros H. unfold events_of. rewrite (length_check_raises a w H).
  cbn. apply drop_all.
Qed.

(** C1: when there are strictly fewer driving frames than source frames,
    [process] raises the length error at once: the configuration object
    is untouched, no event has happened (no write, no log line, no call
    of the pipeline), and no output is returned. *)
Theorem process_length_error (a : Args) (w : World) :
  (length (driving_images a) < length (source_image a))%nat ->
  process a w = (Raise (ValueError length_message), w)
  /\ events_of a w = [].
Proof.
  intros H. split.
  - apply length_check_raises, H.
  - apply length_check_no_events, H.
Qed.

(** *** Splitting a trace at the call of the pipeline *)

Lemma execute_in_middle (pre post : list event) (e : event) :
  is_execute e = true -> existsb is_execute (pre ++ e :: post) = true.
Proof.
  intros He. rewrite existsb_app. cbn. rewrite He. apply orb_true_r.
Qed.

Lemma split_at_only_execute (l pre post : list event) (e : event) :
  l = pre ++ e :: post ->
  is_execute e = true ->
  length (List.filter is_execute l) = 1%nat ->
  pre = before_execute l /\ e :: post = from_execute l.
Proof.
  intros -> He. induction pre as [|x pre IH]; cbn; intros Hone.
  - rewrite He. auto.
  - destruct (is_execute x) eqn:Hx; cbn in Hone.
    + exfalso. injection Hone as Hone.
      rewrite List.filter_app in Hone. cbn in Hone. rewrite He in Hone.
      rewrite length_app in Hone. cbn in Hone. lia.
    + destruct (IH Hone) as [<- <-]. auto.
Qed.

(** *** Running [process] past the length check

    [run_process] unfolds an invocation whose length check passes and
    splits on what is left open: whether the warning fires, the shape of
    the mask argument, whether the configuration has the half-precision
    flag and what its truth value is, and what the pipeline returns. *)

Lemma lookup_setattr_ne (n m : string) (v : pyval) (o : pyobj) :
  n <> m -> setattr n v o !! m = o !! m.
Proof. apply lookup_insert_ne. Qed.

Lemma lookup_setattr_eq (n : string) (v : pyval) (o : pyobj) :
  setattr n v o !! n = Some v.
Proof. apply lookup_insert_eq. Qed.

Ltac run_process a w H :=
  apply Nat.ltb_ge in H;
  unfold events_of, process in *; rewrite H in *;
  unfold write_flags, warn_lip_zero, write_mask_crop, prepare_driving,
    execute, read_cfg, set_cfg, log_warning, log_info, emit, modify, when,
    index0, bind, ret, raise, lift, getattr in *;
  cbn -[setattr] in *;
  destruct (lip_zero a && (lip_retargeting a || eye_retargeting a));
  cbn -[setattr] in *;
  destruct (mask a) as [[|? ?]|]; cbn -[setattr] in *;
  rewrite ?lookup_setattr_ne in * by discriminate;
  try (destruct (cfg w !! "flag_use_half_precision") as [?|] eqn:?;
       cbn -[setattr] in * );
  repeat match goal with
         | E : Some ?x = Some _ |- _ => is_var x; injection E as ->
         | E : None = Some _ |- _ => discriminate E
         end;
  try (destruct (truth _) as [?|?] eqn:?; cbn -[setattr] in * );
  try (destruct (pipeline_execute _ _ _ _ _) as [? [[[? ?] ?]|]] eqn:?;
       cbn -[setattr] in * );
  rewrite <- ?app_assoc in *; cbn [app] in *; rewrite drop_app_length in *.

(** The warning of line 313 is in the trace exactly when the guard of
    line 312 holds. *)
Lemma warning_iff_guard (a : Args) (w : World) :
  (length (source_image a) <= length (driving_images a))%nat ->
  existsb is_warning (events_of a w)
  = lip_zero a && (lip_retargeting a || eye_retargeting a).
Proof. intros H. run_process a w H; reflexivity. Qed.

(** An invocation that passes the length check, has a first mask frame
    if it has a mask, and finds a half-precision flag that has a truth
    value, calls the pipeline, and that call is its last event. *)
Lemma process_reaches_execute (a : Args) (w : World) (half : pyval)
    (b : bool) :
  (length (source_image a) <= length (driving_images a))%nat ->
  mask a <> Some [] ->
  cfg w !! "flag_use_half_precision" = Some half ->
  truth half = Ok b ->
  exists pre seen s d c m,
    events_of a w = pre ++ [Execute seen s d c m].
Proof.
  intros H Hm Hh Hb. run_process a w H; try congruence.
  all: match goal with
       | |- exists pre seen s d c m, ?l = _ =>
           exists (before_execute l); cbn; do 5 eexists; reflexivity
       end.
Qed.


(** No event of an invocation that fails the length check, at most one
    call of the pipeline otherwise. *)
Ltac no_execute H :=
  exfalso; apply (f_equal (existsb is_execute)) in H;
  rewrite execute_in_middle in H by reflexivity; cbn in H; discriminate H.

Ltac only_execute H :=
  let Hpre := fresh "Hpre" in
  let Hpost := fresh "Hpost" in
  destruct (split_at_only_execute _ _ _ _ H eq_refl eq_refl) as [Hpre Hpost];
  cbn in Hpre, Hpost; subst; injection Hpost as -> -> -> -> -> ->.

(** What [nodes.py] itself decides about the configuration: whenever an
    invocation calls the pipeline, each of the nine
    retargeting-configuration fields has been assigned exactly once
    before that call, the configuration the pipeline sees carries the
    assigned values, [process] assigns nothing after the call, and the
    configuration it leaves behind is the one the pipeline left. *)
Lemma writes_before_execute
    (a : Args) (w : World) (pre post : list event) (seen : pyobj)
    (s : list BImage) (d : list CImage) (c : CropInfo) (m : string) :
  events_of a w = pre ++ Execute seen s d c m :: post ->
  (forall f, In f retargeting_fields ->
             length (List.filter (writes_to f) pre) = 1%nat
             /\ exists v, In (SetAttr f v) pre /\ seen !! f = Some v)
  /\ List.filter is_write post = []
  /\ cfg (snd (process a w)) = fst (pipeline_execute seen s d c m).
Proof.
  intros H.
  destruct (Nat.lt_ge_cases (length (driving_images a))
                            (length (source_image a))) as [Hlt|Hge].
  - rewrite (length_check_no_events a w Hlt) in H.
    destruct pre; discriminate H.
  - run_process a w Hge; try (no_execute H); only_execute H.
    all: split; [|split; [reflexivity|]].
    all: try (intros f Hf; cbn in Hf;
              repeat (destruct Hf as [<-|Hf]); try contradiction;
              (split; [reflexivity|]); eexists;
              (split; [cbn; tauto|]);
              rewrite ?lookup_setattr_ne by discriminate;
              apply lookup_setattr_eq).
    all: match goal with
         | E : pipeline_execute _ _ _ _ _ = _ |- _ => rewrite E; reflexivity
         end.
Qed.


(** The three numpy steps on a mask frame give, for every element, its
    byte three times. *)
Lemma mask_to_crop_mask_pixels (frame : list (list MaskVal)) :
  mask_to_crop_mask frame
  = map (map (fun x => let b := times255_uint8 x in [b; b; b])) frame.
Proof.
  unfold mask_to_crop_mask, np_repeat_axis2, np_atleast_3d.
  rewrite !List.map_map. apply map_ext. intros row.
  rewrite !List.map_map. apply map_ext. intros x. reflexivity.
Qed.

Ltac the_execute H :=
  cbn in H; repeat (destruct H as [H|H]; try discriminate H);
  try contradiction; injection H as <- <- <- <- <-.

(** C5: in an invocation that passes the length check, [mask_crop] is
    assigned once.  With a mask whose first frame is [frame], the value
    is the byte image that holds, for every element of [frame], its byte
    three times; without a mask it is the default template read from
    disk.  That value is what the pipeline finds in the configuration. *)
Theorem mask_crop_from_mask_or_template (a : Args) (w : World) :
  (length (source_image a) <= length (driving_images a))%nat ->
  (forall frame rest,
      mask a = Some (frame :: rest) ->
      let v := PyImage (map (map (fun x => let b := times255_uint8 x in
                                           [b; b; b])) frame) in
      List.filter (writes_to "mask_crop") (events_of a w)
      = [SetAttr "mask_crop" v]
      /\ forall seen s d c m,
          In (Execute seen s d c m) (events_of a w) ->
          seen !! "mask_crop" = Some v)
  /\ (mask a = None ->
      List.filter (writes_to "mask_crop") (events_of a w)
      = [SetAttr "mask_crop" imread_mask_template]
      /\ forall seen s d c m,
          In (Execute seen s d c m) (events_of a w) ->
          seen !! "mask_crop" = Some imread_mask_template).
Proof.
  intros H. split.
  - intros frame rest Hm v. subst v.
    rewrite <- mask_to_crop_mask_pixels.
    run_process a w H; try discriminate Hm; injection Hm as -> ->.
    all: split; [reflexivity|]; intros seen s d c m HIn; the_execute HIn.
    all: apply lookup_setattr_eq.
  - intros Hm.
    run_process a w H; try discriminate Hm.
    all: split; [reflexivity|]; intros seen s d c m HIn; the_execute HIn.
    all: apply lookup_setattr_eq.
Qed.

(** C6: the driving frames that the pipeline is handed are the driving
    frames of the invocation, in order, each made channel-first and
    resampled to width 256 and height 256, and then cast to half
    precision exactly when the configuration's [flag_use_half_precision]
    is set. *)
Theorem driving_resampled_to_256
    (a : Args) (w : World) (seen : pyobj) (s : list BImage)
    (d : list CImage) (c : CropInfo) (m : string) :
  In (Execute seen s d c m) (events_of a w) ->
  exists half b,
    cfg w !! "flag_use_half_precision" = Some half
    /\ truth half = Ok b
    /\ d = map (fun x =>
                  let x256 := resample 256 256 "lanczos" "disabled"
                                       (permute_chw x) in
                  if b then to_float16 x256 else x256)
               (driving_images a).
Proof.
  intros HIn.
  destruct (Nat.lt_ge_cases (length (driving_images a))
                            (length (source_image a))) as [Hlt|Hge].
  - rewrite (length_check_no_events a w Hlt) in HIn. contradiction.
  - run_process a w Hge; the_execute HIn.
    all: do 2 eexists; split; [reflexivity|]; split; [eassumption|].
    all: unfold common_upscale;
      match goal with |- context [if ?b then _ else _] => destruct b end;
      rewrite !List.map_map; reflexivity.
Qed.

End ProcessFacts.

(** *** The invocations of [Demo] *)

Section ProcessDemo.

Import LivePortraitProcess.
#[local] Existing Instance Demo.process_ext.

Lemma process_length_error_witness :
  process Demo.short_driving_args Demo.fresh_world
  = (Raise (ValueError length_message), Demo.fresh_world)
  /\ events_of Demo.short_driving_args Demo.fresh_world = [].
Proof. apply process_length_error. cbn. lia. Defined.

(** C2: on the node's defaults ([lip_zero] on, both retargeting flags
    off) the invocation runs to its end and logs no warning; with
    [lip_retargeting] switched on as well, it logs the warning.  The
    guard of line 312 is the opposite of the one the message of line 313
    describes. *)
Theorem lip_zero_warning_guard_inverted :
  (fst (process Demo.default_args Demo.fresh_world)
   = Ok ([10; 11; 12], [10; 11; 12], [10; 11; 12])%nat
   /\ List.filter is_warning (events_of Demo.default_args Demo.fresh_world)
      = [])
  /\ List.filter is_warning
       (events_of Demo.lip_retargeting_args Demo.fresh_world)
     = [LogWarning lip_zero_message].
Proof. vm_compute. repeat split. Qed.

Lemma demo_reaches_execute :
  exists pre seen s d c m,
    events_of Demo.default_args Demo.fresh_world
    = pre ++ [Execute seen s d c m].
Proof.
  apply (process_reaches_execute _ _ (PyBool true) true).
  - cbn. lia.
  - discriminate.
  - apply InferenceConfig_half_precision.
  - reflexivity.
Qed.

Lemma mask_crop_from_mask_or_template_witness :
  List.filter (writes_to "mask_crop")
              (events_of Demo.masked_args Demo.fresh_world)
  = [SetAttr "mask_crop"
       (PyImage [[[Byte.xff; Byte.xff; Byte.xff];
                  [Byte.x00; Byte.x00; Byte.x00]]])]
  /\ List.filter (writes_to "mask_crop")
                 (events_of Demo.default_args Demo.fresh_world)
     = [SetAttr "mask_crop" (PyImage [[[Byte.xff; Byte.xff; Byte.xff]]])].
Proof.
  assert (H : (length (source_image Demo.masked_args)
               <= length (driving_images Demo.masked_args))%nat)
    by (cbn; lia).
  assert (H' : (length (source_image Demo.default_args)
                <= length (driving_images Demo.default_args))%nat)
    by (cbn; lia).
  split.
  - exact (proj1 (proj1 (mask_crop_from_mask_or_template
                           Demo.masked_args Demo.fresh_world H)
                        [[true; false]] [] eq_refl)).
  - exact (proj1 (proj2 (mask_crop_from_mask_or_template
                           Demo.default_args Demo.fresh_world H')
                        eq_refl)).
Defined.

Lemma driving_resampled_to_256_witness :
  exists pre seen s c m,
    events_of Demo.default_args Demo.fresh_world
    = pre ++ [Execute seen s
                [(10%nat, (256, 256)%Z, true); (11%nat, (256, 256)%Z, true);
                 (12%nat, (256, 256)%Z, true)] c m].
Proof.
  destruct demo_reaches_execute as (pre & seen & s & d & c & m & E).
  exists pre, seen, s, c, m. rewrite E. do 3 f_equal.
  assert (HIn : In (Execute seen s d c m)
                   (events_of Demo.default_args Demo.fresh_world))
    by (rewrite E; apply in_elt).
  destruct (driving_resampled_to_256 _ _ _ _ _ _ _ HIn)
    as (half & b & Hh & Hb & ->).
  assert (Hc : cfg Demo.fresh_world !! "flag_use_half_precision"
               = Some (PyBool true))
    by apply InferenceConfig_half_precision.
  rewrite Hc in Hh. injection Hh as <-. injection Hb as <-. reflexivity.
Defined.

End ProcessDemo.

(** ** [process] on the pipeline of the specification *)

Section SpecPipelineFacts.

Import LivePortraitProcess PipelineExecute.
Context `{ext : Externals}.

(** The loop assigns nothing to the configuration object, every step
    reads the object as the loop found it, and the flags a step reads
    are the ones the batch started with. *)
Lemma per_frame_loop_reads_only (st : Steps) (batch_flags : list (option bool))
    (source : list BImage) (driving : list CImage) (ci : CropInfo)
    (index_map : list nat) :
  forall (t : nat) (s : Shared),
    let run := per_frame_loop st batch_flags source driving ci t index_map s in
    object (snd run) = object s
    /\ (exists new, reads (snd run) = reads s ++ new
                    /\ Forall (eq (object s)) new)
    /\ (flags (object s) = batch_flags -> fst run <> inl ConfigError).
Proof.
  induction index_map as [|i rest IH]; intros t s; cbn zeta.
  - cbn. split; [reflexivity|]. split; [|discriminate].
    exists []. rewrite app_nil_r. split; [reflexivity|constructor].
  - cbn [per_frame_loop]. unfold read_config.
    set (s1 := {| object := object s; reads := reads s ++ [object s] |}).
    assert (Hone : exists new, reads s1 = reads s ++ new
                               /\ Forall (eq (object s)) new).
    { exists [object s]. split; [reflexivity|]. repeat constructor. }
    destruct (bool_decide (flags (object s) = batch_flags)) eqn:Hb.
    2:{ cbn. split; [reflexivity|]. split; [exact Hone|].
        intros Hf. apply bool_decide_eq_false in Hb. contradiction. }
    destruct (driving !! i) as [d|].
    2:{ cbn. split; [reflexivity|]. split; [exact Hone|]. discriminate. }
    destruct (compose_and_composite st (object s) t source d ci)
      as [[[cropped full] mask]|].
    2:{ cbn. split; [reflexivity|]. split; [exact Hone|]. discriminate. }
    specialize (IH (S t) s1). cbn zeta in IH.
    destruct IH as (Hobj & (new & Hnew & Hall) & Hcfg).
    destruct (per_frame_loop st batch_flags source driving ci (S t) rest s1)
      as [[e|[[cs fs] ms]] s2]; cbn [fst snd] in *.
    + split; [exact Hobj|]. split; [|exact Hcfg].
      exists (object s :: new). rewrite Hnew. cbn [s1 reads].
      rewrite <- app_assoc. split; [reflexivity|].
      constructor; [reflexivity|exact Hall].
    + split; [exact Hobj|]. split; [|discriminate].
      exists (object s :: new). rewrite Hnew. cbn [s1 reads].
      rewrite <- app_assoc. split; [reflexivity|].
      constructor; [reflexivity|exact Hall].
Qed.

(** The pipeline of the specification leaves the configuration object
    as it found it, every step has read exactly that configuration, and
    it does not end in [ConfigError]. *)
Lemma run_execute_reads_only (st : Steps) (cfg : pyobj)
    (source : list BImage) (driving : list CImage) (ci : CropInfo)
    (method : string) :
  object (snd (run_execute st cfg source driving ci method)) = cfg
  /\ Forall (eq cfg) (reads (snd (run_execute st cfg source driving ci
                                              method)))
  /\ fst (run_execute st cfg source driving ci method) <> inl ConfigError.
Proof.
  unfold run_execute.
  destruct (align st (length source) (length driving) method) as [index_map|].
  - destruct (per_frame_loop_reads_only st (flags cfg) source driving ci
                index_map 0 {| object := cfg; reads := [] |})
      as (Hobj & (new & Hnew & Hall) & Hcfg).
    split; [exact Hobj|]. split; [|exact (Hcfg eq_refl)].
    rewrite Hnew. exact Hall.
  - cbn. split; [reflexivity|]. split; [constructor|discriminate].
Qed.

Lemma spec_pipeline_keeps_config (st : Steps) (cfg : pyobj)
    (source : list BImage) (driving : list CImage) (ci : CropInfo)
    (method : string) :
  fst (spec_pipeline_execute st cfg source driving ci method) = cfg.
Proof.
  unfold spec_pipeline_execute.
  pose proof (proj1 (run_execute_reads_only st cfg source driving ci method))
    as H.
  destruct (run_execute st cfg source driving ci method) as [r s].
  exact H.
Qed.

(** C4, with the per-frame loop modelled from the specification:
    whenever an invocation of [process] calls the pipeline, each of the
    nine retargeting-configuration fields has been assigned exactly
    once before that call, that is, before the loop starts; every step
    of the loop reads the assigned value; nothing assigns to the field
    during the loop or after it, so that at the end of the invocation
    the configuration still holds the assigned value; and the loop does
    not end in [ConfigError]. *)
Theorem config_set_once_then_read_only (st : Steps)
    (a : Args (ext := with_spec_pipeline st))
    (w : World (ext := with_spec_pipeline st))
    (pre post : list (event (ext := with_spec_pipeline st)))
    (seen : pyobj) (s : list BImage) (d : list CImage) (c : CropInfo)
    (m : string) :
  events_of a w
  = pre ++ Execute (ext := with_spec_pipeline st) seen s d c m :: post ->
  (forall f, In f retargeting_fields ->
     exists v,
       length (List.filter (writes_to f) pre) = 1%nat
       /\ In (SetAttr (ext := with_spec_pipeline st) f v) pre
       /\ seen !! f = Some v
       /\ Forall (fun read => read !! f = Some v)
                 (reads (snd (run_execute st seen s d c m)))
       /\ cfg (snd (process a w)) !! f = Some v)
  /\ List.filter is_write post = []
  /\ fst (run_execute st seen s d c m) <> inl ConfigError.
Proof.
  intros H.
  destruct (writes_before_execute (ext := with_spec_pipeline st)
              a w pre post seen s d c m H) as (Hw & Hpost & Hcfg).
  destruct (run_execute_reads_only st seen s d c m) as (_ & Hreads & Hne).
  split; [|split; [exact Hpost|exact Hne]].
  intros f Hf. destruct (Hw f Hf) as (Hone & v & Hin & Hseen).
  exists v. split; [exact Hone|]. split; [exact Hin|]. split; [exact Hseen|].
  split.
  - eapply List.Forall_impl; [|exact Hreads]. intros read <-. exact Hseen.
  - rewrite Hcfg.
    change (pipeline_execute (Externals := with_spec_pipeline st) seen s d c m)
      with (spec_pipeline_execute st seen s d c m).
    rewrite spec_pipeline_keeps_config. exact Hseen.
Qed.

End SpecPipelineFacts.

(** *** The invocation of [DemoPipeline] *)

Section SpecPipelineDemo.

Import LivePortraitProcess PipelineExecute.

Lemma config_set_once_then_read_only_witness :
  exists pre seen s d c m,
    events_of DemoPipeline.default_args DemoPipeline.fresh_world
    = pre ++ [Execute (ext := DemoPipeline.ext) seen s d c m]
    /\ forall f, In f retargeting_fields ->
         exists v,
           seen !! f = Some v
           /\ Forall (fun read => read !! f = Some v)
                     (reads (snd (run_execute DemoPipeline.steps seen s d c
                                              m)))
           /\ cfg (snd (process DemoPipeline.default_args
                                DemoPipeline.fresh_world)) !! f
              = Some v.
Proof.
  destruct (process_reaches_execute (ext := DemoPipeline.ext)
              DemoPipeline.default_args DemoPipeline.fresh_world
              (PyBool true) true)
    as (pre & seen & s & d & c & m & E).
  - cbn. lia.
  - discriminate.
  - apply InferenceConfig_half_precision.
  - reflexivity.
  - exists pre, seen, s, d, c, m. split; [exact E|].
    intros f Hf.
    destruct (proj1 (config_set_once_then_read_only
                       (ext := Demo.process_ext) DemoPipeline.steps
                       DemoPipeline.default_args DemoPipeline.fresh_world
                       pre [] seen s d c m E) f Hf)
      as (v & _ & _ & Hseen & Hreads & Hend).
    exists v. split; [exact Hseen|]. split; [exact Hreads|exact Hend].
Defined.

End SpecPipelineDemo.

(** ** [LivePortraitCropper.process] *)

Section CropperFacts.

Import LivePortraitCropper.
Context `{ext : Externals}.

Lemma config_eqb_eq (x y : CropperInitConfig) :
  config_eqb x y = true <-> x = y.
Proof.
  destruct x as [k1 d1], y as [k2 d2]. unfold config_eqb. cbn.
  rewrite andb_true_iff, Bool.eqb_true_iff, String.eqb_eq.
  split; [intros [-> ->]; reflexivity | intros [= -> ->]; auto].
Qed.

Lemma crops_by_app (l1 l2 : list event) :
  crops_by (l1 ++ l2) = crops_by l1 ++ crops_by l2.
Proof. unfold crops_by. apply flat_map_app. Qed.

Lemma inits_app (l1 l2 : list event) :
  inits (l1 ++ l2) = inits l1 ++ inits l2.
Proof. unfold inits. apply flat_map_app. Qed.

(** *** The loop, piece by piece *)

Lemma loop_like_ret {A} (a : Args) (c : Cropper) (x : A) :
  loop_like a c 0 (ret x).
Proof.
  intros w _. cbn. repeat split. exists []. rewrite app_nil_r. auto.
Qed.

Lemma loop_like_raise {A} (a : Args) (c : Cropper) (n : nat) (e : exn) :
  loop_like a c n (raise e : M World A).
Proof.
  intros w _. cbn. repeat split. exists []. rewrite app_nil_r.
  repeat split; [constructor | discriminate].
Qed.

Lemma loop_like_bind {A B} (a : Args) (c : Cropper) (n m : nat)
    (run : M World A) (k : A -> M World B) :
  loop_like a c n run ->
  (forall x, loop_like a c m (k x)) ->
  loop_like a c (n + m) (bind run k).
Proof.
  intros Hrun Hk w Hc. unfold bind.
  destruct (Hrun w Hc) as (Hs & Hn & tr & Ht & Hf & Hcount).
  destruct (run w) as [[x|e] w1]; cbn in *.
  - assert (Hc1 : self_cropper (self w1) = Some (Some c))
      by (rewrite Hs; exact Hc).
    destruct (Hk x w1 Hc1) as (Hs' & Hn' & tr' & Ht' & Hf' & Hcount').
    split; [congruence|]. split; [congruence|].
    exists (tr ++ tr'). split; [rewrite Ht', Ht, app_assoc; reflexivity|].
    split; [apply Forall_app; auto|].
    intros Hok. rewrite crops_by_app, length_app.
    rewrite Hcount by reflexivity. rewrite Hcount' by exact Hok. reflexivity.
  - split; [exact Hs|]. split; [exact Hn|].
    exists tr. repeat split; auto. discriminate.
Qed.

Lemma loop_like_index {A} (a : Args) (c : Cropper) (xs : list A) (i : nat) :
  loop_like a c 0 (index xs i).
Proof.
  unfold index.
  destruct (xs !! i); [apply loop_like_ret | apply loop_like_raise].
Qed.

Lemma loop_like_call_crop (a : Args) (c : Cropper) (img : BImage) :
  loop_like a c 1
    (call_crop img (dsize a) (scale a) (vy_ratio a) (vx_ratio a)
               (face_index a) (rotate a)).
Proof.
  intros w Hc. unfold call_crop. rewrite Hc. cbn. repeat split.
  eexists. split; [reflexivity|]. split; [|reflexivity].
  constructor; [|constructor]. cbn. repeat split.
Qed.

Lemma loop_like_pbar (a : Args) (c : Cropper) :
  loop_like a c 0 (emit PbarUpdate).
Proof.
  intros w Hc. cbn. repeat split. eexists. split; [reflexivity|].
  split; [|reflexivity]. constructor; [exact I|constructor].
Qed.

Lemma loop_like_seq {A B} (a : Args) (c : Cropper) (n m p : nat)
    (run : M World A) (k : A -> M World B) :
  p = (n + m)%nat ->
  loop_like a c n run ->
  (forall x, loop_like a c m (k x)) ->
  loop_like a c p (bind run k).
Proof. intros ->. apply loop_like_bind. Qed.

Lemma loop_like_crop_step (a : Args) (c : Cropper) (src : list BImage)
    (drv : option (list BImage)) (acc : Acc) (i : nat) :
  loop_like a c (match drv with Some _ => 2 | None => 1 end)
            (crop_step a src drv acc i).
Proof.
  unfold crop_step.
  destruct drv as [driving|].
  - apply (loop_like_seq a c 0 2); [reflexivity|apply loop_like_index|].
    intros img.
    apply (loop_like_seq a c 1 1); [reflexivity|apply loop_like_call_crop|].
    intros d.
    apply (loop_like_seq a c 1 0); [reflexivity| |].
    + apply (loop_like_seq a c 0 1); [reflexivity|apply loop_like_index|].
      intros dimg.
      apply (loop_like_seq a c 1 0); [reflexivity|apply loop_like_call_crop|].
      intros dd. apply loop_like_ret.
    + intros lm.
      apply (loop_like_seq a c 0 0); [reflexivity|apply loop_like_pbar|].
      intros _. apply loop_like_ret.
  - apply (loop_like_seq a c 0 1); [reflexivity|apply loop_like_index|].
    intros img.
    apply (loop_like_seq a c 1 0); [reflexivity|apply loop_like_call_crop|].
    intros d.
    apply (loop_like_seq a c 0 0); [reflexivity|apply loop_like_ret|].
    intros lm.
    apply (loop_like_seq a c 0 0); [reflexivity|apply loop_like_pbar|].
    intros _. apply loop_like_ret.
Qed.

Lemma loop_like_crop_loop (a : Args) (c : Cropper) (src : list BImage)
    (drv : option (list BImage)) (indices : list nat) (acc : Acc) :
  loop_like a c
    (length indices * match drv with Some _ => 2 | None => 1 end)
    (crop_loop a src drv indices acc).
Proof.
  revert acc. induction indices as [|i rest IH]; intros acc; cbn [crop_loop].
  - apply loop_like_ret.
  - eapply loop_like_seq; [|apply loop_like_crop_step|intros acc'; apply IH].
    reflexivity.
Qed.

Lemma loop_events_no_init (a : Args) (c : Cropper) (tr : list event) :
  Forall (loop_event a c) tr -> inits tr = [] /\ Forall (eq c) (crops_by tr).
Proof.
  induction 1 as [|e tr He _ [IH1 IH2]]; [split; constructor|].
  destruct e; cbn in *; try contradiction; auto.
  destruct He as [-> _]. split; [exact IH1|]. constructor; auto.
Qed.


(** *** After the cropper has been looked up *)

Lemma loop_events_weaken (a : Args) (c : Cropper) (tr : list event) :
  Forall (loop_event a c) tr ->
  Forall (fun e => loop_event a c e \/ e = SoftEmptyCache) tr.
Proof. induction 1; constructor; auto. Qed.

Lemma crop_all_run (a : Args) (c : Cropper) (w : World) :
  self_cropper (self w) = Some (Some c) ->
  next_id (snd (crop_all a w)) = next_id w
  /\ self_current_config (self (snd (crop_all a w)))
     = self_current_config (self w)
  /\ self_cropper (self (snd (crop_all a w)))
     = (if is_ok (fst (crop_all a w)) && negb (keep_model_loaded a)
        then Some None else Some (Some c))
  /\ exists tr,
      trace (snd (crop_all a w)) = trace w ++ tr
      /\ Forall (fun e => loop_event a c e \/ e = SoftEmptyCache) tr
      /\ (is_ok (fst (crop_all a w)) = true ->
          length (crops_by tr)
          = (length (source_image a) * crops_per_frame a)%nat).
Proof.
  intros Hc. unfold crop_all, bind.
  pose proof (loop_like_crop_loop a c (map times255_byte (source_image a))
                (option_map (map times255_byte) (opt_driving_images a))
                (seq 0 (length (map times255_byte (source_image a))))
                {| acc_crop_info_list := [];
                   acc_cropped_images_list := [];
                   acc_driving_landmark_list := [] |} w Hc)
    as (Hs & Hn & tr & Ht & Hf & Hcount).
  destruct (crop_loop _ _ _ _ _ w) as [[acc|e] w1]; cbn in Hs, Hn, Ht, Hcount.
  - assert (Hlen : length (crops_by tr)
                   = (length (source_image a) * crops_per_frame a)%nat).
    { rewrite Hcount by reflexivity.
      rewrite length_seq, length_map. unfold crops_per_frame.
      destruct (opt_driving_images a); reflexivity. }
    unfold release. destruct (keep_model_loaded a); cbn.
    + rewrite Hs, Hn, Hc. repeat split.
      exists tr. repeat split; auto.
      apply loop_events_weaken, Hf.
    + rewrite Hs, Hn. repeat split.
      exists (tr ++ [SoftEmptyCache]). rewrite Ht, app_assoc.
      repeat split.
      * apply Forall_app. split.
        -- apply loop_events_weaken, Hf.
        -- constructor; [right; reflexivity|constructor].
      * intros _. rewrite crops_by_app, length_app. cbn. lia.
  - cbn. rewrite Hs, Hn, Hc. repeat split.
    exists tr. repeat split; auto.
    + apply loop_events_weaken, Hf.
    + discriminate.
Qed.

Lemma crop_all_events_no_init (a : Args) (c : Cropper) (tr : list event) :
  Forall (fun e => loop_event a c e \/ e = SoftEmptyCache) tr ->
  inits tr = [] /\ Forall (eq c) (crops_by tr).
Proof.
  induction 1 as [|e tr He _ [IH1 IH2]]; [split; constructor|].
  destruct He as [He| ->]; [|cbn; auto].
  destruct e; cbn in *; try contradiction; auto.
  destruct He as [-> _]. split; [exact IH1|]. constructor; auto.
Qed.

(** *** The two ways through lines 395-397 *)

(** The world in which the loop starts after the cropper has been
    constructed. *)
Lemma process_constructs (a : Args) (w : World) :
  needs_init (init_config_of a) w = (Ok true, w) ->
  process a w
  = crop_all a
      {| self := {| self_cropper :=
                      Some (Some {| cropper_id := next_id w;
                                    init_config := init_config_of a |});
                    self_current_config := Some (init_config_of a) |};
         next_id := S (next_id w);
         trace := trace w
                  ++ [CropperInit {| cropper_id := next_id w;
                                     init_config := init_config_of a |}] |}.
Proof.
  intros H. unfold process, ensure_cropper, bind.
  change {| cfg_keep_model_loaded := keep_model_loaded a;
            cfg_onnx_device := onnx_device a |} with (init_config_of a).
  rewrite H. reflexivity.
Qed.

Lemma process_keeps (a : Args) (w : World) :
  needs_init (init_config_of a) w = (Ok false, w) ->
  process a w = crop_all a w.
Proof.
  intros H. unfold process, ensure_cropper, bind.
  change {| cfg_keep_model_loaded := keep_model_loaded a;
            cfg_onnx_device := onnx_device a |} with (init_config_of a).
  rewrite H. reflexivity.
Qed.

Lemma needs_init_same (a : Args) (w : World) (c : Cropper) :
  self_cropper (self w) = Some (Some c) ->
  self_current_config (self w) = Some (init_config_of a) ->
  needs_init (init_config_of a) w = (Ok false, w).
Proof.
  intros Hc Hcur. unfold needs_init. rewrite Hc, Hcur.
  replace (config_eqb _ _) with true; [reflexivity|].
  symmetry. apply config_eqb_eq. reflexivity.
Qed.

Lemma needs_init_other (a : Args) (w : World) (c : Cropper)
    (cur : CropperInitConfig) :
  self_cropper (self w) = Some (Some c) ->
  self_current_config (self w) = Some cur ->
  cur <> init_config_of a ->
  needs_init (init_config_of a) w = (Ok true, w).
Proof.
  intros Hc Hcur Hne. unfold needs_init. rewrite Hc, Hcur.
  destruct (config_eqb cur (init_config_of a)) eqn:E; [|reflexivity].
  apply config_eqb_eq in E. contradiction.
Qed.

Lemma needs_init_none (a : Args) (w : World) :
  self_cropper (self w) = None \/ self_cropper (self w) = Some None ->
  needs_init (init_config_of a) w = (Ok true, w).
Proof. intros [H|H]; unfold needs_init; rewrite H; reflexivity. Qed.

(** An invocation that constructs the cropper: the construction is its
    first event and the only one, and every crop call is made on the
    new object. *)
Lemma process_constructs_events (a : Args) (w : World) :
  needs_init (init_config_of a) w = (Ok true, w) ->
  let obj := {| cropper_id := next_id w; init_config := init_config_of a |} in
  exists rest,
    events_of a w = CropperInit obj :: rest
    /\ Forall (fun e => loop_event a obj e \/ e = SoftEmptyCache) rest
    /\ next_id (snd (process a w)) = S (next_id w)
    /\ self_current_config (self (snd (process a w)))
       = Some (init_config_of a)
    /\ self_cropper (self (snd (process a w)))
       = (if is_ok (fst (process a w)) && negb (keep_model_loaded a)
          then Some None else Some (Some obj))
    /\ (is_ok (fst (process a w)) = true ->
        length (crops_by rest)
        = (length (source_image a) * crops_per_frame a)%nat).
Proof.
  intros H obj. unfold events_of. rewrite (process_constructs a w H).
  fold obj.
  match goal with |- context [crop_all a ?w1] => set (w1' := w1) end.
  destruct (crop_all_run a obj w1' eq_refl)
    as (Hn & Hcur & Hc & tr & Ht & Hf & Hcount).
  exists tr. rewrite Ht. cbn [trace w1']. rewrite <- app_assoc.
  rewrite drop_app_length. cbn [app]. repeat split; auto.
Qed.

(** An invocation that finds a cropper built from the same
    configuration: no construction, and every crop call is made on the
    cropper found. *)
Lemma process_keeps_events (a : Args) (w : World) (c : Cropper) :
  self_cropper (self w) = Some (Some c) ->
  self_current_config (self w) = Some (init_config_of a) ->
  Forall (fun e => loop_event a c e \/ e = SoftEmptyCache) (events_of a w)
  /\ next_id (snd (process a w)) = next_id w
  /\ self_current_config (self (snd (process a w)))
     = Some (init_config_of a)
  /\ self_cropper (self (snd (process a w)))
     = (if is_ok (fst (process a w)) && negb (keep_model_loaded a)
        then Some None else Some (Some c))
  /\ (is_ok (fst (process a w)) = true ->
      length (crops_by (events_of a w))
      = (length (source_image a) * crops_per_frame a)%nat).
Proof.
  intros Hc Hcur. unfold events_of.
  rewrite (process_keeps a w (needs_init_same a w c Hc Hcur)).
  destruct (crop_all_run a c w Hc)
    as (Hn & Hcur' & Hc' & tr & Ht & Hf & Hcount).
  rewrite Ht, drop_app_length. repeat split; auto. congruence.
Qed.


(** *** Every invocation *)

Lemma needs_init_cases (a : Args) (w : World) :
  needs_init (init_config_of a) w = (Ok true, w)
  \/ (exists c, self_cropper (self w) = Some (Some c)
                /\ self_current_config (self w) = Some (init_config_of a))
  \/ (exists e, process a w = (Raise e, w)).
Proof.
  unfold needs_init.
  destruct (self_cropper (self w)) as [[c|]|] eqn:Hc; auto.
  destruct (self_current_config (self w)) as [cur|] eqn:Hcur.
  - destruct (config_eqb cur (init_config_of a)) eqn:E; auto.
    apply config_eqb_eq in E. subst cur. right. left. eauto.
  - right. right. eexists. unfold process, ensure_cropper, bind, needs_init.
    rewrite Hc, Hcur. reflexivity.
Qed.

(** The events of an invocation are at most one construction, then crop
    calls on one cropper with the arguments of line 408, progress ticks
    and the cache release. *)
Lemma process_events_shape (a : Args) (w : World) :
  exists c,
    Forall (fun e => e = CropperInit c \/ loop_event a c e
                     \/ e = SoftEmptyCache)
           (events_of a w).
Proof.
  destruct (needs_init_cases a w) as [H|[(c & Hc & Hcur)|(e & H)]].
  - destruct (process_constructs_events a w H) as (rest & -> & Hf & _).
    eexists. constructor; [left; reflexivity|].
    induction Hf; constructor; tauto.
  - destruct (process_keeps_events a w c Hc Hcur) as (Hf & _).
    exists c. induction Hf; constructor; tauto.
  - exists {| cropper_id := 0; init_config := init_config_of a |}.
    unfold events_of. rewrite H. cbn. rewrite drop_all. constructor.
Qed.

(** C3, as the code has it: every call of the crop operation that an
    invocation makes, for a source frame or for a driving frame, passes
    the node's [vy_ratio] as fourth argument and the node's [vx_ratio]
    as fifth, in both cases after [dsize] and [scale] and before
    [face_index] and [rotate]; an invocation that returns has made one
    such call per source frame, and a second one per source frame when
    driving images are given. *)
Theorem crop_calls_pass_vy_then_vx (a : Args) (w : World) :
  (forall c img arg2 arg3 arg4 arg5 arg6 arg7,
      In (Crop c img arg2 arg3 arg4 arg5 arg6 arg7) (events_of a w) ->
      arg2 = dsize a /\ arg3 = scale a
      /\ arg4 = vy_ratio a /\ arg5 = vx_ratio a
      /\ arg6 = face_index a /\ arg7 = rotate a)
  /\ (is_ok (fst (process a w)) = true ->
      length (crops_by (events_of a w))
      = (length (source_image a) * crops_per_frame a)%nat).
Proof.
  split.
  - intros c img arg2 arg3 arg4 arg5 arg6 arg7 HIn.
    destruct (process_events_shape a w) as (c0 & Hf).
    rewrite List.Forall_forall in Hf. specialize (Hf _ HIn).
    destruct Hf as [Hf|[Hf|Hf]]; try discriminate Hf.
    cbn in Hf. tauto.
  - intros Hok.
    destruct (needs_init_cases a w) as [H|[(c & Hc & Hcur)|(e & H)]].
    + destruct (process_constructs_events a w H)
        as (rest & -> & _ & _ & _ & _ & Hcount).
      cbn. auto.
    + destruct (process_keeps_events a w c Hc Hcur) as (_ & _ & _ & _ & Hcount).
      auto.
    + rewrite H in Hok. discriminate Hok.
Qed.

(** A call without [keep_model_loaded] that returns has set
    [self.cropper] to [None]. *)
Lemma process_releases (a : Args) (w : World) :
  keep_model_loaded a = false ->
  is_ok (fst (process a w)) = true ->
  self_cropper (self (snd (process a w))) = Some None.
Proof.
  intros Hkeep Hok.
  destruct (needs_init_cases a w) as [Hi|[(c & Hc & Hcur)|(e & Hr)]].
  - destruct (process_constructs_events a w Hi)
      as (_ & _ & _ & _ & _ & Hc' & _).
    rewrite Hok, Hkeep in Hc'. exact Hc'.
  - destruct (process_keeps_events a w c Hc Hcur) as (_ & _ & _ & Hc' & _).
    rewrite Hok, Hkeep in Hc'. exact Hc'.
  - rewrite Hr in Hok. discriminate Hok.
Qed.

(** C7: the life of the cropper across calls on one node instance.
    - A node that has never been used constructs the cropper as the
      first event of the call, once, and crops with it.
    - A call that finds a cropper built from the same
      [keep_model_loaded] and [onnx_device] constructs nothing and crops
      with the cropper it found; with [keep_model_loaded] set the node
      instance is left as it was, so that the same holds for the next
      call.
    - A call that finds a cropper built from another configuration
      constructs a new one first and crops with the new one.
    - A call without [keep_model_loaded] that returns leaves
      [self.cropper] at [None], and whatever call comes next starts by
      constructing a cropper. *)
Theorem cropper_lifecycle (a : Args) (w : World) :
  let obj := {| cropper_id := next_id w; init_config := init_config_of a |} in
  (self w = new_node ->
   exists rest,
     events_of a w = CropperInit obj :: rest
     /\ inits rest = [] /\ Forall (eq obj) (crops_by rest))
  /\ (forall c,
        self_cropper (self w) = Some (Some c) ->
        self_current_config (self w) = Some (init_config_of a) ->
        inits (events_of a w) = []
        /\ Forall (eq c) (crops_by (events_of a w))
        /\ (keep_model_loaded a = true -> self (snd (process a w)) = self w))
  /\ (forall c cur,
        self_cropper (self w) = Some (Some c) ->
        self_current_config (self w) = Some cur ->
        cur <> init_config_of a ->
        exists rest,
          events_of a w = CropperInit obj :: rest
          /\ inits rest = [] /\ Forall (eq obj) (crops_by rest)
          /\ (cropper_id c < next_id w -> obj <> c)%nat
          /\ (keep_model_loaded a = true ->
              self (snd (process a w))
              = {| self_cropper := Some (Some obj);
                   self_current_config := Some (init_config_of a) |}))
  /\ (keep_model_loaded a = false ->
      is_ok (fst (process a w)) = true ->
      self_cropper (self (snd (process a w))) = Some None
      /\ forall a',
          exists rest,
            events_of a' (snd (process a w))
            = CropperInit {| cropper_id := next_id (snd (process a w));
                             init_config := init_config_of a' |} :: rest).
Proof.
  intros obj. split; [|split; [|split]].
  - intros Hnew.
    assert (H : needs_init (init_config_of a) w = (Ok true, w)).
    { apply needs_init_none. left. rewrite Hnew. reflexivity. }
    destruct (process_constructs_events a w H) as (rest & E & Hf & _).
    exists rest. split; [exact E|]. exact (crop_all_events_no_init a _ _ Hf).
  - intros c Hc Hcur.
    destruct (process_keeps_events a w c Hc Hcur)
      as (Hf & _ & Hcur' & Hc' & _).
    destruct (crop_all_events_no_init a _ _ Hf) as [Hi Hcr].
    split; [exact Hi|]. split; [exact Hcr|].
    intros Hkeep. rewrite Hkeep in Hc'. cbn [negb] in Hc'.
    rewrite andb_false_r in Hc'.
    destruct (self (snd (process a w))) as [x y], (self w) as [x' y'].
    cbn in *. congruence.
  - intros c cur Hc Hcur Hne.
    pose proof (needs_init_other a w c cur Hc Hcur Hne) as H.
    destruct (process_constructs_events a w H)
      as (rest & E & Hf & _ & Hcur' & Hc' & _).
    exists rest. split; [exact E|].
    destruct (crop_all_events_no_init a _ _ Hf) as [Hi Hcr].
    split; [exact Hi|]. split; [exact Hcr|]. split.
    + intros Hlt Heq. subst c. cbn in Hlt. lia.
    + intros Hkeep. rewrite Hkeep in Hc'. cbn [negb] in Hc'.
      rewrite andb_false_r in Hc'.
      destruct (self (snd (process a w))) as [x y]. cbn in *.
      subst x y. reflexivity.
  - intros Hkeep Hok.
    pose proof (process_releases a w Hkeep Hok) as Hnone.
    split; [exact Hnone|]. intros a'.
    assert (Hi : needs_init (init_config_of a') (snd (process a w))
                 = (Ok true, snd (process a w))).
    { apply needs_init_none. right. exact Hnone. }
    destruct (process_constructs_events a' _ Hi) as (rest & E & _).
    exists rest. exact E.
Qed.

End CropperFacts.

(** *** The invocations of [Demo] *)

Section CropperDemo.

Import LivePortraitCropper.
#[local] Existing Instance Demo.crop_ext.

(** C3, as the claim has it, fails: on the node's defaults
    ([vx_ratio] 0, [vy_ratio] -1/8) the first crop call carries -1/8 in
    the position that the contract gives to [vx_ratio]. *)
Lemma crop_contract_order_counterexample :
  exists e q,
    In e (events_of Demo.crop_args Demo.new_world)
    /\ contract_vx_ratio e = Some q
    /\ ~ (q == vx_ratio Demo.crop_args)%Q.
Proof.
  exists (Crop (ext := Demo.crop_ext)
               {| cropper_id := 0;
                  init_config := init_config_of Demo.crop_args |}
               0%nat 512%Z (23 # 10) (- (1 # 8)) 0 0%Z true), (- (1 # 8))%Q.
  split; [|split].
  - vm_compute. right. left. reflexivity.
  - reflexivity.
  - intros H. vm_compute in H. discriminate H.
Qed.

Lemma crop_calls_pass_vy_then_vx_witness :
  exists c img,
    In (Crop (ext := Demo.crop_ext) c img 512%Z (23 # 10) (- (1 # 8)) 0
             0%Z true)
       (events_of Demo.crop_args Demo.new_world)
    /\ vy_ratio Demo.crop_args = (- (1 # 8))%Q
    /\ vx_ratio Demo.crop_args = 0%Q.
Proof.
  exists {| cropper_id := 0; init_config := init_config_of Demo.crop_args |},
         0%nat.
  assert (HIn : In (Crop (ext := Demo.crop_ext)
                         {| cropper_id := 0;
                            init_config := init_config_of Demo.crop_args |}
                         0%nat 512%Z (23 # 10) (- (1 # 8)) 0 0%Z true)
                   (events_of Demo.crop_args Demo.new_world)).
  { vm_compute. right. left. reflexivity. }
  split; [exact HIn|].
  destruct (proj1 (crop_calls_pass_vy_then_vx Demo.crop_args Demo.new_world)
              _ _ _ _ _ _ _ _ HIn) as (_ & _ & H4 & H5 & _).
  split; symmetry; assumption.
Defined.

(** Three calls on a node that has been used once: one with the same
    configuration, one on another device, and one that does not keep
    the model loaded. *)
Lemma cropper_lifecycle_witness :
  let w0 := Demo.new_world in
  let w1 := snd (process Demo.crop_args w0) in
  (exists rest,
      events_of Demo.crop_args w0
      = CropperInit {| cropper_id := 0;
                       init_config := init_config_of Demo.crop_args |}
        :: rest
      /\ inits rest = [])
  /\ inits (events_of Demo.crop_args w1) = []
  /\ (exists rest,
         events_of Demo.crop_args_cuda w1
         = CropperInit {| cropper_id := 1;
                          init_config := init_config_of Demo.crop_args_cuda |}
           :: rest)
  /\ self_cropper (self (snd (process Demo.crop_args_release w1)))
     = Some None.
Proof.
  intros w0 w1.
  assert (Hc : self_cropper (self w1)
               = Some (Some {| cropper_id := 0;
                               init_config := init_config_of Demo.crop_args |}))
    by reflexivity.
  assert (Hcur : self_current_config (self w1)
                 = Some (init_config_of Demo.crop_args))
    by reflexivity.
  split; [|split; [|split]].
  - destruct (proj1 (cropper_lifecycle Demo.crop_args w0) eq_refl)
      as (rest & E & Hi & _).
    exists rest. split; assumption.
  - exact (proj1 (proj1 (proj2 (cropper_lifecycle Demo.crop_args w1))
                        _ Hc Hcur)).
  - destruct (proj1 (proj2 (proj2 (cropper_lifecycle Demo.crop_args_cuda w1)))
                _ _ Hc Hcur) as (rest & E & _).
    + discriminate.
    + exists rest. exact E.
  - apply (proj2 (proj2 (proj2 (cropper_lifecycle Demo.crop_args_release w1)))).
    + reflexivity.
    + vm_compute. reflexivity.
Defined.

End CropperDemo.

(** ** [KeypointScaler.process] *)

Section ScalerFacts.

Import KeypointScaler.
Context `{ext : Externals}.
Local Open Scope Q_scope.

(** *** The arithmetic *)

Lemma np_sum_axis0_from (kp : points) (s : Q * Q) :
  row_eq (fold_left (fun s p => (fst s + fst p, snd s + snd p)) kp s)
         (fst s + fold_right Qplus 0 (map fst kp),
          snd s + fold_right Qplus 0 (map snd kp)).
Proof.
  revert s.
  induction kp as [|p kp IH]; intros s; cbn [fold_left map fold_right].
  - split; cbn; ring.
  - destruct (IH (fst s + fst p, snd s + snd p)) as [H1 H2].
    split; [rewrite H1 | rewrite H2]; cbn; ring.
Qed.

(** The centroid that numpy computes is the arithmetic mean of each
    coordinate. *)
Lemma centroid_is_mean (kp : points) :
  row_eq (np_mean_axis0 kp)
         (arithmetic_mean (map fst kp), arithmetic_mean (map snd kp)).
Proof.
  unfold np_mean_axis0, np_sum_axis0, arithmetic_mean.
  destruct (np_sum_axis0_from kp (0, 0)) as [H1 H2].
  rewrite !length_map. split; cbn [fst snd] in *.
  - rewrite H1. apply Qmult_comp; [ring|reflexivity].
  - rewrite H2. apply Qmult_comp; [ring|reflexivity].
Qed.

(** The four broadcasts, row by row. *)
Lemma scale_keypoints_rows (kp : points) (ox oy : Z) (sc : Q) :
  scale_keypoints kp ox oy sc
  = map (fun p =>
           ((fst p - fst (np_mean_axis0 kp)) * sc + fst (np_mean_axis0 kp)
            + inject_Z ox,
            (snd p - snd (np_mean_axis0 kp)) * sc + snd (np_mean_axis0 kp)
            + inject_Z oy))
        kp.
Proof.
  unfold scale_keypoints, np_add_row, np_mul_scalar, np_sub_row.
  rewrite !List.map_map. reflexivity.
Qed.

(** *** The store *)

Lemma fresh_is_new (h : heap) (l : loc) (o : obj) :
  h !! l = Some o -> fresh (dom h) <> l.
Proof.
  intros H E. apply (is_fresh (dom h)). rewrite E.
  apply elem_of_dom. eauto.
Qed.

(** What a call on a well-formed CROPINFO returns and leaves behind. *)
Lemma process_run (h : heap) (ci inner lmk : loc) (di : gmap string loc)
    (kp : points) (ox oy : Z) (sc : Q) :
  well_formed h ci inner lmk di kp ->
  process ci ox oy sc h
  = (Ok (ci, render (circle_centres (scale_keypoints kp ox oy sc))),
     <[inner := ODict (<["lmk_crop" := fresh (dom h)]> di)]>
       (<[fresh (dom h) := OArray (scale_keypoints kp ox oy sc)]> h)).
Proof.
  intros [(d & Hd & Hk) Hi He Ha].
  unfold process, bind, subscript, copy, rows, alloc, store_item, ret.
  rewrite Hd, Hk, Hi, He, Ha.
  rewrite (lookup_insert_ne h _ ci) by (eapply fresh_is_new; eauto).
  rewrite Hd, Hk.
  rewrite (lookup_insert_ne h _ inner) by (eapply fresh_is_new; eauto).
  rewrite Hi. reflexivity.
Qed.

(** A dictionary without the entry ["crop_info"] is rejected before
    anything is changed.  The dictionary that [LivePortraitCropper]
    returns is of that kind: its entries are ["crop_info_list"] and
    ["driving_landmark_list"]. *)
Lemma process_without_entry (h : heap) (ci : loc) (d : gmap string loc)
    (ox oy : Z) (sc : Q) :
  h !! ci = Some (ODict d) ->
  d !! "crop_info" = None ->
  process ci ox oy sc h = (Raise (KeyError "crop_info"), h).
Proof.
  intros Hd Hk. unfold process, bind, subscript. rewrite Hd, Hk. reflexivity.
Qed.

(** Reading the landmarks back through the dictionary after the call. *)
Lemma landmarks_after (h : heap) (ci inner lmk : loc) (di : gmap string loc)
    (kp : points) (final : points) :
  well_formed h ci inner lmk di kp ->
  let h' := <[inner := ODict (<["lmk_crop" := fresh (dom h)]> di)]>
              (<[fresh (dom h) := OArray final]> h) in
  lmk_ref h' ci = Some (fresh (dom h))
  /\ landmarks h' ci = Some final.
Proof.
  intros [(d & Hd & Hk) Hi He Ha] h'.
  assert (Hnew : fresh (dom h) <> inner) by (eapply fresh_is_new; eauto).
  assert (Hinner : h' !! inner
                   = Some (ODict (<["lmk_crop" := fresh (dom h)]> di)))
    by apply lookup_insert_eq.
  assert (Hout : exists d', h' !! ci = Some (ODict d')
                            /\ d' !! "crop_info" = Some inner).
  { destruct (decide (inner = ci)) as [->|Hne].
    - eexists. split; [exact Hinner|].
      rewrite lookup_insert_ne by discriminate. congruence.
    - exists d. split; [|exact Hk]. unfold h'.
      rewrite lookup_insert_ne by exact Hne.
      rewrite lookup_insert_ne by (eapply fresh_is_new; eauto). exact Hd. }
  destruct Hout as (d' & Hd' & Hk').
  assert (Href : lmk_ref h' ci = Some (fresh (dom h))).
  { unfold lmk_ref. rewrite Hd', Hk', Hinner. apply lookup_insert_eq. }
  split; [exact Href|].
  unfold landmarks. rewrite Href. unfold h'.
  rewrite lookup_insert_ne by (intros E; apply Hnew; symmetry; exact E).
  rewrite lookup_insert_eq. reflexivity.
Qed.

(** C9: on a well-formed CROPINFO, [process] returns, and the landmarks
    then found in the dictionary are, row by row, the input landmark
    minus the centroid, times [scale], plus the centroid, plus
    [(offset_x, offset_y)], where the centroid is the arithmetic mean of
    the input landmarks; with [scale] one and both offsets zero every
    row equals the input row.  Arithmetic is over the rationals. *)
Theorem scaler_landmark_formula (h : heap) (ci inner lmk : loc)
    (di : gmap string loc) (kp : points) (ox oy : Z) (sc : Q) :
  well_formed h ci inner lmk di kp ->
  let cx := arithmetic_mean (map fst kp) in
  let cy := arithmetic_mean (map snd kp) in
  exists img final,
    fst (process ci ox oy sc h) = Ok (ci, img)
    /\ landmarks (snd (process ci ox oy sc h)) ci = Some final
    /\ length final = length kp
    /\ (forall i p,
          kp !! i = Some p ->
          exists q,
            final !! i = Some q
            /\ row_eq q ((fst p - cx) * sc + cx + inject_Z ox,
                         (snd p - cy) * sc + cy + inject_Z oy))
    /\ (sc == 1 -> ox = 0%Z -> oy = 0%Z ->
        forall i p,
          kp !! i = Some p -> exists q, final !! i = Some q /\ row_eq q p).
Proof.
  intros Hwf cx cy.
  rewrite (process_run h ci inner lmk di kp ox oy sc Hwf). cbn [fst snd].
  destruct (landmarks_after h ci inner lmk di kp
              (scale_keypoints kp ox oy sc) Hwf) as [_ Hl].
  eexists. exists (scale_keypoints kp ox oy sc).
  split; [reflexivity|]. split; [exact Hl|].
  rewrite scale_keypoints_rows.
  destruct (centroid_is_mean kp) as [Hx Hy]. cbn [fst snd] in Hx, Hy.
  fold cx in Hx. fold cy in Hy.
  split; [apply length_map|]. split.
  - intros i p Hp. eexists. split.
    + rewrite list_lookup_fmap_Some. exists p. split; [reflexivity|exact Hp].
    + split; cbn [fst snd]; [rewrite Hx | rewrite Hy]; reflexivity.
  - intros Hsc -> -> i p Hp. eexists. split.
    + rewrite list_lookup_fmap_Some. exists p. split; [reflexivity|exact Hp].
    + split; cbn [fst snd]; rewrite Hsc; unfold inject_Z; ring.
Qed.


(** *** Aliasing *)

(** Whatever is reached from elsewhere is reached through a last entry. *)
Lemma reach_last_entry (h : heap) (l l' : loc) :
  reach h l l' ->
  l = l' \/ exists l0 d k, h !! l0 = Some (ODict d) /\ d !! k = Some l'.
Proof.
  induction 1 as [l|l d k l1 l2 Hd Hk _ [->|IH]]; eauto 6.
Qed.

(** C10: [process] returns the address it was given, so the caller's
    dictionary is the returned one.  After the call the entry
    ["lmk_crop"] of its inner dictionary holds a new array, the
    transformed landmarks; every other entry and every other object is
    as before, the old array included.  If the old array was referenced
    from that entry only, it can no longer be reached from the
    dictionary. *)
Theorem scaler_overwrites_input (h : heap) (ci inner lmk : loc)
    (di : gmap string loc) (kp : points) (ox oy : Z) (sc : Q) :
  well_formed h ci inner lmk di kp ->
  let h' := snd (process ci ox oy sc h) in
  let new := fresh (dom h) in
  (exists img, fst (process ci ox oy sc h) = Ok (ci, img))
  /\ lmk_ref h ci = Some lmk
  /\ lmk_ref h' ci = Some new
  /\ new <> lmk
  /\ h !! new = None
  /\ h' !! new = Some (OArray (scale_keypoints kp ox oy sc))
  /\ h' !! inner = Some (ODict (<["lmk_crop" := new]> di))
  /\ (forall l, l <> inner -> l <> new -> h' !! l = h !! l)
  /\ h' !! lmk = Some (OArray kp)
  /\ ((forall l d k, h !! l = Some (ODict d) -> d !! k = Some lmk ->
                     l = inner /\ k = "lmk_crop") ->
      reach h ci lmk /\ ~ reach h' ci lmk).
Proof.
  intros Hwf h' new. unfold h'.
  rewrite (process_run h ci inner lmk di kp ox oy sc Hwf). cbn [fst snd].
  clear h'. fold new.
  set (h' := <[inner := ODict (<["lmk_crop" := new]> di)]>
               (<[new := OArray (scale_keypoints kp ox oy sc)]> h)).
  destruct (landmarks_after h ci inner lmk di kp
              (scale_keypoints kp ox oy sc) Hwf) as [Href _].
  fold new in Href. fold h' in Href.
  destruct Hwf as [(d & Hd & Hk) Hi He Ha].
  assert (Hnew_inner : new <> inner) by (eapply fresh_is_new; eauto).
  assert (Hnew_lmk : new <> lmk) by (eapply fresh_is_new; eauto).
  assert (Hnone : h !! new = None).
  { apply not_elem_of_dom. apply is_fresh. }
  assert (Hh'new : h' !! new = Some (OArray (scale_keypoints kp ox oy sc))).
  { unfold h'. rewrite lookup_insert_ne by congruence.
    apply lookup_insert_eq. }
  assert (Hh'inner : h' !! inner = Some (ODict (<["lmk_crop" := new]> di)))
    by apply lookup_insert_eq.
  assert (Hother : forall l, l <> inner -> l <> new -> h' !! l = h !! l).
  { intros l H1 H2. unfold h'. rewrite !lookup_insert_ne by congruence.
    reflexivity. }
  assert (Hlmk_inner : lmk <> inner) by congruence.
  split; [eauto|]. split.
  { unfold lmk_ref. rewrite Hd, Hk, Hi. exact He. }
  split; [exact Href|]. split; [exact Hnew_lmk|]. split; [exact Hnone|].
  split; [exact Hh'new|]. split; [exact Hh'inner|]. split; [exact Hother|].
  split.
  { rewrite Hother by congruence. exact Ha. }
  intros Honly. split.
  - eapply reach_entry; [exact Hd|exact Hk|].
    eapply reach_entry; [exact Hi|exact He|]. apply reach_here.
  - intros Hreach.
    destruct (reach_last_entry _ _ _ Hreach) as [E|(l0 & d0 & k0 & Hd0 & Hk0)].
    + congruence.
    + destruct (decide (l0 = inner)) as [->|Hne1].
      * rewrite Hh'inner in Hd0. injection Hd0 as <-.
        destruct (decide (k0 = "lmk_crop")) as [->|Hk0ne].
        -- rewrite lookup_insert_eq in Hk0. congruence.
        -- rewrite lookup_insert_ne in Hk0 by congruence.
           destruct (Honly _ _ _ Hi Hk0) as [_ ?]. contradiction.
      * destruct (decide (l0 = new)) as [->|Hne2].
        -- rewrite Hh'new in Hd0. discriminate Hd0.
        -- rewrite Hother in Hd0 by assumption.
           destruct (Honly _ _ _ Hd0 Hk0) as [? _]. contradiction.
Qed.

End ScalerFacts.

(** *** The store of [Demo] *)

Section ScalerDemo.

Import KeypointScaler.
#[local] Existing Instance Demo.scaler_ext.

Lemma demo_store_well_formed :
  well_formed Demo.store 1%positive 2%positive 3%positive
              {[ "lmk_crop" := 3%positive ]} Demo.square.
Proof.
  split.
  - exists {[ "crop_info" := 2%positive ]}. split; reflexivity.
  - reflexivity.
  - reflexivity.
  - reflexivity.
Qed.

Lemma demo_store_single_reference (l : positive) (d : gmap string positive)
    (k : string) :
  Demo.store !! l = Some (ODict d) ->
  d !! k = Some 3%positive ->
  l = 2%positive /\ k = "lmk_crop".
Proof.
  unfold Demo.store. intros Hl Hk.
  destruct (decide (l = 1%positive)) as [->|H1].
  { rewrite lookup_insert_eq in Hl. injection Hl as <-.
    apply lookup_singleton_Some in Hk. destruct Hk as [_ Hk]. discriminate Hk. }
  rewrite lookup_insert_ne in Hl by congruence.
  destruct (decide (l = 2%positive)) as [->|H2].
  { rewrite lookup_insert_eq in Hl. injection Hl as <-.
    apply lookup_singleton_Some in Hk. destruct Hk as [<- _]. auto. }
  rewrite lookup_insert_ne in Hl by congruence.
  destruct (decide (l = 3%positive)) as [->|H3].
  { rewrite lookup_insert_eq in Hl. discriminate Hl. }
  rewrite lookup_insert_ne in Hl by congruence.
  rewrite lookup_empty in Hl. discriminate Hl.
Qed.

(** Doubling the square about its centre [(1, 1)] and moving it by
    [(1, -1)] sends the corner [(0, 0)] to [(0, -2)]. *)
Lemma scaler_landmark_formula_witness :
  exists final q,
    landmarks (snd (process 1%positive 1 (-1) 2 Demo.store)) 1%positive
    = Some final
    /\ final !! 0%nat = Some q
    /\ row_eq q (0, - 2)%Q.
Proof.
  destruct (scaler_landmark_formula _ _ _ _ _ _ 1 (-1) 2
                                    demo_store_well_formed)
    as (img & final & _ & Hl & _ & Hrows & _).
  destruct (Hrows 0%nat (0, 0)%Q eq_refl) as (q & Hq & [Hx Hy]).
  exists final, q. split; [exact Hl|]. split; [exact Hq|].
  split; cbn [fst snd] in *.
  - rewrite Hx. vm_compute. reflexivity.
  - rewrite Hy. vm_compute. reflexivity.
Defined.

Lemma scaler_overwrites_input_witness :
  reach Demo.store 1%positive 3%positive
  /\ ~ reach (snd (process 1%positive 0 0 1 Demo.store)) 1%positive 3%positive.
Proof.
  apply (scaler_overwrites_input _ _ _ _ _ _ 0%Z 0%Z 1%Q
                                 demo_store_well_formed).
  exact demo_store_single_reference.
Defined.

End ScalerDemo.

(** ** [filter_checkpoint_for_model] *)

Section CheckpointFacts.

Import Checkpoint.

(** *** [startswith] and [replace] *)

Lemma prefix_app (p s : string) : String.prefix p (p ++ s)%string = true.
Proof.
  induction p as [|c p IH]; simpl.
  - destruct s; reflexivity.
  - destruct (Ascii.ascii_dec c c); [exact IH|congruence].
Qed.

Lemma prefix_split (p s : string) :
  String.prefix p s = true -> exists r, s = (p ++ r)%string.
Proof.
  revert s. induction p as [|c p IH]; intros s H.
  - exists s. reflexivity.
  - destruct s as [|c' s]; simpl in H; [discriminate|].
    destruct (Ascii.ascii_dec c c') as [->|]; [|discriminate].
    destruct (IH s H) as [r ->]. exists r. reflexivity.
Qed.

Lemma replace_from_skip (old new a b : string) :
  replace_from old new (String.length a) (a ++ b)%string
  = replace_from old new 0 b.
Proof.
  induction a as [|c a IH]; simpl; [reflexivity|exact IH].
Qed.

(** A match at the front is replaced and the scan goes on behind it. *)
Lemma str_replace_match (old new rest : string) :
  old <> EmptyString ->
  str_replace old new (old ++ rest)%string
  = (new ++ str_replace old new rest)%string.
Proof.
  intros Hne. destruct old as [|c o]; [congruence|].
  unfold str_replace.
  change (String c o ++ rest)%string with (String c (o ++ rest)%string).
  cbn [replace_from].
  change (String c (o ++ rest)%string) with (String c o ++ rest)%string.
  rewrite prefix_app.
  replace (String.length (String c o) - 1)%nat with (String.length o)
    by (simpl; lia).
  rewrite replace_from_skip. reflexivity.
Qed.

(** Where [old] does not occur nothing changes. *)
Lemma str_replace_free (old new s : string) :
  old <> EmptyString ->
  free_of old s = true ->
  str_replace old new s = s.
Proof.
  intros Hne. destruct old as [|c o]; [congruence|]. clear Hne.
  unfold str_replace. induction s as [|c' s IH]; intros H.
  - reflexivity.
  - cbn [free_of] in H. apply andb_true_iff in H. destruct H as [Hp Hs].
    apply negb_true_iff in Hp. cbn [replace_from]. rewrite Hp.
    rewrite (IH Hs). reflexivity.
Qed.

Lemma pattern_not_empty (prefix : string) :
  (prefix ++ "_module.")%string <> EmptyString.
Proof. destruct prefix; discriminate. Qed.

Lemma str_append_assoc (a b c : string) :
  ((a ++ b) ++ c)%string = (a ++ (b ++ c))%string.
Proof.
  induction a as [|x a IH]; [reflexivity|].
  change (String x ((a ++ b) ++ c)%string = String x (a ++ (b ++ c))%string).
  f_equal. exact IH.
Qed.

(** X1: how keys are renamed.  A key that starts with the prefix and
    ["_module."] loses that part (and whatever is left is scanned for
    further occurrences); a key in which the pattern does not occur,
    one that starts with the bare prefix for instance, keeps its
    name. *)
Theorem adjust_key_strips_pattern (prefix rest key : string) :
  adjust_key prefix (prefix ++ "_module." ++ rest)%string
  = adjust_key prefix rest
  /\ (free_of (prefix ++ "_module.")%string rest = true ->
      adjust_key prefix (prefix ++ "_module." ++ rest)%string = rest)
  /\ (free_of (prefix ++ "_module.")%string key = true ->
      adjust_key prefix key = key).
Proof.
  assert (E : adjust_key prefix (prefix ++ "_module." ++ rest)%string
              = adjust_key prefix rest).
  { unfold adjust_key. rewrite <- str_append_assoc.
    rewrite str_replace_match by apply pattern_not_empty. reflexivity. }
  split; [exact E|]. split.
  - intros H. rewrite E. unfold adjust_key.
    apply str_replace_free; [apply pattern_not_empty|exact H].
  - intros H. unfold adjust_key.
    apply str_replace_free; [apply pattern_not_empty|exact H].
Qed.


(** *** The comprehension *)

Section Comprehension.

Context {V : Type}.

(** One step of the comprehension, and the fold from any dictionary. *)
Lemma filter_from_source (items : list (string * V)) (prefix : string)
    (acc : gmap string V) (k' : string) (v : V) :
  fold_left
    (fun filtered item =>
       if String.prefix prefix (fst item)
       then <[adjust_key prefix (fst item) := snd item]> filtered
       else filtered)
    items acc !! k' = Some v ->
  acc !! k' = Some v
  \/ exists k, In (k, v) items /\ String.prefix prefix k = true
               /\ k' = adjust_key prefix k.
Proof.
  revert acc. induction items as [|[k0 v0] items IH]; intros acc H.
  - left. exact H.
  - cbn [fold_left fst snd] in H. apply IH in H.
    destruct H as [H|(k & Hin & Hp & Hk)].
    + destruct (String.prefix prefix k0) eqn:Hp; [|left; exact H].
      destruct (decide (adjust_key prefix k0 = k')) as [<-|Hne].
      * rewrite lookup_insert_eq in H. injection H as ->.
        right. exists k0. split; [left; reflexivity|]. auto.
      * rewrite lookup_insert_ne in H by exact Hne. left. exact H.
    + right. exists k. split; [right; exact Hin|]. auto.
Qed.

Lemma filter_keeps (items : list (string * V)) (prefix : string)
    (acc : gmap string V) (k' : string) :
  (forall k v, In (k, v) items -> String.prefix prefix k = true ->
               adjust_key prefix k <> k') ->
  fold_left
    (fun filtered item =>
       if String.prefix prefix (fst item)
       then <[adjust_key prefix (fst item) := snd item]> filtered
       else filtered)
    items acc !! k' = acc !! k'.
Proof.
  revert acc. induction items as [|[k0 v0] items IH]; intros acc H.
  - reflexivity.
  - cbn [fold_left fst snd]. rewrite IH.
    + destruct (String.prefix prefix k0) eqn:Hp; [|reflexivity].
      apply lookup_insert_ne. apply (H k0 v0); [left; reflexivity|exact Hp].
    + intros k v Hin. apply (H k v). right. exact Hin.
Qed.

(** X2: every entry of a filtered checkpoint is the tensor of an item of
    the checkpoint whose key starts with the prefix, stored under the
    adjusted key. *)
Theorem filtered_entries_come_from_prefix (checkpoint : list (string * V))
    (prefix k' : string) (v : V) :
  filter_checkpoint_for_model checkpoint prefix !! k' = Some v ->
  exists k, In (k, v) checkpoint /\ String.prefix prefix k = true
            /\ k' = adjust_key prefix k.
Proof.
  intros H. unfold filter_checkpoint_for_model in H.
  apply filter_from_source in H. destruct H as [H|H]; [|exact H].
  rewrite lookup_empty in H. discriminate H.
Qed.

(** X3: an item whose key starts with the prefix is found in the
    filtered checkpoint under its adjusted key, unless a later item of
    the checkpoint is given the same adjusted key; then the later one
    wins. *)
Theorem filtered_last_item_wins (before after : list (string * V))
    (prefix k : string) (v : V) :
  String.prefix prefix k = true ->
  (forall k2 v2, In (k2, v2) after -> String.prefix prefix k2 = true ->
                 adjust_key prefix k2 <> adjust_key prefix k) ->
  filter_checkpoint_for_model (before ++ (k, v) :: after) prefix
  !! adjust_key prefix k = Some v.
Proof.
  intros Hp Hafter. unfold filter_checkpoint_for_model.
  rewrite fold_left_app. cbn [fold_left fst snd]. rewrite Hp.
  rewrite filter_keeps by exact Hafter. apply lookup_insert_eq.
Qed.

End Comprehension.

(** X4: no key starts with two of the three prefixes that [loadmodel]
    uses, so each item of the combined checkpoint goes to at most one of
    the stitching, lip and eye networks. *)
Theorem three_prefixes_exclusive (key : string) :
  ((if String.prefix stitcher_prefix key then 1 else 0)
   + (if String.prefix lip_prefix key then 1 else 0)
   + (if String.prefix eye_prefix key then 1 else 0) <= 1)%nat.
Proof.
  unfold stitcher_prefix, lip_prefix, eye_prefix.
  destruct (String.prefix "retarget_shoulder" key) eqn:Hs.
  - apply prefix_split in Hs. destruct Hs as [r ->]. simpl. lia.
  - destruct (String.prefix "retarget_mouth" key) eqn:Hl.
    + apply prefix_split in Hl. destruct Hl as [r ->]. simpl. lia.
    + destruct (String.prefix "retarget_eye" key); simpl; lia.
Qed.

End CheckpointFacts.

(** *** The checkpoint of [DemoExtra] *)

Section CheckpointDemo.

Import Checkpoint.

Lemma adjust_key_strips_pattern_witness :
  adjust_key "retarget_eye" "retarget_eye_module.mlp.0.weight"
  = "mlp.0.weight"
  /\ adjust_key "retarget_eye" "retarget_eye" = "retarget_eye".
Proof.
  split.
  - apply (proj1 (proj2 (adjust_key_strips_pattern
                           "retarget_eye" "mlp.0.weight" ""))).
    reflexivity.
  - apply (proj2 (proj2 (adjust_key_strips_pattern
                           "retarget_eye" "" "retarget_eye"))).
    reflexivity.
Defined.

Lemma filtered_entries_come_from_prefix_witness :
  exists k,
    In (k, 2%nat) DemoExtra.checkpoint
    /\ String.prefix "retarget_mouth" k = true
    /\ "mlp.0.weight" = adjust_key "retarget_mouth" k.
Proof.
  apply (filtered_entries_come_from_prefix DemoExtra.checkpoint).
  vm_compute. reflexivity.
Defined.

(** Both eye keys of the checkpoint are renamed to ["w"]; the tensor of
    the second one is the one that is loaded. *)
Lemma filtered_last_item_wins_witness :
  adjust_key "retarget_eye" "retarget_eye_module.retarget_eye_module.w" = "w"
  /\ filter_checkpoint_for_model DemoExtra.checkpoint "retarget_eye" !! "w"
     = Some 4%nat.
Proof.
  split; [reflexivity|].
  apply (filtered_last_item_wins
           [("retarget_shoulder_module.mlp.0.weight", 1%nat);
            ("retarget_mouth_module.mlp.0.weight", 2%nat);
            ("retarget_eye_module.retarget_eye_module.w", 3%nat)]
           [("retarget_shoulder_module.mlp.0.bias", 5%nat)]
           "retarget_eye" "retarget_eye_module.w" 4%nat).
  - reflexivity.
  - intros k2 v2 [H|[]] Hp. injection H as <- _. discriminate Hp.
Defined.

End CheckpointDemo.

(** ** [KeypointsToImage.drawkeypoints] *)

Section KeypointsToImageFacts.

Import KeypointsToImage.
Context `{ext : Externals}.
Local Open Scope Q_scope.

Lemma py_int_below (x : Q) (bound : Z) :
  Qle_bool 0 x = true ->
  KeypointScaler.Qlt_bool x (inject_Z bound) = true ->
  (0 <= KeypointScaler.py_int x < bound)%Z.
Proof.
  unfold KeypointScaler.Qlt_bool. rewrite negb_true_iff. intros H0 Hb.
  apply Qle_bool_iff in H0.
  assert (Hlt : x < inject_Z bound).
  { apply Qnot_le_lt. intros Hle. apply Qle_bool_iff in Hle. congruence. }
  destruct x as [n d]. unfold Qle, Qlt in *. cbn [Qnum Qden inject_Z] in *.
  unfold KeypointScaler.py_int. cbn [Qnum Qden].
  assert (Hn : (0 <= n)%Z) by lia.
  rewrite Z.quot_div_nonneg by lia. split.
  - apply Z.div_pos; lia.
  - apply Z.div_lt_upper_bound; lia.
Qed.

Lemma circle_centres_in_frame (width height : Z)
    (keypoints : KeypointScaler.points) :
  Forall (fun c => (0 <= fst c < width)%Z /\ (0 <= snd c < height)%Z)
         (circle_centres width height keypoints).
Proof.
  unfold circle_centres.
  induction keypoints as [|p kp IH]; [constructor|].
  cbn [List.filter]. destruct (inside width height p) eqn:Hin; [|exact IH].
  cbn [map]. constructor; [|exact IH].
  unfold inside in Hin. apply andb_true_iff in Hin. destruct Hin as [Hx Hy].
  apply andb_true_iff in Hx. apply andb_true_iff in Hy.
  destruct Hx, Hy. cbn [fst snd]. split; apply py_int_below; assumption.
Qed.

(** *** The loop *)

Lemma positive_size (height width : Z) :
  (0 < height)%Z -> (0 < width)%Z ->
  ((height <? 0) || (width <? 0))%Z = false
  /\ ((height =? 0) || (width =? 0))%Z = false.
Proof.
  intros Hh Hw. split; apply orb_false_iff; split.
  - apply Z.ltb_ge. lia.
  - apply Z.ltb_ge. lia.
  - apply Z.eqb_neq. lia.
  - apply Z.eqb_neq. lia.
Qed.

(** Crops that all have landmarks are all drawn, in order, on a canvas
    of the given size, with one progress tick each. *)
Lemma draw_all_run (height width : Z) (crops : list crop)
    (kps : list KeypointScaler.points) (acc : list Image)
    (tr : list event) :
  (0 < height)%Z -> (0 < width)%Z ->
  map lmk_crop crops = map Some kps ->
  draw_all height width crops acc tr
  = (Ok (acc ++ map (fun kp => render height width
                                      (circle_centres width height kp)) kps),
     tr ++ repeat PbarUpdate (length kps)).
Proof.
  intros Hh Hw. destruct (positive_size height width Hh Hw) as [Hneg Hzero].
  revert kps acc tr. induction crops as [|c crops IH]; intros kps acc tr Hm.
  - destruct kps; [|discriminate Hm]. cbn. rewrite !app_nil_r. reflexivity.
  - destruct kps as [|kp kps]; [discriminate Hm|].
    cbn [map] in Hm. injection Hm as Hc Hm.
    cbn [draw_all]. unfold bind at 1. unfold draw_one, bind, subscript.
    rewrite Hc. cbn. rewrite Hneg, Hzero. cbn.
    rewrite (IH kps _ _ Hm). rewrite <- !app_assoc. reflexivity.
Qed.

(** The first crop without landmarks stops the loop. *)
Lemma draw_all_missing (height width : Z) (good : list crop)
    (kps : list KeypointScaler.points) (bad : crop) (rest : list crop)
    (acc : list Image) (tr : list event) :
  (0 < height)%Z -> (0 < width)%Z ->
  map lmk_crop good = map Some kps ->
  lmk_crop bad = None ->
  draw_all height width (good ++ bad :: rest) acc tr
  = (Raise (KeyError "lmk_crop"), tr ++ repeat PbarUpdate (length kps)).
Proof.
  intros Hh Hw. destruct (positive_size height width Hh Hw) as [Hneg Hzero].
  revert kps acc tr. induction good as [|c good IH]; intros kps acc tr Hm Hb.
  - destruct kps; [|discriminate Hm]. cbn [app draw_all].
    unfold bind at 1. unfold draw_one, bind, subscript. rewrite Hb. cbn.
    rewrite app_nil_r. reflexivity.
  - destruct kps as [|kp kps]; [discriminate Hm|].
    cbn [map] in Hm. injection Hm as Hc Hm.
    cbn [app draw_all]. unfold bind at 1. unfold draw_one, bind, subscript.
    rewrite Hc. cbn. rewrite Hneg, Hzero. cbn.
    rewrite (IH kps _ _ Hm Hb). rewrite <- !app_assoc. reflexivity.
Qed.

(** X5: when the first crop records a positive size and every crop has
    landmarks, [drawkeypoints] returns one frame per crop, in order, and
    draws every one of them on a canvas of the first crop's size,
    whatever the other crops record; every circle centre lies on that
    canvas.  The progress bar is created with the number of entries of
    the dictionary and advanced once per crop. *)
Theorem drawkeypoints_frames (ci : cropinfo) (first : crop)
    (rest : list crop) (height width : Z)
    (kps : list KeypointScaler.points) (tr : list event) :
  crop_info_list ci = Some (first :: rest) ->
  input_image_size first = Some (height, width) ->
  (0 < height)%Z -> (0 < width)%Z ->
  map lmk_crop (first :: rest) = map Some kps ->
  drawkeypoints ci tr
  = (Ok (stack_div255_float
           (map (fun kp => render height width
                                  (circle_centres width height kp)) kps)),
     tr ++ PbarInit (len ci) :: repeat PbarUpdate (length kps))
  /\ length kps = S (length rest)
  /\ Forall (fun kp =>
               Forall (fun c => (0 <= fst c < width)%Z
                                /\ (0 <= snd c < height)%Z)
                      (circle_centres width height kp)) kps.
Proof.
  intros Hl Hs Hh Hw Hm. split; [|split].
  - unfold drawkeypoints, bind, subscript. rewrite Hl. cbn -[draw_all].
    rewrite Hs. cbn -[draw_all].
    rewrite (draw_all_run height width (first :: rest) kps [] _ Hh Hw Hm).
    cbn. rewrite <- app_assoc. reflexivity.
  - apply (f_equal (@length _)) in Hm. rewrite !length_map in Hm.
    cbn in Hm. lia.
  - apply List.Forall_forall. intros kp _. apply circle_centres_in_frame.
Qed.

(** X6: what [drawkeypoints] does with a dictionary it cannot draw.
    Without ['crop_info_list'] it raises [KeyError]; with an empty list
    [IndexError]; when the first crop has no ['input_image_size']
    [KeyError]; and when some crop has no ['lmk_crop'] it raises
    [KeyError] at that crop and returns nothing, although the crops
    before it have been drawn and counted. *)
Theorem drawkeypoints_errors (ci : cropinfo) (tr : list event) :
  (crop_info_list ci = None ->
   drawkeypoints ci tr = (Raise (KeyError "crop_info_list"), tr))
  /\ (crop_info_list ci = Some [] ->
      drawkeypoints ci tr = (Raise IndexError, tr))
  /\ (forall first rest,
         crop_info_list ci = Some (first :: rest) ->
         input_image_size first = None ->
         drawkeypoints ci tr = (Raise (KeyError "input_image_size"), tr))
  /\ (forall good bad rest kps height width,
         crop_info_list ci = Some (good ++ bad :: rest) ->
         (hd bad good).(input_image_size) = Some (height, width) ->
         (0 < height)%Z -> (0 < width)%Z ->
         map lmk_crop good = map Some kps ->
         lmk_crop bad = None ->
         drawkeypoints ci tr
         = (Raise (KeyError "lmk_crop"),
            tr ++ PbarInit (len ci) :: repeat PbarUpdate (length kps))).
Proof.
  split; [|split; [|split]].
  - intros Hl. unfold drawkeypoints, bind, subscript. rewrite Hl. reflexivity.
  - intros Hl. unfold drawkeypoints, bind, subscript. rewrite Hl. reflexivity.
  - intros first rest Hl Hs. unfold drawkeypoints, bind, subscript.
    rewrite Hl. cbn. rewrite Hs. reflexivity.
  - intros good bad rest kps height width Hl Hs Hh Hw Hm Hb.
    unfold drawkeypoints, bind, subscript. rewrite Hl.
    assert (E : exists c l, good ++ bad :: rest = c :: l /\ c = hd bad good).
    { destruct good; cbn; eauto. }
    destruct E as (c & l & E & Hc). rewrite <- Hc in Hs.
    rewrite E. cbn -[draw_all]. rewrite Hs. cbn -[draw_all]. rewrite <- E.
    rewrite (draw_all_missing height width good kps bad rest [] _
                              Hh Hw Hm Hb).
    cbn. rewrite <- app_assoc. reflexivity.
Qed.

End KeypointsToImageFacts.

(** *** The dictionaries of [DemoExtra] *)

Section KeypointsToImageDemo.

Import KeypointsToImage.
#[local] Existing Instance DemoExtra.draw_ext.

(** Both frames are drawn on the canvas of height 2 and width 3 of the
    first crop: of the square, the corners [(0, 0)] and [(2, 0)] are on
    it. *)
Lemma drawkeypoints_frames_witness :
  drawkeypoints DemoExtra.two_crops []
  = (Ok [[(0, 0); (2, 0)]; [(0, 1)]]%Z, [PbarInit 2; PbarUpdate; PbarUpdate]).
Proof.
  apply (drawkeypoints_frames (ext := DemoExtra.draw_ext) DemoExtra.two_crops
           {| input_image_size := Some (2, 3)%Z;
              lmk_crop := Some Demo.square |}
           [ {| input_image_size := Some (512, 512)%Z;
                lmk_crop := Some [(1 # 2, 3 # 2)%Q] |} ]
           2%Z 3%Z [Demo.square; [(1 # 2, 3 # 2)%Q]] []).
  - reflexivity.
  - reflexivity.
  - lia.
  - lia.
  - reflexivity.
Defined.

Lemma drawkeypoints_errors_witness :
  drawkeypoints DemoExtra.crop_without_landmarks []
  = (Raise (KeyError "lmk_crop"), [PbarInit 2; PbarUpdate]).
Proof.
  apply (proj2 (proj2 (proj2 (drawkeypoints_errors
                                (ext := DemoExtra.draw_ext)
                                DemoExtra.crop_without_landmarks [])))
           [ {| input_image_size := Some (2, 3)%Z;
                lmk_crop := Some Demo.square |} ]
           {| input_image_size := Some (512, 512)%Z; lmk_crop := None |}
           [] [Demo.square] 2%Z 3%Z).
  - reflexivity.
  - reflexivity.
  - lia.
  - lia.
  - reflexivity.
  - reflexivity.
Defined.

End KeypointsToImageDemo.

(** ** More on [KeypointScaler.process] *)

Section ScalerAlgebra.

Import KeypointScaler.
Local Open Scope Q_scope.

Lemma count_nonzero {A} (xs : list A) :
  xs <> [] -> ~ inject_Z (Z.of_nat (length xs)) == 0.
Proof.
  destruct xs as [|x xs]; [congruence|]. intros _.
  unfold Qeq. cbn [Qnum Qden inject_Z length]. lia.
Qed.

Lemma count_succ (n : nat) :
  inject_Z (Z.of_nat (S n)) == inject_Z (Z.of_nat n) + 1.
Proof.
  rewrite Nat2Z.inj_succ. unfold Z.succ. rewrite inject_Z_plus. reflexivity.
Qed.

(** The sum of a column after scaling about [c] and moving by [o]. *)
Lemma sum_scaled (xs : list Q) (c s o : Q) :
  fold_right Qplus 0 (map (fun x => (x - c) * s + c + o) xs)
  == fold_right Qplus 0 xs * s
     + inject_Z (Z.of_nat (length xs)) * (c + o - c * s).
Proof.
  induction xs as [|x xs IH].
  - cbn. ring.
  - cbn [map fold_right length]. rewrite IH, count_succ. ring.
Qed.

(** Scaling a column about its own mean and moving it by [o] moves the
    mean by [o]. *)
Lemma mean_scaled (xs : list Q) (c s o : Q) :
  xs <> [] ->
  c == arithmetic_mean xs ->
  arithmetic_mean (map (fun x => (x - c) * s + c + o) xs) == c + o.
Proof.
  intros Hne Hc. unfold arithmetic_mean in *.
  rewrite length_map, sum_scaled.
  pose proof (count_nonzero xs Hne) as Hn.
  set (n := inject_Z (Z.of_nat (length xs))) in *.
  set (S := fold_right Qplus 0 xs) in *.
  assert (HS : S == c * n) by (rewrite Hc; field; exact Hn).
  rewrite HS. field. exact Hn.
Qed.

Lemma scale_keypoints_nil (ox oy : Z) (sc : Q) :
  scale_keypoints [] ox oy sc = [].
Proof. reflexivity. Qed.

Lemma scale_keypoints_length (kp : points) (ox oy : Z) (sc : Q) :
  length (scale_keypoints kp ox oy sc) = length kp.
Proof. rewrite scale_keypoints_rows. apply length_map. Qed.

(** X7: computed over exact arithmetic (the rationals; numpy's rounding
    is not modelled), the centroid of the transformed landmarks is the
    centroid of the input moved by the offset, whatever the scale. *)
Theorem scale_keypoints_centroid (kp : points) (ox oy : Z) (sc : Q) :
  kp <> [] ->
  row_eq (np_mean_axis0 (scale_keypoints kp ox oy sc))
         (fst (np_mean_axis0 kp) + inject_Z ox,
          snd (np_mean_axis0 kp) + inject_Z oy).
Proof.
  intros Hne.
  destruct (centroid_is_mean kp) as [Hx Hy].
  destruct (centroid_is_mean (scale_keypoints kp ox oy sc)) as [Hx' Hy'].
  cbn [fst snd] in *.
  split; cbn [fst snd].
  - rewrite Hx'. rewrite scale_keypoints_rows, List.map_map. cbn [fst].
    rewrite <- (List.map_map fst
                  (fun x => (x - fst (np_mean_axis0 kp)) * sc
                            + fst (np_mean_axis0 kp) + inject_Z ox)).
    apply mean_scaled; [|exact Hx].
    destruct kp; [congruence|discriminate].
  - rewrite Hy'. rewrite scale_keypoints_rows, List.map_map. cbn [snd].
    rewrite <- (List.map_map snd
                  (fun y => (y - snd (np_mean_axis0 kp)) * sc
                            + snd (np_mean_axis0 kp) + inject_Z oy)).
    apply mean_scaled; [|exact Hy].
    destruct kp; [congruence|discriminate].
Qed.


(** Two passes over the landmarks: the scales multiply and the offsets
    add. *)
Lemma scale_keypoints_twice (kp : points) (ox1 oy1 ox2 oy2 : Z)
    (s1 s2 : Q) :
  Forall2 row_eq
    (scale_keypoints (scale_keypoints kp ox1 oy1 s1) ox2 oy2 s2)
    (scale_keypoints kp (ox1 + ox2) (oy1 + oy2) (s1 * s2)).
Proof.
  destruct kp as [|p0 kp0]; [constructor|].
  set (kp := p0 :: kp0).
  assert (Hne : kp <> []) by discriminate.
  destruct (scale_keypoints_centroid kp ox1 oy1 s1 Hne) as [Hx Hy].
  cbn [fst snd] in Hx, Hy.
  rewrite (scale_keypoints_rows (scale_keypoints kp ox1 oy1 s1)).
  rewrite (scale_keypoints_rows kp (ox1 + ox2) (oy1 + oy2)).
  set (c1 := np_mean_axis0 (scale_keypoints kp ox1 oy1 s1)) in *.
  rewrite (scale_keypoints_rows kp ox1 oy1 s1), List.map_map.
  set (c := np_mean_axis0 kp) in *.
  clearbody c1 c. clear Hne. subst kp.
  generalize (p0 :: kp0). intros l.
  induction l as [|p l IH]; cbn [map]; constructor; [|exact IH].
  split; cbn [fst snd].
  - rewrite Hx, inject_Z_plus. ring.
  - rewrite Hy, inject_Z_plus. ring.
Qed.

(** Scale one and no offset: every row is the input row. *)
Lemma scale_keypoints_unit (kp : points) (sc : Q) :
  sc == 1 -> Forall2 row_eq (scale_keypoints kp 0 0 sc) kp.
Proof.
  intros Hsc. rewrite scale_keypoints_rows.
  generalize (np_mean_axis0 kp). intros c.
  induction kp as [|p kp IH]; cbn [map]; constructor; [|exact IH].
  split; cbn [fst snd]; rewrite Hsc; unfold inject_Z; ring.
Qed.

Lemma row_eq_trans (p q r : Q * Q) : row_eq p q -> row_eq q r -> row_eq p r.
Proof. intros [H1 H2] [H3 H4]. split; etransitivity; eauto. Qed.

Lemma rows_eq_trans (l1 l2 l3 : points) :
  Forall2 row_eq l1 l2 -> Forall2 row_eq l2 l3 -> Forall2 row_eq l1 l3.
Proof.
  intros H. revert l3. induction H as [|p q l1 l2 Hpq _ IH]; intros l3 H23.
  - inversion H23. constructor.
  - inversion H23 as [|q' r l2' l3' Hqr Hrest]; subst.
    constructor; [eapply row_eq_trans; eauto|]. apply IH. exact Hrest.
Qed.

End ScalerAlgebra.

Section ScalerStore.

Import KeypointScaler.
Context `{ext : Externals}.
Local Open Scope Q_scope.

(** After a call the dictionary is again of the shape [process]
    expects, with the new array under ["lmk_crop"]. *)
Lemma well_formed_after (h : heap) (ci inner lmk : loc)
    (di : gmap string loc) (kp : points) (ox oy : Z) (sc : Q) :
  well_formed h ci inner lmk di kp ->
  well_formed (snd (process ci ox oy sc h)) ci inner (fresh (dom h))
              (<["lmk_crop" := fresh (dom h)]> di)
              (scale_keypoints kp ox oy sc).
Proof.
  intros Hwf. rewrite (process_run h ci inner lmk di kp ox oy sc Hwf).
  cbn [snd].
  destruct Hwf as [(d & Hd & Hk) Hi He Ha].
  assert (Hnew : fresh (dom h) <> inner) by (eapply fresh_is_new; eauto).
  split.
  - destruct (decide (inner = ci)) as [->|Hne].
    + eexists. split; [apply lookup_insert_eq|].
      rewrite lookup_insert_ne by discriminate. congruence.
    + exists d. split; [|exact Hk].
      rewrite lookup_insert_ne by exact Hne.
      rewrite lookup_insert_ne by (eapply fresh_is_new; eauto). exact Hd.
  - apply lookup_insert_eq.
  - apply lookup_insert_eq.
  - rewrite lookup_insert_ne by congruence. apply lookup_insert_eq.
Qed.

Lemma landmarks_well_formed (h : heap) (ci inner lmk : loc)
    (di : gmap string loc) (kp : points) :
  well_formed h ci inner lmk di kp -> landmarks h ci = Some kp.
Proof.
  intros [(d & Hd & Hk) Hi He Ha].
  unfold landmarks, lmk_ref. rewrite Hd, Hk, Hi, He, Ha. reflexivity.
Qed.

(** X8: computed over exact arithmetic (the rationals; numpy's rounding
    is not modelled), two calls on the same dictionary leave the
    landmarks that one call with the product of the scales and the sum
    of the offsets leaves. *)
Theorem scaler_calls_compose (h : heap) (ci inner lmk : loc)
    (di : gmap string loc) (kp : points) (ox1 oy1 ox2 oy2 : Z)
    (s1 s2 : Q) :
  well_formed h ci inner lmk di kp ->
  let h1 := snd (process ci ox1 oy1 s1 h) in
  let h2 := snd (process ci ox2 oy2 s2 h1) in
  exists twice once,
    landmarks h2 ci = Some twice
    /\ landmarks (snd (process ci (ox1 + ox2) (oy1 + oy2) (s1 * s2) h)) ci
       = Some once
    /\ Forall2 row_eq twice once.
Proof.
  intros Hwf h1 h2.
  pose proof (well_formed_after h ci inner lmk di kp ox1 oy1 s1 Hwf) as Hwf1.
  fold h1 in Hwf1.
  pose proof (well_formed_after h1 ci inner _ _ _ ox2 oy2 s2 Hwf1) as Hwf2.
  fold h2 in Hwf2.
  pose proof (well_formed_after h ci inner lmk di kp (ox1 + ox2) (oy1 + oy2)
                (s1 * s2) Hwf) as Hwf3.
  eexists. eexists.
  split; [exact (landmarks_well_formed _ _ _ _ _ _ Hwf2)|].
  split; [exact (landmarks_well_formed _ _ _ _ _ _ Hwf3)|].
  apply scale_keypoints_twice.
Qed.

(** X9: computed over exact arithmetic (the rationals; numpy's rounding
    is not modelled, and [1 / sc] is the exact inverse), a call with
    scale [sc] and offsets [(ox, oy)] followed by a call with scale
    [1 / sc] and offsets [(-ox, -oy)] brings every landmark back, as
    long as [sc] is not zero. *)
Theorem scaler_round_trip (h : heap) (ci inner lmk : loc)
    (di : gmap string loc) (kp : points) (ox oy : Z) (sc : Q) :
  well_formed h ci inner lmk di kp ->
  ~ sc == 0 ->
  let h1 := snd (process ci ox oy sc h) in
  let h2 := snd (process ci (- ox) (- oy) (/ sc) h1) in
  exists back, landmarks h2 ci = Some back /\ Forall2 row_eq back kp.
Proof.
  intros Hwf Hsc h1 h2.
  pose proof (well_formed_after h ci inner lmk di kp ox oy sc Hwf) as Hwf1.
  fold h1 in Hwf1.
  pose proof (well_formed_after h1 ci inner _ _ _ (- ox) (- oy) (/ sc) Hwf1)
    as Hwf2.
  fold h2 in Hwf2.
  eexists. split; [exact (landmarks_well_formed _ _ _ _ _ _ Hwf2)|].
  eapply rows_eq_trans; [apply scale_keypoints_twice|].
  rewrite !Z.add_opp_diag_r.
  apply scale_keypoints_unit. field. exact Hsc.
Qed.


(** X10: on any store a call either finds the dictionary in the shape it
    expects and returns, or raises and leaves the store as it was: the
    subscripts and [copy] of line 494 and [mean] of line 498 come before
    the assignment of line 509.  Six exceptions are possible.  Among
    them: an array under ["crop_info"] is refused with [IndexError], and
    a dictionary or a list under ["lmk_crop"] is copied and fails on
    line 498 with [AttributeError] for [mean]. *)
Theorem scaler_returns_or_leaves_store (h : heap) (ci : loc) (ox oy : Z)
    (sc : Q) :
  match fst (process ci ox oy sc h) with
  | Ok _ => exists inner lmk di kp, well_formed h ci inner lmk di kp
  | Raise e =>
      snd (process ci ox oy sc h) = h
      /\ In e [TypeError; IndexError; KeyError "crop_info";
               KeyError "lmk_crop"; AttributeError "copy";
               AttributeError "mean"]
  end
  /\ (forall d inner a,
        h !! ci = Some (ODict d) -> d !! "crop_info" = Some inner ->
        h !! inner = Some (OArray a) ->
        fst (process ci ox oy sc h) = Raise IndexError)
  /\ (forall d inner di lmk o,
        h !! ci = Some (ODict d) -> d !! "crop_info" = Some inner ->
        h !! inner = Some (ODict di) -> di !! "lmk_crop" = Some lmk ->
        h !! lmk = Some o -> (o = OList \/ exists dd, o = ODict dd) ->
        fst (process ci ox oy sc h) = Raise (AttributeError "mean")).
Proof.
  split; [|split].
  - destruct (h !! ci) as [o|] eqn:Hci.
    2:{ unfold process, bind, subscript. rewrite Hci. cbn. auto. }
    destruct o as [d| | |].
    2,3,4: unfold process, bind, subscript; rewrite Hci; cbn; auto.
    destruct (d !! "crop_info") as [inner|] eqn:Hk.
    2:{ unfold process, bind, subscript. rewrite Hci, Hk. cbn. auto. }
    destruct (h !! inner) as [o|] eqn:Hi.
    2:{ unfold process, bind, subscript. rewrite Hci, Hk, Hi. cbn. auto. }
    destruct o as [di| | |].
    2,3,4: unfold process, bind, subscript; rewrite Hci, Hk, Hi; cbn; auto.
    destruct (di !! "lmk_crop") as [lmk|] eqn:He.
    2:{ unfold process, bind, subscript. rewrite Hci, Hk, Hi, He. cbn.
        auto 6. }
    destruct (h !! lmk) as [o|] eqn:Ha.
    2:{ unfold process, bind, subscript, copy.
        rewrite Hci, Hk, Hi, He, Ha. cbn. auto 7. }
    destruct o as [dd|kp| |].
    1,3,4: unfold process, bind, subscript, copy, rows;
           rewrite Hci, Hk, Hi, He, Ha; cbn; auto 8.
    assert (Hwf : well_formed h ci inner lmk di kp).
    { split; eauto. }
    rewrite (process_run h ci inner lmk di kp ox oy sc Hwf). cbn [fst].
    eauto.
  - intros d inner a Hci Hk Hi.
    unfold process, bind, subscript. rewrite Hci, Hk, Hi. reflexivity.
  - intros d inner di lmk o Hci Hk Hi He Ha [->|[dd ->]];
      unfold process, bind, subscript, copy, rows;
      rewrite Hci, Hk, Hi, He, Ha; reflexivity.
Qed.

(** *** Drawing *)

Lemma py_int_inside (x : Q) :
  Qle_bool 0 x = true -> Qlt_bool x 512 = true -> (0 <= py_int x < 512)%Z.
Proof.
  unfold Qlt_bool. rewrite negb_true_iff. intros H0 H512.
  apply Qle_bool_iff in H0.
  assert (Hlt : x < 512).
  { apply Qnot_le_lt. intros Hle. apply Qle_bool_iff in Hle. congruence. }
  destruct x as [n d]. unfold Qle, Qlt in *. cbn [Qnum Qden] in *.
  unfold py_int. cbn [Qnum Qden].
  assert (Hn : (0 <= n)%Z) by lia.
  rewrite Z.quot_div_nonneg by lia. split.
  - apply Z.div_pos; lia.
  - apply Z.div_lt_upper_bound; lia.
Qed.

Lemma circle_centres_inside (final : points) :
  Forall (fun c => (0 <= fst c < 512)%Z /\ (0 <= snd c < 512)%Z)
         (circle_centres final).
Proof.
  unfold circle_centres. induction final as [|p final IH]; [constructor|].
  cbn [List.filter]. destruct (inside p) eqn:Hin; [|exact IH].
  cbn [map]. constructor; [|exact IH].
  unfold inside in Hin. apply andb_true_iff in Hin. destruct Hin as [Hx Hy].
  apply andb_true_iff in Hx. apply andb_true_iff in Hy.
  destruct Hx, Hy. cbn [fst snd]. split; apply py_int_inside; assumption.
Qed.

Lemma circle_centres_count (final : points) :
  (length (circle_centres final) <= length final)%nat
  /\ (forallb inside final = true ->
      length (circle_centres final) = length final).
Proof.
  unfold circle_centres. rewrite length_map.
  induction final as [|p final [IH1 IH2]]; [split; auto|].
  cbn [List.filter forallb length]. destruct (inside p); cbn [length andb].
  - split; [lia|]. intros H. rewrite IH2 by exact H. reflexivity.
  - split; [lia|discriminate].
Qed.

(** X11: the image that a call returns is drawn from circle centres that
    all lie inside the 512 x 512 canvas; landmarks outside it are left
    out without an error, so that there are at most as many circles as
    landmarks, and exactly as many when every transformed landmark is
    inside. *)
Theorem scaler_draws_inside_canvas (h : heap) (ci inner lmk : loc)
    (di : gmap string loc) (kp : points) (ox oy : Z) (sc : Q) :
  well_formed h ci inner lmk di kp ->
  exists centres,
    fst (process ci ox oy sc h) = Ok (ci, render centres)
    /\ Forall (fun c => (0 <= fst c < 512)%Z /\ (0 <= snd c < 512)%Z) centres
    /\ (length centres <= length kp)%nat
    /\ (forallb inside (scale_keypoints kp ox oy sc) = true ->
        length centres = length kp).
Proof.
  intros Hwf. rewrite (process_run h ci inner lmk di kp ox oy sc Hwf).
  eexists. split; [reflexivity|]. split; [apply circle_centres_inside|].
  destruct (circle_centres_count (scale_keypoints kp ox oy sc)) as [H1 H2].
  rewrite scale_keypoints_length in H1, H2. auto.
Qed.

End ScalerStore.

(** *** The store of [Demo], again *)

Section ScalerExtraDemo.

Import KeypointScaler.
#[local] Existing Instance Demo.scaler_ext.
Local Open Scope Q_scope.

(** The square has its centroid at [(1, 1)]; doubled and moved by
    [(1, -1)] it has it at [(2, 0)]. *)
Lemma scale_keypoints_centroid_witness :
  row_eq (np_mean_axis0 (scale_keypoints Demo.square 1 (-1) 2)) (2, 0).
Proof.
  eapply row_eq_trans.
  - apply (scale_keypoints_centroid Demo.square 1 (-1) 2). discriminate.
  - split; vm_compute; reflexivity.
Defined.

Lemma scaler_calls_compose_witness :
  exists twice once,
    landmarks (snd (process 1%positive 0 3 (1 # 2)
                      (snd (process 1%positive 1 (-1) 2 Demo.store))))
              1%positive
    = Some twice
    /\ landmarks (snd (process 1%positive 1 2 (2 * (1 # 2)) Demo.store))
                 1%positive
       = Some once
    /\ Forall2 row_eq twice once.
Proof.
  destruct (scaler_calls_compose _ _ _ _ _ _ 1 (-1) 0 3 2 (1 # 2)
                                 demo_store_well_formed)
    as (twice & once & H2 & H1 & Hrows).
  exists twice, once. split; [exact H2|]. split; [exact H1|]. exact Hrows.
Defined.

Lemma scaler_round_trip_witness :
  exists back,
    landmarks (snd (process 1%positive (-1) 1 (1 # 2)
                      (snd (process 1%positive 1 (-1) 2 Demo.store))))
              1%positive
    = Some back
    /\ Forall2 row_eq back Demo.square.
Proof.
  apply (scaler_round_trip _ _ _ _ _ _ 1 (-1) 2 demo_store_well_formed).
  discriminate.
Defined.

(** Moved by [(511, 0)] without scaling, two corners of the square are
    left of the right border and two are beyond it. *)
Lemma scaler_draws_inside_canvas_witness :
  exists centres,
    fst (process 1%positive 511 0 1 Demo.store) = Ok (1%positive, centres)
    /\ Forall (fun c => (0 <= fst c < 512)%Z /\ (0 <= snd c < 512)%Z) centres
    /\ (length centres <= 4)%nat.
Proof.
  destruct (scaler_draws_inside_canvas _ _ _ _ _ _ 511 0 1
                                       demo_store_well_formed)
    as (centres & Hr & Hin & Hle & _).
  exists centres. split; [exact Hr|]. split; [exact Hin|exact Hle].
Defined.

End ScalerExtraDemo.

(** ** More on [LivePortraitCropper.process] *)

Section CropperOutputs.

Import LivePortraitCropper CropperState.
Context `{ext : Externals}.

(** *** What the loop collects *)

Lemma crop_step_result (a : Args) (c : Cropper) (src : list BImage)
    (drv : option (list BImage)) (acc acc' : Acc) (i : nat) (w w' : World) :
  self_cropper (self w) = Some (Some c) ->
  crop_step a src drv acc i w = (Ok acc', w') ->
  self w' = self w
  /\ exists d,
      source_crop a c src i d
      /\ acc_crop_info_list acc' = acc_crop_info_list acc ++ [d]
      /\ acc_cropped_images_list acc'
         = acc_cropped_images_list acc ++ [img_crop_256x256 d]
      /\ match drv with
         | None =>
             acc_driving_landmark_list acc' = acc_driving_landmark_list acc
         | Some driving =>
             exists l,
               driving_landmarks a c driving i l
               /\ acc_driving_landmark_list acc'
                  = acc_driving_landmark_list acc ++ [l]
         end.
Proof.
  intros Hc. unfold crop_step, bind, index, call_crop, emit, modify, ret,
    raise, source_crop, driving_landmarks, crop_of.
  destruct (src !! i) as [img|] eqn:Hi; [|discriminate].
  rewrite Hc.
  destruct (crop_single_image c img _ _ _ _ _ _) as [d|] eqn:Hd;
    [|discriminate].
  destruct drv as [driving|].
  - destruct (driving !! i) as [dimg|] eqn:Hdi; [|discriminate].
    cbn [self]. rewrite Hc.
    destruct (crop_single_image c dimg _ _ _ _ _ _) as [dd|] eqn:Hdd;
      [|discriminate].
    intros [= <- <-]. cbn. split; [reflexivity|].
    exists d. split; [eauto|]. split; [reflexivity|]. split; [reflexivity|].
    exists (lmk_crop dd). split; [eauto|reflexivity].
  - intros [= <- <-]. cbn. split; [reflexivity|].
    exists d. split; [eauto|]. split; [reflexivity|]. split; reflexivity.
Qed.

Lemma crop_loop_result (a : Args) (c : Cropper) (src : list BImage)
    (drv : option (list BImage)) (indices : list nat) (acc acc' : Acc)
    (w w' : World) :
  self_cropper (self w) = Some (Some c) ->
  crop_loop a src drv indices acc w = (Ok acc', w') ->
  exists ds,
    Forall2 (source_crop a c src) indices ds
    /\ acc_crop_info_list acc' = acc_crop_info_list acc ++ ds
    /\ acc_cropped_images_list acc'
       = acc_cropped_images_list acc ++ map img_crop_256x256 ds
    /\ match drv with
       | None =>
           acc_driving_landmark_list acc' = acc_driving_landmark_list acc
       | Some driving =>
           exists ls,
             Forall2 (driving_landmarks a c driving) indices ls
             /\ acc_driving_landmark_list acc'
                = acc_driving_landmark_list acc ++ ls
       end.
Proof.
  revert acc w. induction indices as [|i rest IH]; intros acc w Hc H.
  - cbn in H. injection H as <- <-. exists []. rewrite !app_nil_r.
    split; [constructor|]. split; [reflexivity|]. split; [reflexivity|].
    destruct drv; [|reflexivity]. exists []. rewrite app_nil_r.
    split; [constructor|reflexivity].
  - cbn [crop_loop] in H. unfold bind in H.
    destruct (crop_step a src drv acc i w) as [[acc1|e] w1] eqn:Hstep;
      [|discriminate].
    destruct (crop_step_result a c src drv acc acc1 i w w1 Hc Hstep)
      as (Hs & d & Hd & H1 & H2 & H3).
    assert (Hc1 : self_cropper (self w1) = Some (Some c))
      by (rewrite Hs; exact Hc).
    destruct (IH acc1 w1 Hc1 H) as (ds & Hds & H1' & H2' & H3').
    exists (d :: ds). split; [constructor; assumption|].
    split; [rewrite H1', H1, <- app_assoc; reflexivity|].
    split; [rewrite H2', H2, <- app_assoc; reflexivity|].
    destruct drv as [driving|].
    + destruct H3 as (l & Hl & H3). destruct H3' as (ls & Hls & H3').
      exists (l :: ls). split; [constructor; assumption|].
      rewrite H3', H3, <- app_assoc. reflexivity.
    + congruence.
Qed.

(** What [crop_all] returns on a node whose cropper is [c]. *)
Lemma crop_all_result (a : Args) (c : Cropper) (w w' : World)
    (t : Tensor) (out : CropInfoDict) :
  self_cropper (self w) = Some (Some c) ->
  crop_all a w = (Ok (t, out), w') ->
  Forall2 (source_crop a c (map times255_byte (source_image a)))
          (seq 0 (length (source_image a))) (crop_info_list out)
  /\ t = stack_div255 (map img_crop_256x256 (crop_info_list out))
  /\ match opt_driving_images a with
     | None => driving_landmark_list out = None
     | Some driving =>
         exists ls,
           driving_landmark_list out = Some ls
           /\ Forall2 (driving_landmarks a c (map times255_byte driving))
                      (seq 0 (length (source_image a))) ls
     end.
Proof.
  intros Hc H. unfold crop_all, bind in H. rewrite length_map in H.
  destruct (crop_loop _ _ _ _ _ w) as [[acc|e] w1] eqn:Hloop; [|discriminate].
  destruct (crop_loop_result _ _ _ _ _ _ _ _ _ Hc Hloop)
    as (ds & Hds & H1 & H2 & H3).
  cbn [acc_crop_info_list acc_cropped_images_list acc_driving_landmark_list
         app] in H1, H2, H3.
  assert (E : (t, out)
              = (stack_div255 (acc_cropped_images_list acc),
                 {| crop_info_list := acc_crop_info_list acc;
                    driving_landmark_list :=
                      match opt_driving_images a with
                      | Some _ => Some (acc_driving_landmark_list acc)
                      | None => None
                      end |})).
  { unfold release in H. destruct (keep_model_loaded a); cbn in H;
      injection H as <- <- _; reflexivity. }
  injection E as -> ->. cbn [crop_info_list driving_landmark_list].
  rewrite H1, H2. split; [exact Hds|]. split; [reflexivity|].
  destruct (opt_driving_images a) as [driving|]; cbn [option_map] in H3.
  - destruct H3 as (ls & Hls & ->). exists ls.
    split; [reflexivity|exact Hls].
  - reflexivity.
Qed.

(** X12: what a call returns.  There is one crop dictionary per source
    frame, in order, each the cropper's result for that frame with the
    node's arguments; the image tensor is stacked from the
    ['img_crop_256x256'] entries of exactly these dictionaries; and the
    driving landmarks are present exactly when driving images were
    given, one per source frame, taken from the driving frame of the
    same index, so that driving frames beyond the number of source
    frames are not looked at. *)
Theorem cropper_outputs (a : Args) (w w' : World) (t : Tensor)
    (out : CropInfoDict) :
  process a w = (Ok (t, out), w') ->
  exists c,
    length (crop_info_list out) = length (source_image a)
    /\ (forall i img,
          source_image a !! i = Some img ->
          exists d, crop_info_list out !! i = Some d
                    /\ crop_of a c (times255_byte img) d)
    /\ t = stack_div255 (map img_crop_256x256 (crop_info_list out))
    /\ match opt_driving_images a with
       | None => driving_landmark_list out = None
       | Some driving =>
           exists ls,
             driving_landmark_list out = Some ls
             /\ length ls = length (source_image a)
             /\ (length (source_image a) <= length driving)%nat
             /\ forall i l,
                 ls !! i = Some l ->
                 exists img d,
                   driving !! i = Some img
                   /\ crop_of a c (times255_byte img) d
                   /\ l = lmk_crop d
       end.
Proof.
  intros H.
  assert (Hall : exists c w1,
             self_cropper (self w1) = Some (Some c)
             /\ crop_all a w1 = (Ok (t, out), w')).
  { destruct (needs_init_cases a w) as [Hi|[(c & Hc & Hcur)|(e & Hr)]].
    - rewrite (process_constructs a w Hi) in H.
      do 2 eexists. split; [|exact H]. reflexivity.
    - rewrite (process_keeps a w (needs_init_same a w c Hc Hcur)) in H.
      exists c, w. split; [exact Hc|exact H].
    - rewrite Hr in H. discriminate H. }
  destruct Hall as (c & w1 & Hc & Hall).
  destruct (crop_all_result a c w1 w' t out Hc Hall) as (Hsrc & Ht & Hdrv).
  exists c.
  pose proof (Forall2_length _ _ _ Hsrc) as Hlen. rewrite length_seq in Hlen.
  split; [symmetry; exact Hlen|]. split; [|split; [exact Ht|]].
  - intros i img Hi.
    assert (Hlt : (i < length (source_image a))%nat)
      by (eapply lookup_lt_Some; exact Hi).
    destruct (Forall2_lookup_l _ _ _ i i Hsrc)
      as (d & Hd & img' & Himg & Hcrop).
    { apply lookup_seq. split; [reflexivity|exact Hlt]. }
    exists d. split; [exact Hd|].
    rewrite list_lookup_fmap, Hi in Himg. injection Himg as <-. exact Hcrop.
  - destruct (opt_driving_images a) as [driving|]; [|exact Hdrv].
    destruct Hdrv as (ls & Hls & Hf). exists ls. split; [exact Hls|].
    pose proof (Forall2_length _ _ _ Hf) as Hlen'.
    rewrite length_seq in Hlen'. split; [symmetry; exact Hlen'|].
    assert (Hrow : forall i l,
               ls !! i = Some l ->
               exists img d,
                 driving !! i = Some img
                 /\ crop_of a c (times255_byte img) d /\ l = lmk_crop d).
    { intros i l Hl.
      destruct (Forall2_lookup_r _ _ _ i l Hf Hl)
        as (j & Hj & img' & d & Himg & Hcrop & ->).
      apply lookup_seq in Hj. destruct Hj as [-> _]. cbn [Nat.add] in Himg.
      rewrite list_lookup_fmap in Himg.
      destruct (driving !! i) as [img|]; [|discriminate Himg].
      injection Himg as <-. eauto 6. }
    split; [|exact Hrow].
    destruct (length (source_image a)) as [|n] eqn:Hn; [lia|].
    destruct (lookup_lt_is_Some_2 ls n) as [l Hl]; [lia|].
    destruct (Hrow n l Hl) as (img & _ & Hi & _).
    apply lookup_lt_Some in Hi. lia.
Qed.

End CropperOutputs.

Section CropperFailures.

Import LivePortraitCropper CropperState.
Context `{ext : Externals}.

(** *** What the loop can raise *)

Lemma crop_step_raises (a : Args) (c : Cropper) (src : list BImage)
    (drv : option (list BImage)) (acc : Acc) (i : nat) (w w' : World)
    (e : exn) :
  self_cropper (self w) = Some (Some c) ->
  (i < length src)%nat ->
  crop_step a src drv acc i w = (Raise e, w') ->
  e = ExternalError
  \/ (e = IndexError
      /\ exists driving, drv = Some driving /\ (length driving <= i)%nat).
Proof.
  intros Hc Hi. unfold crop_step, bind, index, call_crop, emit, modify, ret,
    raise.
  destruct (lookup_lt_is_Some_2 src i Hi) as [img Himg]. rewrite Himg.
  rewrite Hc.
  destruct (crop_single_image c img _ _ _ _ _ _) as [d|];
    [|intros [= <- _]; auto].
  destruct drv as [driving|]; [|discriminate].
  destruct (driving !! i) as [dimg|] eqn:Hdi.
  - cbn [self]. rewrite Hc.
    destruct (crop_single_image c dimg _ _ _ _ _ _) as [dd|];
      [discriminate|intros [= <- _]; auto].
  - intros [= <- _]. right. split; [reflexivity|].
    exists driving. split; [reflexivity|].
    apply lookup_ge_None. exact Hdi.
Qed.

Lemma crop_loop_raises (a : Args) (c : Cropper) (src : list BImage)
    (drv : option (list BImage)) (indices : list nat) (acc : Acc)
    (w w' : World) (e : exn) :
  self_cropper (self w) = Some (Some c) ->
  Forall (fun i => (i < length src)%nat) indices ->
  crop_loop a src drv indices acc w = (Raise e, w') ->
  e = ExternalError
  \/ (e = IndexError
      /\ exists driving, drv = Some driving
                         /\ (length driving < length src)%nat).
Proof.
  revert acc w. induction indices as [|i rest IH]; intros acc w Hc Hin H.
  - discriminate H.
  - inversion Hin as [|? ? Hi Hrest]; subst.
    cbn [crop_loop] in H. unfold bind in H.
    destruct (crop_step a src drv acc i w) as [[acc1|e1] w1] eqn:Hstep.
    + destruct (crop_step_result a c src drv acc acc1 i w w1 Hc Hstep)
        as (Hs & _).
      apply (IH acc1 w1); [rewrite Hs; exact Hc|exact Hrest|exact H].
    + injection H as -> _.
      destruct (crop_step_raises a c src drv acc i w w1 e Hc Hi Hstep)
        as [He|(He & driving & Hd & Hle)]; [left; exact He|].
      right. split; [exact He|]. exists driving. split; [exact Hd|lia].
Qed.

Lemma seq_below (n : nat) : Forall (fun i => (i < n)%nat) (seq 0 n).
Proof.
  apply List.Forall_forall. intros i Hi. apply in_seq in Hi. lia.
Qed.

(** A failure after the cropper has been looked up happens in the loop:
    the cache is not released and the cropper stays where it is. *)
Lemma crop_all_failed (a : Args) (c : Cropper) (w : World) :
  self_cropper (self w) = Some (Some c) ->
  is_ok (fst (crop_all a w)) = false ->
  self (snd (crop_all a w)) = self w
  /\ (exists tr, trace (snd (crop_all a w)) = trace w ++ tr
                 /\ Forall (loop_event a c) tr)
  /\ exists e,
      fst (crop_all a w) = Raise e
      /\ (e = ExternalError
          \/ (e = IndexError
              /\ exists driving,
                  opt_driving_images a = Some driving
                  /\ (length driving < length (source_image a))%nat)).
Proof.
  intros Hc. unfold crop_all, bind.
  pose proof (loop_like_crop_loop a c (map times255_byte (source_image a))
                (option_map (map times255_byte) (opt_driving_images a))
                (seq 0 (length (map times255_byte (source_image a))))
                {| acc_crop_info_list := [];
                   acc_cropped_images_list := [];
                   acc_driving_landmark_list := [] |} w Hc)
    as (Hs & _ & tr & Ht & Hf & _).
  destruct (crop_loop _ _ _ _ _ w) as [[acc|e] w1] eqn:Hloop.
  - unfold release. destruct (keep_model_loaded a); cbn; discriminate.
  - intros _. cbn in *. split; [exact Hs|]. split; [eauto|].
    exists e. split; [reflexivity|].
    destruct (crop_loop_raises _ _ _ _ _ _ _ _ _ Hc (seq_below _) Hloop)
      as [He|(He & driving & Hd & Hlt)]; [left; exact He|].
    right. split; [exact He|].
    destruct (opt_driving_images a) as [drv|]; [|discriminate Hd].
    cbn in Hd. injection Hd as <-. exists drv.
    rewrite !length_map in Hlt. auto.
Qed.

Lemma consistent_needs_init (a : Args) (w : World) :
  consistent (self w) ->
  needs_init (init_config_of a) w = (Ok true, w)
  \/ exists c, self_cropper (self w) = Some (Some c)
               /\ self_current_config (self w) = Some (init_config_of a)
               /\ init_config c = init_config_of a.
Proof.
  unfold consistent, needs_init.
  destruct (self_cropper (self w)) as [[c|]|]; auto.
  intros Hcons. rewrite Hcons.
  destruct (config_eqb (init_config c) (init_config_of a)) eqn:E;
    [|left; reflexivity].
  apply config_eqb_eq in E. right. exists c. rewrite E. auto.
Qed.

(** X13: on a node whose remembered configuration is the one its cropper
    was built from, a call leaves the node in such a state again, and
    every crop call of the invocation is made on a cropper that was
    built from the [keep_model_loaded] and [onnx_device] of this very
    call.  On a source batch that is not empty (an empty one is refused
    by [torch.stack], which [stack_div255] does not show), the only
    exceptions such a call raises are [IndexError], when there are fewer
    driving frames than source frames, and what the crop operation
    itself raises. *)
Theorem cropper_matches_configuration (a : Args) (w : World) :
  consistent (self w) ->
  consistent (self (snd (process a w)))
  /\ Forall (fun c => init_config c = init_config_of a)
            (crops_by (events_of a w))
  /\ forall e,
      source_image a <> [] ->
      fst (process a w) = Raise e ->
      e = ExternalError
      \/ (e = IndexError
          /\ exists driving,
              opt_driving_images a = Some driving
              /\ (length driving < length (source_image a))%nat).
Proof.
  intros Hcons.
  destruct (consistent_needs_init a w Hcons) as [Hi|(c & Hc & Hcur & Hcfg)].
  - destruct (process_constructs_events a w Hi)
      as (rest & E & Hf & _ & Hcur' & Hc' & _).
    split; [|split].
    + unfold consistent. rewrite Hc'.
      destruct (is_ok _ && _); [exact I|]. rewrite Hcur'. reflexivity.
    + rewrite E. cbn.
      destruct (crop_all_events_no_init a _ _ Hf) as [_ Hcr].
      eapply List.Forall_impl; [|exact Hcr]. intros c <-. reflexivity.
    + intros e _ He. rewrite (process_constructs a w Hi) in He.
      match type of He with
      | fst (crop_all a ?w1) = _ =>
          destruct (crop_all_failed a _ w1 eq_refl) as (_ & _ & e' & He' & Hk)
      end.
      { rewrite He. reflexivity. }
      rewrite He in He'. injection He' as <-. exact Hk.
  - destruct (process_keeps_events a w c Hc Hcur)
      as (Hf & _ & Hcur' & Hc' & _).
    split; [|split].
    + unfold consistent. rewrite Hc'.
      destruct (is_ok _ && _); [exact I|]. rewrite Hcur'. congruence.
    + destruct (crop_all_events_no_init a _ _ Hf) as [_ Hcr].
      eapply List.Forall_impl; [|exact Hcr]. intros c' <-. exact Hcfg.
    + intros e _ He.
      rewrite (process_keeps a w (needs_init_same a w c Hc Hcur)) in He.
      destruct (crop_all_failed a c w Hc) as (_ & _ & e' & He' & Hk).
      { rewrite He. reflexivity. }
      rewrite He in He'. injection He' as <-. exact Hk.
Qed.

(** X14: when a call raises after it has called the crop operation at
    least once, it has raised inside the loop, and the cropper is not
    released, whatever [keep_model_loaded] says: no cache is emptied,
    [self.cropper] still holds the cropper, and the next call with the
    same configuration constructs nothing.  A call that has made a crop
    call has a source batch that is not empty and, if it constructed a
    cropper, a constructor that returned; [torch.stack] on the crops,
    which comes after the release, is taken to succeed. *)
Theorem cropper_failure_keeps_model (a : Args) (w : World) :
  consistent (self w) ->
  crops_by (events_of a w) <> [] ->
  is_ok (fst (process a w)) = false ->
  ~ In SoftEmptyCache (events_of a w)
  /\ (exists c, self_cropper (self (snd (process a w))) = Some (Some c)
                /\ init_config c = init_config_of a
                /\ Forall (eq c) (crops_by (events_of a w)))
  /\ inits (events_of a (snd (process a w))) = [].
Proof.
  intros Hcons _ Hfail.
  assert (H : exists c w1 pre,
             process a w = crop_all a w1
             /\ self_cropper (self w1) = Some (Some c)
             /\ self_current_config (self w1) = Some (init_config_of a)
             /\ init_config c = init_config_of a
             /\ trace w1 = trace w ++ pre
             /\ ~ In SoftEmptyCache pre
             /\ crops_by pre = []).
  { destruct (consistent_needs_init a w Hcons) as [Hi|(c & Hc & Hcur & Hcfg)].
    - do 2 eexists.
      exists [CropperInit {| cropper_id := next_id w;
                             init_config := init_config_of a |}].
      split; [exact (process_constructs a w Hi)|].
      cbn. repeat (split; [reflexivity|]).
      split; [|reflexivity].
      intros [Hx|[]]. discriminate Hx.
    - exists c, w, []. rewrite app_nil_r.
      split; [exact (process_keeps a w (needs_init_same a w c Hc Hcur))|].
      split; [exact Hc|]. split; [exact Hcur|]. split; [exact Hcfg|].
      split; [reflexivity|]. split; [intros []|reflexivity]. }
  destruct H as (c & w1 & pre & E & Hc & Hcur & Hcfg & Ht & Hpre & Hnone).
  rewrite E in Hfail.
  destruct (crop_all_failed a c w1 Hc Hfail) as (Hs & (tr & Htr & Hf) & _).
  assert (Hc' : self_cropper (self (snd (process a w))) = Some (Some c))
    by (rewrite E, Hs; exact Hc).
  assert (Hcur' : self_current_config (self (snd (process a w)))
                  = Some (init_config_of a))
    by (rewrite E, Hs; exact Hcur).
  assert (Hev : events_of a w = pre ++ tr).
  { unfold events_of. rewrite E, Htr, Ht, <- app_assoc, drop_app_length.
    reflexivity. }
  split; [|split].
  - rewrite Hev.
    intros Hin. apply in_app_or in Hin. destruct Hin as [Hin|Hin].
    + exact (Hpre Hin).
    + rewrite List.Forall_forall in Hf. exact (Hf _ Hin).
  - exists c. split; [exact Hc'|]. split; [exact Hcfg|].
    rewrite Hev, crops_by_app, Hnone. cbn [app].
    exact (proj2 (loop_events_no_init a c tr Hf)).
  - destruct (process_keeps_events a _ c Hc' Hcur') as (Hf' & _).
    exact (proj1 (crop_all_events_no_init a _ _ Hf')).
Qed.


(** *** Fewer driving frames than source frames *)

(** With a crop operation that never raises, the loop over
    [s, s + 1, ...] stops at the first index that has no driving
    frame. *)
Lemma crop_loop_short (a : Args) (c : Cropper) (src driving : list BImage) :
  (forall c img arg2 arg3 arg4 arg5 arg6 arg7,
      is_Some (crop_single_image c img arg2 arg3 arg4 arg5 arg6 arg7)) ->
  forall (k s : nat) (acc : Acc) (w : World),
    self_cropper (self w) = Some (Some c) ->
    (s <= length driving)%nat ->
    (length driving < s + k)%nat ->
    (s + k <= length src)%nat ->
    fst (crop_loop a src (Some driving) (seq s k) acc w) = Raise IndexError
    /\ exists tr,
        trace (snd (crop_loop a src (Some driving) (seq s k) acc w))
        = trace w ++ tr
        /\ length (crops_by tr) = (2 * (length driving - s) + 1)%nat.
Proof.
  intros Htotal. induction k as [|k IH]; intros s acc w Hc Hs Hd Hsrc; [lia|].
  cbn [seq crop_loop].
  unfold crop_step, bind, index, call_crop, emit, modify, ret, raise.
  destruct (lookup_lt_is_Some_2 src s) as [img Himg]; [lia|].
  rewrite Himg, Hc.
  destruct (Htotal c img (dsize a) (scale a) (vy_ratio a) (vx_ratio a)
              (face_index a) (rotate a)) as [d Hcrop].
  rewrite Hcrop.
  destruct (driving !! s) as [dimg|] eqn:Hdi.
  - apply lookup_lt_Some in Hdi. cbn [self]. rewrite Hc.
    destruct (Htotal c dimg (dsize a) (scale a) (vy_ratio a) (vx_ratio a)
                (face_index a) (rotate a)) as [dd Hcrop'].
    rewrite Hcrop'.
    match goal with
    | |- context [crop_loop a src (Some driving) (seq (S s) k) ?acc1 ?w1] =>
        destruct (IH (S s) acc1 w1) as (Hr & tr & Ht & Hn);
          [exact Hc|lia|lia|lia|]
    end.
    split; [exact Hr|].
    eexists. rewrite Ht. cbn [trace]. rewrite <- !app_assoc.
    split; [reflexivity|].
    unfold crops_by in *. cbn. lia.
  - apply lookup_ge_None in Hdi. cbn. split; [reflexivity|].
    eexists. split; [reflexivity|]. cbn. lia.
Qed.

(** X15: with fewer driving frames than source frames, and a crop
    operation that does not raise, a call raises [IndexError] when it
    reaches the first source frame without a driving frame: by then it
    has cropped every driving frame and one source frame more than
    that. *)
Theorem cropper_short_driving (a : Args) (w : World) (driving : list FImage) :
  (forall c img arg2 arg3 arg4 arg5 arg6 arg7,
      is_Some (crop_single_image c img arg2 arg3 arg4 arg5 arg6 arg7)) ->
  consistent (self w) ->
  opt_driving_images a = Some driving ->
  (length driving < length (source_image a))%nat ->
  fst (process a w) = Raise IndexError
  /\ length (crops_by (events_of a w)) = (2 * length driving + 1)%nat.
Proof.
  intros Htotal Hcons Hdrv Hlt.
  assert (H : exists c w1 pre,
             process a w = crop_all a w1
             /\ self_cropper (self w1) = Some (Some c)
             /\ trace w1 = trace w ++ pre
             /\ crops_by pre = []).
  { destruct (consistent_needs_init a w Hcons) as [Hi|(c & Hc & Hcur & Hcfg)].
    - do 2 eexists.
      exists [CropperInit {| cropper_id := next_id w;
                             init_config := init_config_of a |}].
      split; [exact (process_constructs a w Hi)|].
      cbn. repeat (split; [reflexivity|]). reflexivity.
    - exists c, w, []. rewrite app_nil_r.
      split; [exact (process_keeps a w (needs_init_same a w c Hc Hcur))|].
      split; [exact Hc|]. split; reflexivity. }
  destruct H as (c & w1 & pre & E & Hc & Ht & Hpre).
  unfold events_of. rewrite E. unfold crop_all, bind.
  rewrite Hdrv. cbn [option_map].
  destruct (crop_loop_short a c (map times255_byte (source_image a))
              (map times255_byte driving) Htotal
              (length (map times255_byte (source_image a))) 0
              {| acc_crop_info_list := [];
                 acc_cropped_images_list := [];
                 acc_driving_landmark_list := [] |} w1 Hc)
    as (Hr & tr & Htr & Hn).
  { lia. }
  { rewrite !length_map. lia. }
  { lia. }
  destruct (crop_loop _ _ _ _ _ w1) as [[acc|e] w2]; cbn in Hr, Htr;
    [discriminate Hr|].
  injection Hr as ->. cbn. split; [reflexivity|].
  rewrite Htr, Ht, <- app_assoc, drop_app_length.
  rewrite crops_by_app, Hpre. cbn [app]. rewrite length_map in Hn. lia.
Qed.

End CropperFailures.

(** *** The invocations of [Demo] and [DemoExtra] *)

Section CropperExtraDemo.

Import LivePortraitCropper CropperState.
#[local] Existing Instance Demo.crop_ext.

(** Two source frames and two driving frames: two dictionaries and two
    driving landmarks. *)
Lemma cropper_outputs_witness :
  exists t out,
    fst (process Demo.crop_args_release Demo.new_world) = Ok (t, out)
    /\ length (crop_info_list out) = 2%nat
    /\ exists ls, driving_landmark_list out = Some ls /\ length ls = 2%nat.
Proof.
  destruct (process Demo.crop_args_release Demo.new_world)
    as [[[t out]|e] w'] eqn:E.
  2:{ vm_compute in E. discriminate E. }
  exists t, out. split; [reflexivity|].
  destruct (cropper_outputs _ _ _ _ _ E)
    as (c & Hlen & _ & _ & ls & Hls & Hlen' & _).
  split; [exact Hlen|]. exists ls. split; [exact Hls|exact Hlen'].
Defined.

Lemma cropper_matches_configuration_witness :
  consistent (self (snd (process Demo.crop_args Demo.new_world)))
  /\ Forall (fun c => init_config c = init_config_of Demo.crop_args)
            (crops_by (events_of Demo.crop_args Demo.new_world)).
Proof.
  destruct (cropper_matches_configuration Demo.crop_args Demo.new_world I)
    as (Hc & Hall & _).
  split; [exact Hc|exact Hall].
Defined.

(** One driving frame for three source frames: the call fails, although
    [keep_model_loaded] is off the cropper stays, and a second call
    constructs nothing. *)
Lemma cropper_failure_keeps_model_witness :
  keep_model_loaded DemoExtra.crop_args_short = false
  /\ ~ In SoftEmptyCache (events_of DemoExtra.crop_args_short Demo.new_world)
  /\ inits (events_of DemoExtra.crop_args_short
                      (snd (process DemoExtra.crop_args_short Demo.new_world)))
     = [].
Proof.
  split; [reflexivity|].
  destruct (cropper_failure_keeps_model DemoExtra.crop_args_short
                                        Demo.new_world I)
    as (Hno & _ & Hnext).
  - vm_compute. discriminate.
  - vm_compute. reflexivity.
  - split; [exact Hno|exact Hnext].
Defined.

Lemma cropper_short_driving_witness :
  fst (process DemoExtra.crop_args_short Demo.new_world) = Raise IndexError
  /\ length (crops_by (events_of DemoExtra.crop_args_short Demo.new_world))
     = 3%nat.
Proof.
  apply (cropper_short_driving DemoExtra.crop_args_short Demo.new_world
                               [10%nat]).
  - intros c img arg2 arg3 arg4 arg5 arg6 arg7. eexists. reflexivity.
  - exact I.
  - reflexivity.
  - cbn. lia.
Defined.

End CropperExtraDemo.

(** ** More on [LivePortraitProcess.process] *)

Section ProcessRuns.

Import LivePortraitProcess ProcessConfig.
Context `{ext : Externals}.

Lemma flags_keep (a : Args) (o : pyobj) (name : string) :
  ~ In name retargeting_fields ->
  with_flags a o !! name = o !! name.
Proof.
  intros Hn. unfold with_flags.
  rewrite !lookup_setattr_ne; [reflexivity|..];
    intros <-; apply Hn; cbn; tauto.
Qed.

Lemma driving_256_unfold (a : Args) (b : bool) :
  (if b
   then map to_float16
            (common_upscale (map permute_chw (driving_images a)) 256 256
                            "lanczos" "disabled")
   else common_upscale (map permute_chw (driving_images a)) 256 256
                       "lanczos" "disabled")
  = driving_256 a b.
Proof.
  unfold driving_256, common_upscale.
  destruct b; rewrite !List.map_map; reflexivity.
Qed.

(** An invocation that gets as far as the pipeline, in one equation. *)
Lemma process_run_to_execute (a : Args) (w : World) (v half : pyval)
    (b : bool) :
  (length (source_image a) <= length (driving_images a))%nat ->
  mask_crop_value a = Some v ->
  cfg w !! "flag_use_half_precision" = Some half ->
  truth half = Ok b ->
  exists pre,
    process a w
    = (match snd (pipeline_execute
                    (setattr "mask_crop" v (with_flags a (cfg w)))
                    (map times255_byte (source_image a)) (driving_256 a b)
                    (crop_info a) (mismatch_method a)) with
       | Some out => Ok (assemble out)
       | None => Raise ExternalError
       end,
       {| cfg := fst (pipeline_execute
                        (setattr "mask_crop" v (with_flags a (cfg w)))
                        (map times255_byte (source_image a))
                        (driving_256 a b) (crop_info a) (mismatch_method a));
          trace := trace w ++ pre
                   ++ [Execute (setattr "mask_crop" v (with_flags a (cfg w)))
                               (map times255_byte (source_image a))
                               (driving_256 a b) (crop_info a)
                               (mismatch_method a)] |})
    /\ forallb (fun e => negb (is_execute e)) pre = true.
Proof.
  intros Hlen Hm Hh Hb. apply Nat.ltb_ge in Hlen.
  unfold process. rewrite Hlen.
  unfold write_flags, warn_lip_zero, write_mask_crop, prepare_driving,
    execute, read_cfg, set_cfg, log_warning, log_info, emit, modify, when,
    index0, bind, ret, raise, lift, getattr, mask_crop_value in *.
  cbn -[setattr].
  fold (with_flags a (cfg w)).
  destruct (lip_zero a && (lip_retargeting a || eye_retargeting a));
    cbn -[setattr];
    (destruct (mask a) as [[|frame frames]|];
     [discriminate Hm| |]; injection Hm as <-; cbn -[setattr]).
  all: rewrite lookup_setattr_ne by discriminate.
  all: rewrite (flags_keep a (cfg w) "flag_use_half_precision")
         by (cbn; intuition discriminate).
  all: rewrite Hh; cbn -[setattr]; rewrite Hb; cbn -[setattr].
  all: rewrite driving_256_unfold.
  all: destruct (pipeline_execute _ _ _ _ _) as [cfg' [[[o1 o2] o3]|]];
    cbn -[setattr].
  all: rewrite <- ?app_assoc; cbn [app].
  all: lazymatch goal with
       | |- exists pre, (_, {| cfg := _; trace := _ ++ ?l |}) = _ /\ _ =>
           exists (removelast l); cbn [removelast]
       end.
  all: split; reflexivity.
Qed.


Lemma events_of_trace (a : Args) (w : World)
    (r : result (Tensor * Tensor * Tensor))
    (o : pyobj) (evs : list event) :
  process a w = (r, {| cfg := o; trace := trace w ++ evs |}) ->
  events_of a w = evs.
Proof.
  intros E. unfold events_of. rewrite E. cbn [snd trace].
  apply drop_app_length.
Qed.

(** X16: in an invocation that reaches the pipeline, the only attributes
    of the configuration that differ from what they were before the
    call are the nine retargeting fields: every other attribute, present
    or absent, is handed to the pipeline as it was. *)
Theorem process_leaves_other_attributes (a : Args) (w : World)
    (v half : pyval) (b : bool) :
  (length (source_image a) <= length (driving_images a))%nat ->
  mask_crop_value a = Some v ->
  cfg w !! "flag_use_half_precision" = Some half ->
  truth half = Ok b ->
  exists pre seen s d c m,
    events_of a w = pre ++ [Execute seen s d c m]
    /\ forall name, ~ In name retargeting_fields ->
                    seen !! name = cfg w !! name.
Proof.
  intros Hlen Hm Hh Hb.
  destruct (process_run_to_execute a w v half b Hlen Hm Hh Hb) as (pre & E & _).
  apply events_of_trace in E.
  exists pre. do 5 eexists. split; [exact E|].
  intros name Hn. rewrite lookup_setattr_ne.
  - apply flags_keep. exact Hn.
  - intros <-. apply Hn. cbn. tauto.
Qed.

(** X17: in an invocation that reaches the pipeline, the pipeline is
    called once, as the last event, with the source frames converted to
    bytes one by one, and with [crop_info] and [mismatch_method] as they
    were given (the method is not checked against the four names the
    node offers).  When the pipeline returns, what [process] returns is
    assembled from the pipeline's three lists by [torch.cat] and
    [torch.stack], which are taken to succeed; when the pipeline raises,
    [process] raises; in both cases the configuration is left as the
    pipeline left it. *)
Theorem process_passes_pipeline_result (a : Args) (w : World)
    (v half : pyval) (b : bool) :
  (length (source_image a) <= length (driving_images a))%nat ->
  mask_crop_value a = Some v ->
  cfg w !! "flag_use_half_precision" = Some half ->
  truth half = Ok b ->
  exists pre seen d,
    events_of a w
    = pre ++ [Execute seen (map times255_byte (source_image a)) d
                      (crop_info a) (mismatch_method a)]
    /\ existsb is_execute pre = false
    /\ fst (process a w)
       = match snd (pipeline_execute seen
                      (map times255_byte (source_image a)) d
                      (crop_info a) (mismatch_method a)) with
         | Some out => Ok (assemble out)
         | None => Raise ExternalError
         end
    /\ cfg (snd (process a w))
       = fst (pipeline_execute seen (map times255_byte (source_image a)) d
                               (crop_info a) (mismatch_method a)).
Proof.
  intros Hlen Hm Hh Hb.
  destruct (process_run_to_execute a w v half b Hlen Hm Hh Hb)
    as (pre & E & Hpre).
  exists pre. do 2 eexists.
  split; [exact (events_of_trace _ _ _ _ _ E)|].
  split.
  { clear E. induction pre as [|e pre IH]; [reflexivity|].
    cbn [forallb existsb] in *. apply andb_true_iff in Hpre.
    destruct Hpre as [He Hpre]. apply negb_true_iff in He.
    rewrite He. cbn. apply IH. exact Hpre. }
  rewrite E. split; reflexivity.
Qed.

(** An invocation whose mask tensor has no frame. *)
Lemma process_run_empty_mask (a : Args) (w : World) :
  (length (source_image a) <= length (driving_images a))%nat ->
  mask a = Some [] ->
  exists pre,
    process a w
    = (Raise IndexError,
       {| cfg := with_flags a (cfg w); trace := trace w ++ pre |})
    /\ existsb is_execute pre = false.
Proof.
  intros Hlen Hm. apply Nat.ltb_ge in Hlen.
  unfold process. rewrite Hlen.
  unfold write_flags, warn_lip_zero, write_mask_crop, prepare_driving,
    execute, read_cfg, set_cfg, log_warning, log_info, emit, modify, when,
    index0, bind, ret, raise, lift, getattr in *.
  rewrite Hm. cbn -[setattr].
  fold (with_flags a (cfg w)).
  destruct (lip_zero a && (lip_retargeting a || eye_retargeting a));
    cbn -[setattr]; rewrite <- ?app_assoc; cbn [app];
    eexists; (split; [reflexivity|]); reflexivity.
Qed.

(** X18: a mask tensor without a frame makes [process] raise [IndexError]
    after the eight flag assignments: the pipeline is not called, but
    the shared configuration object already carries the new flags, and
    [mask_crop] is what it was. *)
Theorem process_fails_after_writing_flags (a : Args) (w : World) :
  (length (source_image a) <= length (driving_images a))%nat ->
  mask a = Some [] ->
  fst (process a w) = Raise IndexError
  /\ existsb is_execute (events_of a w) = false
  /\ cfg (snd (process a w)) = with_flags a (cfg w)
  /\ cfg (snd (process a w)) !! "flag_lip_zero" = Some (PyBool (lip_zero a))
  /\ cfg (snd (process a w)) !! "mask_crop" = cfg w !! "mask_crop".
Proof.
  intros Hlen Hm.
  destruct (process_run_empty_mask a w Hlen Hm) as (pre & E & Hpre).
  rewrite (events_of_trace _ _ _ _ _ E). rewrite E. cbn [fst snd cfg].
  split; [reflexivity|]. split; [exact Hpre|]. split; [reflexivity|].
  split.
  - unfold with_flags. rewrite lookup_setattr_ne by discriminate.
    apply lookup_setattr_eq.
  - unfold with_flags. rewrite !lookup_setattr_ne by discriminate.
    reflexivity.
Qed.

End ProcessRuns.

(** *** The invocations of [Demo] and [DemoExtra] *)

Section ProcessExtraDemo.

Import LivePortraitProcess ProcessConfig.
#[local] Existing Instance Demo.process_ext.

Lemma process_leaves_other_attributes_witness :
  exists pre seen s d c m,
    events_of Demo.default_args Demo.fresh_world
    = pre ++ [Execute seen s d c m]
    /\ seen !! "flag_pasteback" = cfg Demo.fresh_world !! "flag_pasteback".
Proof.
  destruct (process_leaves_other_attributes
              Demo.default_args Demo.fresh_world
              (PyImage [[[Byte.xff; Byte.xff; Byte.xff]]]) (PyBool true) true)
    as (pre & seen & s & d & c & m & E & Hkeep).
  - cbn. lia.
  - reflexivity.
  - apply InferenceConfig_half_precision.
  - reflexivity.
  - exists pre, seen, s, d, c, m. split; [exact E|].
    apply Hkeep. simpl. intros H.
    repeat (destruct H as [H|H]; [discriminate H|]). exact H.
Defined.

Lemma process_passes_pipeline_result_witness :
  exists pre seen d,
    events_of Demo.default_args Demo.fresh_world
    = pre ++ [Execute seen [0%nat] d tt "constant"]
    /\ existsb is_execute pre = false.
Proof.
  destruct (process_passes_pipeline_result
              Demo.default_args Demo.fresh_world
              (PyImage [[[Byte.xff; Byte.xff; Byte.xff]]]) (PyBool true) true)
    as (pre & seen & d & E & Hpre & _).
  - cbn. lia.
  - reflexivity.
  - apply InferenceConfig_half_precision.
  - reflexivity.
  - exists pre, seen, d. split; [exact E|exact Hpre].
Defined.

Lemma process_fails_after_writing_flags_witness :
  fst (process DemoExtra.empty_mask_args Demo.fresh_world) = Raise IndexError
  /\ cfg (snd (process DemoExtra.empty_mask_args Demo.fresh_world))
     !! "flag_lip_zero"
     = Some (PyBool true).
Proof.
  destruct (process_fails_after_writing_flags
              DemoExtra.empty_mask_args Demo.fresh_world)
    as (Hr & _ & _ & Hflag & _).
  - cbn. lia.
  - reflexivity.
  - split; [exact Hr|exact Hflag].
Defined.

End ProcessExtraDemo.

(** ** More on [loadmodel] *)

Section LoaderOutcomes.

Import DownloadAndLoadLivePortraitModels.
Context `{host : Host}.

(** The configuration of a pipeline that [loadmodel] returns. *)
Lemma loadmodel_cfg_eq (precision : string) (out : list string)
    (p : LivePortraitPipeline) (out' : list string) :
  loadmodel precision out = (Ok p, out') ->
  cfg p = InferenceConfig PyNone
            (if (precision =? "fp16")%string then true else false)
            true (3 # 100) false false true true (256, 256)%Z true
            (PyDevice get_torch_device) true true.
Proof.
  unfold loadmodel, bind. intros H.
  destruct (resolve_dtype precision get_torch_device out) as [[dtype|e] o1];
    [|discriminate].
  destruct (load_networks get_torch_device) as [n|]; cbn in H; [|discriminate].
  injection H as <- _. reflexivity.
Qed.

(** X19: [loadmodel] raises [AttributeError] exactly when the precision is
    "auto" and a detection call raises: [is_device_mps], or
    [should_use_fp16] on a device that is not MPS.  With an explicit
    precision the detection calls are not made, and on an MPS device
    [should_use_fp16] is not. *)
Theorem loadmodel_attribute_error_iff (precision : string)
    (out : list string) :
  (exists msg, fst (loadmodel precision out) = Raise (AttributeError msg))
  <-> precision = "auto"
      /\ (is_device_mps get_torch_device = None
          \/ (is_device_mps get_torch_device = Some false
              /\ should_use_fp16 = None)).
Proof.
  unfold loadmodel, resolve_dtype, autodetect, bind, print, modify, ret,
    raise.
  destruct (String.eqb_spec precision "auto") as [->|Hne].
  - destruct (is_device_mps get_torch_device) as [[|]|]; cbn.
    + destruct (load_networks get_torch_device); cbn;
        (split; [intros [msg H]; discriminate H
                |intros [_ [H|[H _]]]; discriminate H]).
    + destruct should_use_fp16 as [[|]|]; cbn;
        try (destruct (load_networks get_torch_device); cbn;
             (split; [intros [msg H]; discriminate H
                     |intros [_ [H|[_ H]]]; discriminate H])).
      split; [auto|]. intros _. eauto.
    + split; [auto|]. intros _. eauto.
  - cbn. destruct (load_networks get_torch_device); cbn;
      (split; [intros [msg H]; discriminate H|intros [H _]; contradiction]).
Qed.

(** X20: [loadmodel] prints at most one line, and it does so before
    anything is loaded.  A call that raises [AttributeError] has printed
    nothing; every other call, whether it returns or fails while the
    networks are loaded, has printed exactly one line: the given
    precision when that is not "auto", and otherwise one of the three
    detection results. *)
Theorem loadmodel_prints_one_line (precision : string) (out : list string) :
  match fst (loadmodel precision out) with
  | Raise (AttributeError _) => snd (loadmodel precision out) = out
  | _ =>
      exists line,
        snd (loadmodel precision out) = out ++ [line]
        /\ (precision <> "auto" ->
            line = ("LivePortrait using " ++ precision)%string)
        /\ (precision = "auto" ->
            In line ["LivePortrait using fp32 for MPS";
                     "LivePortrait using fp16"; "LivePortrait using fp32"])
  end.
Proof.
  unfold loadmodel, resolve_dtype, autodetect, bind, print, modify, ret,
    raise.
  destruct (String.eqb_spec precision "auto") as [->|Hne].
  - destruct (is_device_mps get_torch_device) as [[|]|]; cbn;
      [|destruct should_use_fp16 as [[|]|]; cbn|];
      try reflexivity;
      destruct (load_networks get_torch_device); cbn;
      eexists; (split; [reflexivity|]);
      (split; [intros H; contradiction|]); intros _; cbn; auto.
  - cbn. destruct (load_networks get_torch_device); cbn;
      eexists; (split; [reflexivity|]);
      (split; [reflexivity|]); intros H; contradiction.
Qed.

End LoaderOutcomes.

(** ** [loadmodel], then [LivePortraitProcess.process] *)

Section LoaderThenProcess.

Context `{host : DownloadAndLoadLivePortraitModels.Host}.
Context `{ext : LivePortraitProcess.Externals}.

(** X21: on a pipeline that [loadmodel] has returned, an invocation of
    [process] that passes the length check and has a mask frame (or no
    mask) always reaches the pipeline, and hands it the driving frames
    in half precision exactly when the loader was called with "fp16":
    with "auto" they stay in full precision, whatever was detected.
    The two multiplier attributes, which [InferenceConfig] does not
    declare, exist from then on; the attributes that [process] does not
    assign keep the loader's defaults. *)
Theorem loadmodel_then_process (precision : string) (out out' : list string)
    (p : DownloadAndLoadLivePortraitModels.LivePortraitPipeline)
    (a : LivePortraitProcess.Args) (tr : list LivePortraitProcess.event)
    (v : pyval) :
  DownloadAndLoadLivePortraitModels.loadmodel precision out = (Ok p, out') ->
  (length (LivePortraitProcess.source_image a)
   <= length (LivePortraitProcess.driving_images a))%nat ->
  ProcessConfig.mask_crop_value a = Some v ->
  let w := {| LivePortraitProcess.cfg :=
                DownloadAndLoadLivePortraitModels.cfg p;
              LivePortraitProcess.trace := tr |} in
  exists pre seen s c m,
    LivePortraitProcess.events_of a w
    = pre ++ [LivePortraitProcess.Execute seen s
                (ProcessConfig.driving_256 a
                   (if (precision =? "fp16")%string then true else false))
                c m]
    /\ DownloadAndLoadLivePortraitModels.cfg p !! "eyes_retargeting_multiplier"
       = None
    /\ DownloadAndLoadLivePortraitModels.cfg p !! "lip_retargeting_multiplier"
       = None
    /\ seen !! "eyes_retargeting_multiplier"
       = Some (PyFloat (LivePortraitProcess.eyes_retargeting_multiplier a))
    /\ seen !! "lip_retargeting_multiplier"
       = Some (PyFloat (LivePortraitProcess.lip_retargeting_multiplier a))
    /\ seen !! "flag_pasteback" = Some (PyBool true)
    /\ seen !! "input_shape" = Some (PyShape 256 256).
Proof.
  intros Hload Hlen Hm w.
  pose proof (loadmodel_cfg_eq precision out p out' Hload) as Hcfg.
  assert (Hh : LivePortraitProcess.cfg w !! "flag_use_half_precision"
               = Some (PyBool (if (precision =? "fp16")%string
                               then true else false))).
  { cbn [w LivePortraitProcess.cfg]. rewrite Hcfg.
    apply InferenceConfig_half_precision. }
  destruct (process_run_to_execute a w v _ _ Hlen Hm Hh eq_refl)
    as (pre & E & _).
  apply events_of_trace in E.
  exists pre. do 4 eexists. split; [exact E|].
  cbn [w LivePortraitProcess.cfg]. rewrite Hcfg.
  unfold ProcessConfig.with_flags, InferenceConfig.
  split; [rewrite !lookup_setattr_ne by discriminate; apply lookup_empty|].
  split; [rewrite !lookup_setattr_ne by discriminate; apply lookup_empty|].
  split; [rewrite !lookup_setattr_ne by discriminate;
          apply lookup_setattr_eq|].
  split; [rewrite !lookup_setattr_ne by discriminate;
          apply lookup_setattr_eq|].
  split; rewrite !lookup_setattr_ne by discriminate; apply lookup_setattr_eq.
Qed.

End LoaderThenProcess.

(** *** The hosts of [Demo] and [DemoExtra] *)

Section LoaderExtraDemo.

Import DownloadAndLoadLivePortraitModels.
#[local] Existing Instance Demo.process_ext.

Lemma loadmodel_attribute_error_iff_witness :
  exists msg,
    fst (loadmodel (host := DemoExtra.host_without_mps) "auto" [])
    = Raise (AttributeError msg).
Proof.
  apply (proj2 (loadmodel_attribute_error_iff
                  (host := DemoExtra.host_without_mps) "auto" [])).
  split; [reflexivity|]. left. reflexivity.
Defined.

(** On the CUDA host of [Demo] with "auto": fp16 is detected, and the
    driving frames reach the pipeline in full precision. *)
Lemma loadmodel_then_process_witness :
  exists p pre seen s c m,
    loadmodel (host := Demo.host) "auto" []
    = (Ok p, ["LivePortrait using fp16"])
    /\ LivePortraitProcess.events_of Demo.default_args
         {| LivePortraitProcess.cfg := cfg p;
            LivePortraitProcess.trace := [] |}
       = pre ++ [LivePortraitProcess.Execute seen s
                   [(10%nat, (256, 256)%Z, false);
                    (11%nat, (256, 256)%Z, false);
                    (12%nat, (256, 256)%Z, false)] c m].
Proof.
  destruct (loadmodel_returns (host := Demo.host) "auto" [] "fp16"
              ["LivePortrait using fp16"] tt eq_refl eq_refl) as [p Hp].
  destruct (loadmodel_then_process
              (host := Demo.host) (ext := Demo.process_ext)
              "auto" [] ["LivePortrait using fp16"] p Demo.default_args []
              (PyImage [[[Byte.xff; Byte.xff; Byte.xff]]]) Hp)
    as (pre & seen & s & c & m & E & _).
  - cbn. lia.
  - reflexivity.
  - exists p, pre, seen, s, c, m. split; [exact Hp|exact E].
Defined.

End LoaderExtraDemo.
